(** * The Flare Initiative: front-end controllers

    A shallow embedding of the three UI controllers of the page
    ([scripts/components/fadeEffect.js], [navbar.js] and
    [scrollAnimations.js]) together with the fragment of the browser
    they talk to: a store of elements with their class lists, the
    listener table, the timer list and the animation-frame queue.

    Conventions.
    - An element is referred to by its node identifier; the document is
      a finite map from identifiers to element records, so that two
      references to the same element alias.
    - A JavaScript number is an IEEE 754 binary64 value: the primitive
      type [float], whose subtraction, division and comparisons round
      and treat [NaN], the infinities and the two zeros as the source's
      do.
    - A method that dereferences [null] raises [TypeError]; such methods
      return in the [result] type. *)

From Stdlib Require Import String Ascii ZArith List Bool Lia Floats.
From stdpp Require Import gmap.
Import ListNotations.

Open Scope string_scope.
#[local] Set Warnings "-inexact-float".

(** ** Elements and documents *)

Module Dom.

Definition node := nat.

(** The part of an element the controllers read or write. *)
Record Element := mkElement {
  classList : list string;          (* DOMTokenList, in order *)
  ariaExpanded : option string;     (* the aria-expanded attribute *)
  styleOpacity : option float;      (* style.opacity, the number written; None is '' *)
  styleWillChange : string;         (* style.willChange *)
  rectTop : float                   (* getBoundingClientRect().top *)
}.

Definition set_classList (f : list string -> list string) (e : Element) :=
  mkElement (f (classList e)) (ariaExpanded e) (styleOpacity e)
            (styleWillChange e) (rectTop e).
Definition set_ariaExpanded (v : string) (e : Element) :=
  mkElement (classList e) (Some v) (styleOpacity e)
            (styleWillChange e) (rectTop e).
Definition set_styleOpacity (q : float) (e : Element) :=
  mkElement (classList e) (ariaExpanded e) (Some q)
            (styleWillChange e) (rectTop e).
Definition set_styleWillChange (v : string) (e : Element) :=
  mkElement (classList e) (ariaExpanded e) (styleOpacity e) v (rectTop e).

(** *** DOMTokenList *)

(** A token the methods of a token list accept: not empty and free of
    ASCII whitespace (tab, line feed, form feed, carriage return,
    space).  [add], [remove] and [toggle] throw on any other token
    before they change anything; the definitions below are their update
    steps for a token that passes. *)
Definition isAsciiWhitespace (a : ascii) : bool :=
  let n := nat_of_ascii a in
  (n =? 9)%nat || (n =? 10)%nat || (n =? 12)%nat || (n =? 13)%nat
  || (n =? 32)%nat.

Fixpoint hasWhitespace (c : string) : bool :=
  match c with
  | EmptyString => false
  | String a c' => isAsciiWhitespace a || hasWhitespace c'
  end.

Definition validToken (c : string) : bool :=
  negb (String.eqb c "") && negb (hasWhitespace c).

Definition contains (c : string) (l : list string) : bool :=
  existsb (String.eqb c) l.

Definition add (c : string) (l : list string) : list string :=
  if contains c l then l else (l ++ [c])%list.

Definition remove (c : string) (l : list string) : list string :=
  List.filter (fun x => negb (String.eqb c x)) l.

(** [toggle] returns the new token list and whether the token is now
    present, as [DOMTokenList.toggle] does. *)
Definition toggle (c : string) (l : list string) : list string * bool :=
  if contains c l then (remove c l, false) else ((l ++ [c])%list, true).

Abbreviation document := (gmap node Element).

Definition hasClass (d : document) (n : node) (c : string) : bool :=
  match d !! n with
  | Some e => contains c (classList e)
  | None => false
  end.

(** The node denotes an element of the document. *)
Definition present (d : document) (n : node) : bool :=
  bool_decide (is_Some (d !! n)).

Definition classAdd (n : node) (c : string) (d : document) : document :=
  alter (set_classList (add c)) n d.

Definition classRemove (n : node) (c : string) (d : document) : document :=
  alter (set_classList (remove c)) n d.

Definition classToggle (n : node) (c : string) (d : document)
  : document * bool :=
  (alter (set_classList (fun l => fst (toggle c l))) n d,
   match d !! n with
   | Some e => snd (toggle c (classList e))
   | None => false
   end).

Definition setAriaExpanded (n : node) (v : string) (d : document) :=
  alter (set_ariaExpanded v) n d.

Definition getAriaExpanded (d : document) (n : node) : option string :=
  match d !! n with
  | Some e => ariaExpanded e
  | None => None
  end.

End Dom.

(** ** Results of methods that may throw *)

Inductive result (A : Type) : Type :=
| Ok (a : A)
| TypeError.
Arguments Ok {A} a.
Arguments TypeError {A}.

Definition bind {A B} (r : result A) (k : A -> result B) : result B :=
  match r with
  | Ok a => k a
  | TypeError => TypeError
  end.

Notation "'let!' x ':=' r 'in' k" := (bind r (fun x => k))
  (at level 10, x name, r at level 100, k at level 200).

(** A handle returned by [requestAnimationFrame] or [setTimeout] is a
    positive integer, so a stored handle is truthy; [null] and [0] are
    falsy. *)
Definition truthy (h : option nat) : bool :=
  match h with
  | Some (S _) => true
  | _ => false
  end.

(** ** JavaScript numbers

    [-], [/], [<], [<=] and [===] on numbers are the primitive
    operations of [float]; what the source uses besides them is written
    out here. *)

Module Number.

(** [x !== x] *)
Definition isNaN (x : float) : bool := negb (PrimFloat.eqb x x).

(** [!x] for a number: [+0], [-0] and [NaN] are falsy. *)
Definition falsy (x : float) : bool := PrimFloat.eqb x 0 || isNaN x.

(** [Math.max(a, b)]: [NaN] if either is [NaN]; [+0] is larger than
    [-0]. *)
Definition Math_max (a b : float) : float :=
  if isNaN a || isNaN b then nan
  else if PrimFloat.ltb a b then b
  else if PrimFloat.ltb b a then a
  else if get_sign a then b else a.

(** [Math.min(a, b)]: [NaN] if either is [NaN]; [-0] is smaller than
    [+0]. *)
Definition Math_min (a b : float) : float :=
  if isNaN a || isNaN b then nan
  else if PrimFloat.ltb a b then a
  else if PrimFloat.ltb b a then b
  else if get_sign a then a else b.

End Number.

(** ** Rounding

    The vocabulary in which the rounding of binary64 subtraction and
    division is shown monotone: exact values are kept as fractions of
    integers, next to the mantissa and exponent that approximate
    them. *)

Module Rounding.
Open Scope Z_scope.

(** Exact values are fractions [num / den] counted in units of
    [2 ^ base]; [base] lies below every exponent that occurs. *)
Definition base : Z := -2100.

Definition pw (e : Z) : Z := 2 ^ (e - base).

(** Where the value [num / den] stands in the cell of the mantissa [m]
    at exponent [e]. *)
Definition place (num den m e : Z) : location :=
  if num =? m * pw e * den then loc_Exact
  else loc_Inexact (2 * (num - m * pw e * den) ?= pw e * den).

Record located (num den m e : Z) (l : location) : Prop := mkLocated {
  loc_base : base <= e;
  loc_den : 0 < den;
  loc_m : 0 <= m;
  loc_lower : m * pw e * den <= num;
  loc_upper : num < (m + 1) * pw e * den;
  loc_place : l = place num den m e
}.

(** The input of a rounding carries at least the precision of the
    format. *)
Definition precise (m e : Z) : Prop := e <= fexp prec emax (Zdigits2 m + e).

(** A mantissa at the exponent the format gives its magnitude. *)
Record normal_form (m e : Z) : Prop := mkNormal {
  nf_emin : -1074 <= e;
  nf_lo : 0 <= m;
  nf_hi : m < 2 ^ 53;
  nf_normal : -1074 < e -> 2 ^ 52 <= m
}.

(** What [binary_round_aux] returns for the rounded mantissa [m2] of a
    normal form at exponent [e1]. *)
Definition rounded (s : bool) (m2 e1 : Z) : spec_float :=
  if m2 =? 0 then S754_zero s
  else if m2 <? 2 ^ 53 then
    if e1 <=? 971 then S754_finite s (Z.to_pos m2) e1 else S754_infinity s
  else
    if e1 + 1 <=? 971 then S754_finite s 4503599627370496 (e1 + 1)
    else S754_infinity s.

(** The value of a finite number, counted in units of [2 ^ -1074]. *)
Definition W (x : spec_float) : Z :=
  match x with
  | S754_finite s m e => cond_Zopp s (Zpos m * 2 ^ (e + 1074))
  | _ => 0
  end.

Definition finite_or_zero (x : spec_float) : Prop :=
  match x with
  | S754_zero _ | S754_finite _ _ _ => True
  | _ => False
  end.

End Rounding.


(** ** scrollAnimations.js *)

Module AnimacionesScroll.
Import Dom Number.

Record State := mkState {
  (* the browser *)
  doc : document;
  innerHeight : float;             (* window.innerHeight *)
  clientHeight : float;            (* document.documentElement.clientHeight *)
  rafQueue : list nat;             (* scheduled animation-frame callbacks *)
  nextHandle : nat;
  (* the controller's fields *)
  claseActiva : string;
  observarUnaVez : bool;
  elementos : list node;
  observer : option (list node);   (* this.observer and the targets it observes *)
  rafId : option nat;              (* this._rafId *)
  (* ghost: how many evaluation passes have run *)
  passes : nat
}.

Definition with_doc (f : document -> document) (s : State) : State :=
  mkState (f (doc s)) (innerHeight s) (clientHeight s) (rafQueue s)
          (nextHandle s) (claseActiva s) (observarUnaVez s) (elementos s)
          (observer s) (rafId s) (passes s).

Definition with_observer (o : option (list node)) (s : State) : State :=
  mkState (doc s) (innerHeight s) (clientHeight s) (rafQueue s)
          (nextHandle s) (claseActiva s) (observarUnaVez s) (elementos s)
          o (rafId s) (passes s).

Definition with_raf (q : list nat) (h : nat) (id : option nat) (s : State)
  : State :=
  mkState (doc s) (innerHeight s) (clientHeight s) q h (claseActiva s)
          (observarUnaVez s) (elementos s) (observer s) id (passes s).

Definition count_pass (s : State) : State :=
  mkState (doc s) (innerHeight s) (clientHeight s) (rafQueue s)
          (nextHandle s) (claseActiva s) (observarUnaVez s) (elementos s)
          (observer s) (rafId s) (S (passes s)).

(** *** The observation strategy *)

Record Entry := mkEntry { target : node; isIntersecting : bool }.

(** [this.observer.unobserve(el)] *)
Definition unobserve (el : node) (s : State) : State :=
  match observer s with
  | Some obs => with_observer (Some (List.filter (fun x => negb (x =? el)%nat) obs)) s
  | None => s
  end.

(** The body of the [entries.forEach] of the observer callback. *)
Definition onEntry (s : State) (entry : Entry) : State :=
  let el := target entry in
  if isIntersecting entry then
    let s1 := with_doc (classAdd el (claseActiva s)) s in
    if observarUnaVez s1 && bool_decide (is_Some (observer s1))
    then unobserve el s1
    else s1
  else
    if negb (observarUnaVez s)
    then with_doc (classRemove el (claseActiva s)) s
    else s.

Definition observerCallback (entries : list Entry) (s : State) : State :=
  fold_left onEntry entries s.


Definition setupObserver (s : State) : State :=
  let s1 := with_observer (Some []) s in
  fold_left
    (fun s el =>
       let s := with_doc (alter (set_styleWillChange "opacity, transform") el) s in
       match observer s with
       | Some obs =>
           with_observer
             (Some (if existsb (Nat.eqb el) obs then obs else (obs ++ [el])%list)) s
       | None => s
       end)
    (elementos s1) s1.

(** *** The polling strategy *)

(** [window.innerHeight || document.documentElement.clientHeight] *)
Definition viewportHeight (s : State) : float :=
  if falsy (innerHeight s) then clientHeight s else innerHeight s.

Definition elementTop (d : document) (el : node) : float :=
  match d !! el with
  | Some e => rectTop e
  | None => 0%float
  end.

(** [elementTop <= viewportHeight / offset] *)
Definition elementInView (s : State) (d : document) (el : node)
           (offset : float) : bool :=
  PrimFloat.leb (elementTop d el) (viewportHeight s / offset)%float.

(** [elementTop > viewportHeight] *)
Definition elementOutOfView (s : State) (d : document) (el : node) : bool :=
  PrimFloat.ltb (viewportHeight s) (elementTop d el).

Definition displayScrollElement (s : State) (el : node) (d : document) :=
  classAdd el (claseActiva s) d.

Definition hideScrollElement (s : State) (el : node) (d : document) :=
  classRemove el (claseActiva s) d.

(** The body of the [elementos.forEach] of the frame callback. *)
Definition evaluate (s : State) (d : document) (el : node) : document :=
  if elementInView s d el 1.25%float then displayScrollElement s el d
  else if elementOutOfView s d el then hideScrollElement s el d
  else d.

(** The callback that [handleScroll] hands to [requestAnimationFrame]:
    one evaluation pass, then [this._rafId = null]. *)
Definition evaluationPass (s : State) : State :=
  let s1 := with_doc (fun d => fold_left (evaluate s) (elementos s) d)
                     (count_pass s) in
  with_raf (rafQueue s1) (nextHandle s1) None s1.

Definition handleScroll (s : State) : State :=
  if truthy (rafId s) then s
  else
    let id := nextHandle s in
    with_raf (rafQueue s ++ [id])%list (S id) (Some id) s.

(** The browser renders a frame: the scheduled callbacks run. *)
Definition frame (s : State) : State :=
  fold_left (fun s _ => evaluationPass s) (rafQueue s)
            (with_raf [] (nextHandle s) (rafId s) s).

(** *** Observables *)

(** The element carries the active class. *)
Definition revealed (s : State) (el : node) : bool :=
  hasClass (doc s) el (claseActiva s).

(** The observer exists and still observes the element. *)
Definition observing (s : State) (el : node) : bool :=
  match observer s with
  | Some obs => existsb (Nat.eqb el) obs
  | None => false
  end.


(** What one evaluation pass does to a tracked element. *)
Definition evaluated (s : State) (e : Element) : Element :=
  if PrimFloat.leb (rectTop e) (viewportHeight s / 1.25)%float
  then set_classList (add (claseActiva s)) e
  else if PrimFloat.ltb (viewportHeight s) (rectTop e)
       then set_classList (remove (claseActiva s)) e
       else e.

End AnimacionesScroll.

(** ** fadeEffect.js *)

Module FadeEffect.
Import Dom Number.

Record State := mkState {
  (* the browser *)
  doc : document;
  rafQueue : list nat;             (* scheduled [step] callbacks *)
  nextHandle : nat;
  reducedMotion : bool;            (* the prefers-reduced-motion query matches *)
  loading : bool;                  (* document.readyState === 'loading' *)
  found : option node;             (* what findElement(this.selector) returns *)
  onReady : nat;                   (* DOMContentLoaded listeners calling start() *)
  (* the controller's fields *)
  duration : float;
  rafId : option nat;
  startTime : option float;
  element : option node;
  (* ghost: how many times cleanupStyle has been called *)
  cleanups : nat
}.

Definition with_doc (f : document -> document) (s : State) : State :=
  mkState (f (doc s)) (rafQueue s) (nextHandle s) (reducedMotion s)
          (loading s) (found s) (onReady s) (duration s) (rafId s)
          (startTime s) (element s) (cleanups s).

Definition with_raf (q : list nat) (h : nat) (id : option nat) (s : State)
  : State :=
  mkState (doc s) q h (reducedMotion s) (loading s) (found s) (onReady s)
          (duration s) id (startTime s) (element s) (cleanups s).

Definition with_startTime (t : option float) (s : State) : State :=
  mkState (doc s) (rafQueue s) (nextHandle s) (reducedMotion s)
          (loading s) (found s) (onReady s) (duration s) (rafId s)
          t (element s) (cleanups s).

Definition with_element (el : option node) (s : State) : State :=
  mkState (doc s) (rafQueue s) (nextHandle s) (reducedMotion s)
          (loading s) (found s) (onReady s) (duration s) (rafId s)
          (startTime s) el (cleanups s).

Definition with_onReady (k : nat) (s : State) : State :=
  mkState (doc s) (rafQueue s) (nextHandle s) (reducedMotion s)
          (loading s) (found s) k (duration s) (rafId s)
          (startTime s) (element s) (cleanups s).

Definition count_cleanup (s : State) : State :=
  mkState (doc s) (rafQueue s) (nextHandle s) (reducedMotion s)
          (loading s) (found s) (onReady s) (duration s) (rafId s)
          (startTime s) (element s) (S (cleanups s)).

(** [this.rafId = window.requestAnimationFrame(step)] *)
Definition requestStep (s : State) : State :=
  let id := nextHandle s in
  with_raf (rafQueue s ++ [id])%list (S id) (Some id) s.

Definition cleanupStyle (s : State) : State :=
  let s := count_cleanup s in
  match element s with
  | None => s
  | Some el =>
      with_doc (fun d => alter (set_styleOpacity 1%float)
                           el (alter (set_styleWillChange "") el d)) s
  end.

(** [!this.startTime]: [null], the zeros and [NaN] are falsy. *)
Definition noStartTime (s : State) : bool :=
  match startTime s with
  | None => true
  | Some t => falsy t
  end.

(** [this.startTime] read as a number ([null] counts as 0). *)
Definition startTimeValue (s : State) : float :=
  match startTime s with
  | Some t => t
  | None => 0%float
  end.

(** [Math.min(1, elapsed / Math.max(1, this.duration))] *)
Definition progressOf (elapsed : float) (s : State) : float :=
  Math_min 1 (elapsed / Math_max 1 (duration s))%float.

(** The closure [step] of [start]. *)
Definition step (timestamp : float) (s : State) : result State :=
  let s := if noStartTime s then with_startTime (Some timestamp) s else s in
  let elapsed := (timestamp - startTimeValue s)%float in
  let progress := progressOf elapsed s in
  match element s with
  | None => TypeError
  | Some el =>
      let s := with_doc (alter (set_styleOpacity progress) el) s in
      if PrimFloat.ltb progress 1 then Ok (requestStep s)
      else Ok (cleanupStyle s)
  end.

Definition start (s : State) : State :=
  let s := with_element (found s) s in
  match element s with
  | None => s
  | Some el =>
      let s := with_doc (fun d => alter (set_styleWillChange "opacity")
                                    el (alter (set_styleOpacity 0%float) el d)) s in
      let s := with_startTime None s in
      requestStep s
  end.

Definition init (s : State) : State :=
  if reducedMotion s then
    match found s with
    | Some el => with_doc (alter (set_styleOpacity 1%float) el) s
    | None => s
    end
  else if loading s then with_onReady (S (onReady s)) s
  else start s.

(** The browser a controller is constructed in. *)
Record Browser := mkBrowser {
  bDoc : document;
  bReducedMotion : bool;
  bLoading : bool;
  bFound : option node
}.

(** [new FadeEffect({ duration, autoInit })] *)
Definition constructor (b : Browser) (duration : float) (autoInit : bool)
  : State :=
  let s := mkState (bDoc b) [] 1 (bReducedMotion b) (bLoading b) (bFound b) 0
                   (Math_max 0 duration) None None None 0 in
  if autoInit then init s else s.

(** The browser renders a frame at [timestamp]: the callbacks scheduled
    so far run, in order. *)
Definition frame (timestamp : float) (s : State) : result State :=
  fold_left (fun r _ => let! s := r in step timestamp s) (rafQueue s)
            (Ok (with_raf [] (nextHandle s) (rafId s) s)).

(** A run of the frame loop over successive frame timestamps. *)
Definition frames (ts : list float) (s : State) : result State :=
  fold_left (fun r t => let! s := r in frame t s) ts (Ok s).

Definition destroy (s : State) : State :=
  let s :=
    if truthy (rafId s) then
      match rafId s with
      | Some id =>
          with_raf (List.filter (fun x => negb (x =? id)%nat) (rafQueue s))
                   (nextHandle s) None s
      | None => s
      end
    else s in
  with_element None (with_startTime None s).

(** *** Observables *)

(** [this.element.style.opacity] *)
Definition opacityOf (s : State) : option float :=
  match element s with
  | Some el =>
      match doc s !! el with
      | Some e => styleOpacity e
      | None => None
      end
  | None => None
  end.

(** [this.element.style.willChange] *)
Definition willChangeOf (s : State) : option string :=
  match element s with
  | Some el =>
      match doc s !! el with
      | Some e => Some (styleWillChange e)
      | None => None
      end
  | None => None
  end.

(** The fade has settled: the element is fully opaque, the style hint
    is cleared, cleanup ran once and no frame is scheduled. *)
Definition Settled (s : State) : Prop :=
  opacityOf s = Some 1%float /\ willChangeOf s = Some "" /\
  cleanups s = 1%nat /\ rafQueue s = [].

(** The fade is under way: one frame is scheduled and cleanup has not
    run. *)
Definition Animating (s : State) : Prop :=
  (exists id, rafQueue s = [id]) /\ cleanups s = 0%nat.

(** The fade is under way since the frame at [t0], with the clamped
    duration [dur], on element [el]. *)
Definition AnimatingSince (el : node) (dur t0 : float) (s : State) : Prop :=
  element s = Some el /\ is_Some (doc s !! el) /\
  duration s = dur /\ startTime s = Some t0 /\ Animating s.

(** What every run of the frame loop preserves. *)
Definition Consistent (el : node) (dur : float) (s : State) : Prop :=
  element s = Some el /\ is_Some (doc s !! el) /\ duration s = dur /\
  (Animating s \/ (rafQueue s = [] /\ cleanups s = 1%nat)).

(** A browser in which construction starts the animation on [el]. *)
Definition ready (b : Browser) (el : node) : Prop :=
  bReducedMotion b = false /\ bLoading b = false /\
  bFound b = Some el /\ is_Some (bDoc b !! el).

(** The one pending frame is the one recorded in [rafId], and handles
    are positive. *)
Definition Tracked (s : State) : Prop :=
  (0 < nextHandle s)%nat /\
  (forall id, rafQueue s = [id] -> rafId s = Some id /\ (0 < id)%nat).

End FadeEffect.

(** ** navbar.js *)

Module BarraNavegacion.
Import Dom.

(** *** Function objects and listeners *)

Inductive target :=
| TElement (n : node)
| TDocument
| TWindow.

Definition target_eqb (a b : target) : bool :=
  match a, b with
  | TElement n, TElement m => (n =? m)%nat
  | TDocument, TDocument => true
  | TWindow, TWindow => true
  | _, _ => false
  end.

(** What a function object created by the controller does. *)
Inductive code :=
| BoundOnBurgerClick
| BoundOnBurgerKeyDown
| BoundOnDocumentClick
| BoundOnWindowScroll
| BoundOnLangMenuClick
| BoundOnLangMenuKeyDown
| NavItemHandler (item : node)   (* (e) => this.onNavItemClick(e, item) *)
| NavItemKeydown (item : node)   (* the anonymous keydown arrow of a nav item *)
| LangItemHandler (item : node)  (* (e) => this.onLangItemClick(e, item) *)
| LangItemKeydown (item : node). (* the anonymous keydown arrow of a language item *)

(** A function object: its identity and its code.  [bind] and every
    arrow expression allocate a new one. *)
Record fn := mkFn { fnId : nat; fnCode : code }.

Record Listener := mkListener {
  lTarget : target;
  lType : string;
  lFn : fn
}.

Definition sameListener (t : target) (ty : string) (f : fn) (l : Listener)
  : bool :=
  target_eqb t (lTarget l) && String.eqb ty (lType l)
  && (fnId f =? fnId (lFn l))%nat.

(** [this._handlers] *)
Record Handlers := mkHandlers {
  onBurgerClickH : option fn;
  onBurgerKeyDownH : option fn;
  onDocClickH : option fn;
  onNavItemClickH : option fn;
  onLangMenuClickH : option fn;
  onLangMenuKeyDownH : option fn;
  onLangItemClickH : option fn;
  onWindowScrollH : option fn
}.

Definition noHandlers : Handlers :=
  mkHandlers None None None None None None None None.

(** *** The browser *)

Record Browser := mkBrowser {
  doc : document;
  listeners : list Listener;
  timers : list (nat * Z);         (* pending timeouts: handle and due time *)
  rafQueue : list nat;             (* scheduled animation-frame callbacks *)
  nextHandle : nat;                (* next timer, frame or function identity *)
  now : Z;                         (* the clock, in milliseconds *)
  navClickHandler : gmap node fn;  (* the property item._navClickHandler *)
  langClickHandler : gmap node fn  (* the property item._langClickHandler *)
}.

(** What the selectors of the controller match in the page. *)
Record Page := mkPage {
  qHeader : option node;
  qBurger : option node;
  qNavItems : list node;
  qNav : option node;
  qLangMenu : option node;
  qLangItems : list node;
  qLangList : option node
}.

(** *** The controller *)

Record Refs := mkRefs {
  header : option node;
  burger : option node;
  navItems : option (list node);   (* null, a NodeList or an array *)
  nav : option node;
  langMenu : option node;
  langItems : option (list node);
  langList : option node
}.

Record This := mkThis {
  refs : Refs;
  permiteClickReciente : bool;
  clickTimeout : option nat;
  rafScroll : option nat;
  handlers : Handlers
}.

Record State := mkState { browser : Browser; this : This }.

Definition with_doc (f : document -> document) (s : State) : State :=
  let b := browser s in
  mkState (mkBrowser (f (doc b)) (listeners b) (timers b) (rafQueue b)
                     (nextHandle b) (now b) (navClickHandler b)
                     (langClickHandler b))
          (this s).

Definition with_listeners (f : list Listener -> list Listener) (s : State) :=
  let b := browser s in
  mkState (mkBrowser (doc b) (f (listeners b)) (timers b) (rafQueue b)
                     (nextHandle b) (now b) (navClickHandler b)
                     (langClickHandler b))
          (this s).

Definition with_timers (f : list (nat * Z) -> list (nat * Z)) (s : State) :=
  let b := browser s in
  mkState (mkBrowser (doc b) (listeners b) (f (timers b)) (rafQueue b)
                     (nextHandle b) (now b) (navClickHandler b)
                     (langClickHandler b))
          (this s).

Definition with_rafQueue (f : list nat -> list nat) (s : State) :=
  let b := browser s in
  mkState (mkBrowser (doc b) (listeners b) (timers b) (f (rafQueue b))
                     (nextHandle b) (now b) (navClickHandler b)
                     (langClickHandler b))
          (this s).

Definition with_nextHandle (h : nat) (s : State) :=
  let b := browser s in
  mkState (mkBrowser (doc b) (listeners b) (timers b) (rafQueue b)
                     h (now b) (navClickHandler b) (langClickHandler b))
          (this s).

Definition with_now (t : Z) (s : State) :=
  let b := browser s in
  mkState (mkBrowser (doc b) (listeners b) (timers b) (rafQueue b)
                     (nextHandle b) t (navClickHandler b)
                     (langClickHandler b))
          (this s).

Definition with_navClickHandler (f : gmap node fn -> gmap node fn) (s : State) :=
  let b := browser s in
  mkState (mkBrowser (doc b) (listeners b) (timers b) (rafQueue b)
                     (nextHandle b) (now b) (f (navClickHandler b))
                     (langClickHandler b))
          (this s).

Definition with_langClickHandler (f : gmap node fn -> gmap node fn) (s : State) :=
  let b := browser s in
  mkState (mkBrowser (doc b) (listeners b) (timers b) (rafQueue b)
                     (nextHandle b) (now b) (navClickHandler b)
                     (f (langClickHandler b)))
          (this s).

Definition with_refs (r : Refs) (s : State) :=
  let t := this s in
  mkState (browser s)
          (mkThis r (permiteClickReciente t) (clickTimeout t) (rafScroll t)
                  (handlers t)).

Definition with_permite (p : bool) (s : State) :=
  let t := this s in
  mkState (browser s)
          (mkThis (refs t) p (clickTimeout t) (rafScroll t) (handlers t)).

Definition with_clickTimeout (c : option nat) (s : State) :=
  let t := this s in
  mkState (browser s)
          (mkThis (refs t) (permiteClickReciente t) c (rafScroll t)
                  (handlers t)).

Definition with_rafScroll (r : option nat) (s : State) :=
  let t := this s in
  mkState (browser s)
          (mkThis (refs t) (permiteClickReciente t) (clickTimeout t) r
                  (handlers t)).

Definition with_handlers (h : Handlers) (s : State) :=
  let t := this s in
  mkState (browser s)
          (mkThis (refs t) (permiteClickReciente t) (clickTimeout t)
                  (rafScroll t) h).

(** *** Browser primitives *)

(** A new function object with the given code. *)
Definition newFn (c : code) (s : State) : fn * State :=
  let id := nextHandle (browser s) in
  (mkFn id c, with_nextHandle (S id) s).

(** Adding a listener already present is ignored. *)
Definition addEventListener (t : target) (ty : string) (f : fn) (s : State)
  : State :=
  if existsb (sameListener t ty f) (listeners (browser s)) then s
  else with_listeners (fun l => (l ++ [mkListener t ty f])%list) s.

(** Removing with a [null] or [undefined] callback does nothing. *)
Definition removeEventListener (t : target) (ty : string) (f : option fn)
           (s : State) : State :=
  match f with
  | Some f =>
      with_listeners (List.filter (fun l => negb (sameListener t ty f l))) s
  | None => s
  end.

Definition setTimeout (delay : Z) (s : State) : nat * State :=
  let id := nextHandle (browser s) in
  (id, with_nextHandle (S id)
         (with_timers (fun l => (l ++ [(id, now (browser s) + delay)%Z])%list) s)).

Definition clearTimeout (id : nat) (s : State) : State :=
  with_timers (List.filter (fun p => negb (fst p =? id)%nat)) s.

Definition requestAnimationFrame (s : State) : nat * State :=
  let id := nextHandle (browser s) in
  (id, with_nextHandle (S id) (with_rafQueue (fun q => (q ++ [id])%list) s)).

Definition cancelAnimationFrame (id : nat) (s : State) : State :=
  with_rafQueue (List.filter (fun x => negb (x =? id)%nat)) s.

(** *** Methods *)

Definition deref {A} (o : option A) : result A :=
  match o with
  | Some a => Ok a
  | None => TypeError
  end.

Definition toggleMenuElements (s : State) : result State :=
  let r := refs (this s) in
  let! b := deref (burger r) in
  let burgerActive :=
    snd (classToggle b "header__nav-burguer--active" (doc (browser s))) in
  let s := with_doc (fun d => fst (classToggle b "header__nav-burguer--active" d)) s in
  let! n := deref (nav r) in
  let s := with_doc (fun d => fst (classToggle n "header__nav--active" d)) s in
  let! h := deref (header r) in
  let s := with_doc (fun d => fst (classToggle h "header--active" d)) s in
  Ok (with_doc (setAriaExpanded b (if burgerActive then "true" else "false")) s).

Definition closeLangMenu (s : State) : State :=
  let r := refs (this s) in
  match langMenu r with
  | None => s
  | Some m =>
      let s := match langList r with
               | Some l => with_doc (classRemove l "header__nav-langlist--active") s
               | None => s
               end in
      let s := with_doc (classRemove m "header__nav-langmenu--active") s in
      with_doc (setAriaExpanded m "false") s
  end.

Definition toggleLangMenu (s : State) : State :=
  let r := refs (this s) in
  match langMenu r with
  | None => s
  | Some m =>
      let s := match langList r with
               | Some l =>
                   with_doc (fun d => fst (classToggle l "header__nav-langlist--active" d)) s
               | None => s
               end in
      let expanded :=
        snd (classToggle m "header__nav-langmenu--active" (doc (browser s))) in
      let s := with_doc (fun d => fst (classToggle m "header__nav-langmenu--active" d)) s in
      with_doc (setAriaExpanded m (if expanded then "true" else "false")) s
  end.

Definition deactivateAllNavItems (s : State) : result State :=
  let! items := deref (navItems (refs (this s))) in
  Ok (with_doc
        (fun d => fold_left (fun d item => classRemove item "item--active" d) items d)
        s).

Definition onBurgerClick (s : State) : result State :=
  let! s := toggleMenuElements s in
  Ok (closeLangMenu s).

(** What a handler reads of the event it receives. *)
Record Event := mkEvent {
  key : string;          (* e.key *)
  inLangList : bool;     (* this.langList.contains(e.target) *)
  isLangMenu : bool;     (* e.target === this.langMenu *)
  inLangMenu : bool      (* this.langMenu.contains(e.target) *)
}.

Definition activationKey (e : Event) : bool :=
  String.eqb (key e) "Enter" || String.eqb (key e) " ".

Definition onBurgerKeyDown (e : Event) (s : State) : result State :=
  if activationKey e then onBurgerClick s else Ok s.

Definition onLangMenuClick (e : Event) (s : State) : State :=
  toggleLangMenu s.

Definition onLangMenuKeyDown (e : Event) (s : State) : State :=
  if activationKey e then onLangMenuClick e s else s.

Definition onDocumentClick (e : Event) (s : State) : State :=
  let r := refs (this s) in
  match langList r, langMenu r with
  | Some l, Some m =>
      if hasClass (doc (browser s)) l "header__nav-langlist--active" then
        let clickedOutside :=
          negb (inLangList e) && negb (isLangMenu e) && negb (inLangMenu e) in
        if clickedOutside then closeLangMenu s else s
      else s
  | _, _ => s
  end.

Definition onNavItemClick (item : node) (s : State) : result State :=
  let s := with_permite true s in
  let s := if truthy (clickTimeout (this s)) then
             match clickTimeout (this s) with
             | Some id => clearTimeout id s
             | None => s
             end
           else s in
  let! s := toggleMenuElements s in
  let! s := deactivateAllNavItems s in
  let s := with_doc (fun d => fst (classToggle item "item--active" d)) s in
  let (id, s) := setTimeout 800 s in
  Ok (with_clickTimeout (Some id) s).

(** The callback of the timeout set by [onNavItemClick]. *)
Definition clickTimeoutCallback (s : State) : State :=
  with_permite false s.

Definition onLangItemClick (item : node) (s : State) : State :=
  toggleLangMenu s.

Definition onWindowScroll (s : State) : State :=
  if truthy (rafScroll (this s)) then s
  else
    let (id, s) := requestAnimationFrame s in
    with_rafScroll (Some id) s.

(** The callback that [onWindowScroll] hands to [requestAnimationFrame]. *)
Definition scrollFrameCallback (s : State) : result State :=
  let! s := if negb (permiteClickReciente (this s))
            then deactivateAllNavItems s
            else Ok s in
  Ok (with_rafScroll None s).

(** Calling a function object of the controller. *)
Definition invoke (c : code) (e : Event) (s : State) : result State :=
  match c with
  | BoundOnBurgerClick => onBurgerClick s
  | BoundOnBurgerKeyDown => onBurgerKeyDown e s
  | BoundOnDocumentClick => Ok (onDocumentClick e s)
  | BoundOnWindowScroll => Ok (onWindowScroll s)
  | BoundOnLangMenuClick => Ok (onLangMenuClick e s)
  | BoundOnLangMenuKeyDown => Ok (onLangMenuKeyDown e s)
  | NavItemHandler item => onNavItemClick item s
  | NavItemKeydown item =>
      if activationKey e then onNavItemClick item s else Ok s
  | LangItemHandler item => Ok (onLangItemClick item s)
  | LangItemKeydown item =>
      if activationKey e then Ok (onLangItemClick item s) else Ok s
  end.

Definition setupNavItem (s : State) (item : node) : State :=
  let (handler, s) := newFn (NavItemHandler item) s in
  let s := addEventListener (TElement item) "click" handler s in
  let (keydown, s) := newFn (NavItemKeydown item) s in
  let s := addEventListener (TElement item) "keydown" keydown s in
  with_navClickHandler (insert item handler) s.

Definition setupLangItem (s : State) (item : node) : State :=
  let (handler, s) := newFn (LangItemHandler item) s in
  let s := addEventListener (TElement item) "click" handler s in
  let (keydown, s) := newFn (LangItemKeydown item) s in
  let s := addEventListener (TElement item) "keydown" keydown s in
  with_langClickHandler (insert item handler) s.

Definition setupEventListeners (s : State) : result State :=
  let (fBurgerClick, s) := newFn BoundOnBurgerClick s in
  let (fBurgerKeyDown, s) := newFn BoundOnBurgerKeyDown s in
  let (fDocClick, s) := newFn BoundOnDocumentClick s in
  let (fWindowScroll, s) := newFn BoundOnWindowScroll s in
  let (fLangMenuClick, s) := newFn BoundOnLangMenuClick s in
  let (fLangMenuKeyDown, s) := newFn BoundOnLangMenuKeyDown s in
  let h := handlers (this s) in
  let s := with_handlers
             (mkHandlers (Some fBurgerClick) (Some fBurgerKeyDown)
                         (Some fDocClick) (onNavItemClickH h)
                         (Some fLangMenuClick) (Some fLangMenuKeyDown)
                         (onLangItemClickH h) (Some fWindowScroll)) s in
  let r := refs (this s) in
  let! b := deref (burger r) in
  let s := addEventListener (TElement b) "click" fBurgerClick s in
  let s := addEventListener (TElement b) "keydown" fBurgerKeyDown s in
  let s := match langMenu r with
           | Some m =>
               addEventListener (TElement m) "keydown" fLangMenuKeyDown
                 (addEventListener (TElement m) "click" fLangMenuClick s)
           | None => s
           end in
  let s := addEventListener TDocument "click" fDocClick s in
  let! items := deref (navItems r) in
  let s := fold_left setupNavItem items s in
  let! litems := deref (langItems r) in
  let s := fold_left setupLangItem litems s in
  Ok (addEventListener TWindow "scroll" fWindowScroll s).

Definition init (page : Page) (s : State) : result State :=
  let s := with_refs
             (mkRefs (qHeader page) (qBurger page) (Some (qNavItems page))
                     (qNav page) (qLangMenu page) (Some (qLangItems page))
                     (qLangList page)) s in
  let r := refs (this s) in
  match burger r, nav r, header r with
  | Some b, Some _, Some _ =>
      if (length (qNavItems page) =? 0)%nat then Ok s
      else
        let s := with_doc (setAriaExpanded b "false") s in
        let s := match langMenu r with
                 | Some m => with_doc (setAriaExpanded m "false") s
                 | None => s
                 end in
        setupEventListeners s
  | _, _, _ => Ok s
  end.

(** [new BarraNavegacion({ autoInit })] in browser [b], on a page whose
    selector matches are [page]. *)
Definition constructor (b : Browser) (page : Page) (autoInit : bool)
  : result State :=
  let s := mkState b (mkThis (mkRefs None None None None None None None)
                             false None None noHandlers) in
  if autoInit then init page s else Ok s.

Definition destroyNavItem (s : State) (item : node) : State :=
  match navClickHandler (browser s) !! item with
  | Some f =>
      with_navClickHandler (delete item)
        (removeEventListener (TElement item) "click" (Some f) s)
  | None => s
  end.

Definition destroyLangItem (s : State) (item : node) : State :=
  match langClickHandler (browser s) !! item with
  | Some f =>
      with_langClickHandler (delete item)
        (removeEventListener (TElement item) "click" (Some f) s)
  | None => s
  end.

Definition destroy (s : State) : result State :=
  let r := refs (this s) in
  let h := handlers (this s) in
  let s := match burger r with
           | Some b =>
               removeEventListener (TElement b) "keydown" (onBurgerKeyDownH h)
                 (removeEventListener (TElement b) "click" (onBurgerClickH h) s)
           | None => s
           end in
  let s := match langMenu r with
           | Some m =>
               removeEventListener (TElement m) "keydown" (onLangMenuKeyDownH h)
                 (removeEventListener (TElement m) "click" (onLangMenuClickH h) s)
           | None => s
           end in
  let s := removeEventListener TDocument "click" (onDocClickH h) s in
  let s := removeEventListener TWindow "scroll" (onWindowScrollH h) s in
  let! items := deref (navItems r) in
  let s := fold_left destroyNavItem items s in
  let! litems := deref (langItems r) in
  let s := fold_left destroyLangItem litems s in
  let s := if truthy (clickTimeout (this s)) then
             match clickTimeout (this s) with
             | Some id => clearTimeout id s
             | None => s
             end
           else s in
  let s := if truthy (rafScroll (this s)) then
             match rafScroll (this s) with
             | Some id => cancelAnimationFrame id s
             | None => s
             end
           else s in
  let s := with_refs (mkRefs None None (Some []) None None (Some []) None) s in
  Ok (with_handlers noHandlers s).

(** *** The event loop *)

(** The clock reaches [t]: the timeouts that are due run and leave the
    timer list. *)
Definition advance (t : Z) (s : State) : State :=
  let s := with_now (Z.max (now (browser s)) t) s in
  let due := List.filter (fun p => (snd p <=? now (browser s))%Z) (timers (browser s)) in
  let s := with_timers (List.filter (fun p => negb (snd p <=? now (browser s))%Z)) s in
  fold_left (fun s _ => clickTimeoutCallback s) due s.

(** The browser renders a frame: the scheduled callbacks run. *)
Definition runFrame (s : State) : result State :=
  fold_left (fun r _ => let! s := r in scrollFrameCallback s)
            (rafQueue (browser s))
            (Ok (with_rafQueue (fun _ => []) s)).

Inductive Occurrence :=
| NavItemActivated (item : node)   (* a nav item is clicked *)
| WindowScrolled                   (* the window fires a scroll event *)
| FrameRendered.                   (* the animation-frame callbacks run *)

(** One turn of the event loop at time [t]. *)
Definition turn (s : State) (ev : Z * Occurrence) : result State :=
  let s := advance (fst ev) s in
  match snd ev with
  | NavItemActivated item => onNavItemClick item s
  | WindowScrolled => Ok (onWindowScroll s)
  | FrameRendered => runFrame s
  end.

Definition turns (evs : list (Z * Occurrence)) (s : State) : result State :=
  fold_left (fun r ev => let! s := r in turn s ev) evs (Ok s).

(** *** Observables *)

(** The controller holds its three required elements and its nav items. *)
Definition Initialized (s : State) (b n h : node) (items : list node) : Prop :=
  burger (refs (this s)) = Some b /\ nav (refs (this s)) = Some n /\
  header (refs (this s)) = Some h /\ navItems (refs (this s)) = Some items.

(** The nav item carries the active class. *)
Definition activeItem (s : State) (item : node) : bool :=
  hasClass (doc (browser s)) item "item--active".

(** What [toggleMenuElements] does to the document when the burger, the
    nav container and the header are [b], [n] and [h]. *)
Definition menuToggled (b n h : node) (d : document) : document :=
  setAriaExpanded b
    (if snd (classToggle b "header__nav-burguer--active" d)
     then "true" else "false")
    (fst (classToggle h "header--active"
       (fst (classToggle n "header__nav--active"
          (fst (classToggle b "header__nav-burguer--active" d)))))).

(** What [closeLangMenu] does to the document when the language menu and
    the language list are [lm] and [ll]. *)
Definition langClosed (lm ll : option node) (d : document) : document :=
  match lm with
  | None => d
  | Some m =>
      setAriaExpanded m "false"
        (classRemove m "header__nav-langmenu--active"
           (match ll with
            | Some l => classRemove l "header__nav-langlist--active" d
            | None => d
            end))
  end.

(** The scheduler state the controller maintains: handles are positive,
    the only pending timeout is the one recorded in [clickTimeout], and a
    recorded scroll frame is still in the queue. *)
Definition WellTimed (s : State) : Prop :=
  (0 < nextHandle (browser s))%nat /\
  (forall id, clickTimeout (this s) = Some id -> (0 < id)%nat) /\
  (forall p, In p (timers (browser s)) -> clickTimeout (this s) = Some (fst p)) /\
  (truthy (rafScroll (this s)) = true -> rafQueue (browser s) <> []).

(** What the controller keeps true of the scheduler: at most one timeout
    is pending and it is the recorded one; at most one frame callback is
    pending and it is the recorded one. *)
Definition Tidy (s : State) : Prop :=
  (0 < nextHandle (browser s))%nat /\
  (forall id, clickTimeout (this s) = Some id -> (0 < id)%nat) /\
  (timers (browser s) = [] \/
   exists id due, timers (browser s) = [(id, due)] /\
                  clickTimeout (this s) = Some id /\ (0 < id)%nat) /\
  ((rafQueue (browser s) = [] /\ truthy (rafScroll (this s)) = false) \/
   exists id, rafQueue (browser s) = [id] /\
              rafScroll (this s) = Some id /\ (0 < id)%nat).

(** [s'] differs from [s] at most in the listener table, the stored
    handlers and the function identities handed out. *)
Definition onlyListeners (s' s : State) : Prop :=
  refs (this s') = refs (this s) /\
  permiteClickReciente (this s') = permiteClickReciente (this s) /\
  clickTimeout (this s') = clickTimeout (this s) /\
  rafScroll (this s') = rafScroll (this s) /\
  doc (browser s') = doc (browser s) /\
  timers (browser s') = timers (browser s) /\
  rafQueue (browser s') = rafQueue (browser s) /\
  now (browser s') = now (browser s) /\
  (nextHandle (browser s) <= nextHandle (browser s'))%nat.

End BarraNavegacion.

(** ** scrollAnimations.js: construction, teardown and refresh *)

Module ScrollLifecycle.
Import Dom AnimacionesScroll.

(** The controller together with what only its lifecycle touches: the
    bound scroll handler and the listeners on [window]. *)
Record Controller := mkController {
  core : State;
  scrollHandler : option nat;             (* this._scrollHandler, a function identity *)
  windowListeners : list (string * nat)   (* event type and function identity *)
}.

(** What [init] finds in the page. *)
Record Page := mkPage {
  reducedMotion : bool;          (* the prefers-reduced-motion query matches *)
  intersectionObserver : bool;   (* 'IntersectionObserver' in window *)
  matched : list node            (* findElements(this.selector) *)
}.

Definition with_core (f : State -> State) (c : Controller) : Controller :=
  mkController (f (core c)) (scrollHandler c) (windowListeners c).

Definition with_elementos (l : list node) (s : State) : State :=
  mkState (doc s) (innerHeight s) (clientHeight s) (rafQueue s)
          (nextHandle s) (claseActiva s) (observarUnaVez s) l
          (observer s) (rafId s) (passes s).

Definition sameWindowListener (ty : string) (h : nat) (l : string * nat)
  : bool :=
  String.eqb ty (fst l) && (h =? snd l)%nat.

Definition addWindowListener (ty : string) (h : nat) (c : Controller)
  : Controller :=
  if existsb (sameWindowListener ty h) (windowListeners c) then c
  else mkController (core c) (scrollHandler c)
                    (windowListeners c ++ [(ty, h)])%list.

Definition removeWindowListener (ty : string) (h : nat) (c : Controller)
  : Controller :=
  mkController (core c) (scrollHandler c)
    (List.filter (fun l => negb (sameWindowListener ty h l))
                 (windowListeners c)).

(** [this._scrollHandler = this.handleScroll.bind(this)] and the two
    listeners. *)
Definition setupFallback (c : Controller) : Controller :=
  let h := nextHandle (core c) in
  let c := mkController
             (with_raf (rafQueue (core c)) (S h) (rafId (core c)) (core c))
             (Some h) (windowListeners c) in
  addWindowListener "resize" h (addWindowListener "scroll" h c).

Definition init (page : Page) (c : Controller) : Controller :=
  let c := with_core (with_elementos (matched page)) c in
  if reducedMotion page then
    with_core
      (fun s => with_doc
                  (fun d => fold_left (fun d el => classAdd el (claseActiva s) d)
                                      (elementos s) d) s) c
  else
    let c := if intersectionObserver page
             then with_core setupObserver c
             else setupFallback c in
    if negb (intersectionObserver page) then with_core handleScroll c else c.

(** [new AnimacionesScroll({ claseActiva, observarUnaVez, autoInit })] *)
Definition constructor (d : document) (ih ch : float) (clase : string)
           (once autoInit : bool) (page : Page) : Controller :=
  let c := mkController (mkState d ih ch [] 1 clase once [] None None 0)
                        None [] in
  if autoInit then init page c else c.

Definition destroy (c : Controller) : Controller :=
  let c := match observer (core c) with
           | Some _ => with_core (with_observer None) c
           | None => c
           end in
  let c := match scrollHandler c with
           | Some h =>
               let c := removeWindowListener "resize" h
                          (removeWindowListener "scroll" h c) in
               mkController (core c) None (windowListeners c)
           | None => c
           end in
  let c := if truthy (rafId (core c)) then
             match rafId (core c) with
             | Some id =>
                 with_core
                   (fun s => with_raf
                               (List.filter (fun x => negb (x =? id)%nat)
                                            (rafQueue s))
                               (nextHandle s) None s) c
             | None => c
             end
           else c in
  let c := with_core
             (fun s => with_doc
                         (fun d => fold_left
                                     (fun d el => alter (set_styleWillChange "") el d)
                                     (elementos s) d) s) c in
  with_core (with_elementos []) c.

Definition refresh (page : Page) (c : Controller) : Controller :=
  init page (with_core (with_elementos (matched page)) (destroy c)).

(** The window fires an event of type [ty]: the listeners of that type
    run; each is the bound [handleScroll]. *)
Definition windowEvent (ty : string) (c : Controller) : Controller :=
  fold_left (fun c _ => with_core handleScroll c)
            (List.filter (fun l => String.eqb ty (fst l)) (windowListeners c))
            c.

(** The element carries the performance hint set by [setupObserver]. *)
Definition hinted (d : document) (el : node) : bool :=
  match d !! el with
  | Some e => String.eqb (styleWillChange e) "opacity, transform"
  | None => false
  end.

End ScrollLifecycle.

(** ** Sample pages *)

Module Samples.
Import Dom.

Definition plain (top : float) : Element := mkElement [] None None "" top.

(** A loaded page whose body is node 7, with motion allowed. *)
Definition fadeBrowser : FadeEffect.Browser :=
  FadeEffect.mkBrowser {[ 7%nat := plain 0 ]} false false (Some 7%nat).

(** Three tracked elements in a viewport 800 high: one well inside, one
    in the band between 640 and 800, one below the fold.  All three
    carry the active class. *)
Definition scrollDoc : document :=
  {[ 1%nat := mkElement ["js-scroll"; "scrolled"] None None "" 100;
     2%nat := mkElement ["js-scroll"; "scrolled"] None None "" 700;
     3%nat := mkElement ["js-scroll"; "scrolled"] None None "" 900 ]}.

(** The polling strategy on that page. *)
Definition pollingState : AnimacionesScroll.State :=
  AnimacionesScroll.mkState scrollDoc 800 800 [] 1 "scrolled" true
                            [1; 2; 3]%nat None None 0.


(** A viewport 667 high, with one tracked element whose top is the
    double nearest to 533.6.  The quotient [667 / 1.25] rounds up to
    that same double, so the element is in view. *)
Definition narrowDoc : document :=
  {[ 1%nat := mkElement ["js-scroll"] None None "" 533.6 ]}.

Definition narrowState : AnimacionesScroll.State :=
  AnimacionesScroll.mkState narrowDoc 667 667 [] 1 "scrolled" true
                            [1]%nat None None 0.

(** A page with a header (10), a burger button (11), a nav list (12),
    three nav items (20, 21, 22), a language menu (30) with its list (31)
    and two language items (32, 33). *)
Definition navDoc : document :=
  {[ 10%nat := plain 0; 11%nat := plain 0; 12%nat := plain 0;
     20%nat := plain 0; 21%nat := plain 0; 22%nat := plain 0;
     30%nat := plain 0; 31%nat := plain 0; 32%nat := plain 0;
     33%nat := plain 0 ]}.

Definition navBrowser : BarraNavegacion.Browser :=
  BarraNavegacion.mkBrowser navDoc [] [] [] 1 0 ∅ ∅.

Definition navPage : BarraNavegacion.Page :=
  BarraNavegacion.mkPage (Some 10%nat) (Some 11%nat) [20; 21; 22]%nat
                         (Some 12%nat) (Some 30%nat) [32; 33]%nat
                         (Some 31%nat).

(** The controller after construction on that page. *)
Definition navState : BarraNavegacion.State :=
  match BarraNavegacion.constructor navBrowser navPage true with
  | Ok s => s
  | TypeError =>
      BarraNavegacion.mkState navBrowser
        (BarraNavegacion.mkThis
           (BarraNavegacion.mkRefs None None None None None None None)
           false None None BarraNavegacion.noHandlers)
  end.

End Samples.

(** * Properties *)

(** ** Token lists and documents *)

Section DomFacts.
Import Dom.

Lemma contains_app c l1 l2 :
  contains c (l1 ++ l2) = contains c l1 || contains c l2.
Proof. unfold contains. apply existsb_app. Qed.

Lemma contains_single c c' :
  contains c [c'] = String.eqb c c'.
Proof. simpl. apply orb_false_r. Qed.

Lemma contains_add_same c l : contains c (add c l) = true.
Proof.
  unfold add. destruct (contains c l) eqn:H; [exact H|].
  rewrite contains_app, contains_single, String.eqb_refl.
  apply orb_true_r.
Qed.

Lemma contains_add_other c c' l :
  c <> c' -> contains c' (add c l) = contains c' l.
Proof.
  intros Hne. unfold add. destruct (contains c l); [reflexivity|].
  rewrite contains_app, contains_single.
  destruct (String.eqb_spec c' c) as [->|_]; [congruence|].
  apply orb_false_r.
Qed.

Lemma contains_add_mono c c' l :
  contains c' l = true -> contains c' (add c l) = true.
Proof.
  intros H. unfold add. destruct (contains c l); [exact H|].
  rewrite contains_app, H. reflexivity.
Qed.

Lemma contains_remove_same c l : contains c (remove c l) = false.
Proof.
  induction l as [|x l IH]; [reflexivity|].
  simpl. destruct (String.eqb_spec c x) as [->|Hne]; simpl; [exact IH|].
  destruct (String.eqb_spec c x); [contradiction|]. exact IH.
Qed.

Lemma contains_remove_other c c' l :
  c <> c' -> contains c' (remove c l) = contains c' l.
Proof.
  intros Hne. induction l as [|x l IH]; [reflexivity|].
  simpl. destruct (String.eqb_spec c x) as [->|Hx]; simpl.
  - destruct (String.eqb_spec c' x) as [->|_]; [congruence|exact IH].
  - rewrite IH. reflexivity.
Qed.

Lemma remove_absent c l : contains c l = false -> remove c l = l.
Proof.
  induction l as [|x l IH]; [reflexivity|].
  simpl. destruct (String.eqb_spec c x) as [->|Hx]; simpl; [discriminate|].
  intros H. rewrite IH by exact H. reflexivity.
Qed.

Lemma add_idem c l : add c (add c l) = add c l.
Proof.
  unfold add at 1. rewrite contains_add_same. reflexivity.
Qed.

Lemma remove_idem c l : remove c (remove c l) = remove c l.
Proof. apply remove_absent, contains_remove_same. Qed.

Lemma contains_toggle_same c l :
  contains c (fst (toggle c l)) = negb (contains c l)
  /\ snd (toggle c l) = negb (contains c l).
Proof.
  unfold toggle. destruct (contains c l) eqn:H; simpl.
  - split; [apply contains_remove_same|reflexivity].
  - rewrite contains_app, contains_single, String.eqb_refl, orb_true_r.
    split; reflexivity.
Qed.

Lemma contains_toggle_other c c' l :
  c <> c' -> contains c' (fst (toggle c l)) = contains c' l.
Proof.
  intros Hne. unfold toggle. destruct (contains c l); simpl.
  - apply contains_remove_other, Hne.
  - rewrite contains_app, contains_single.
    destruct (String.eqb_spec c' c) as [->|_]; [congruence|].
    apply orb_false_r.
Qed.

(** Class membership after the document-level operations. *)

Lemma hasClass_classAdd (d : document) n c m c' :
  hasClass (classAdd n c d) m c' =
  if decide (n = m) then
    match d !! m with
    | Some e => contains c' (add c (classList e))
    | None => false
    end
  else hasClass d m c'.
Proof.
  unfold hasClass, classAdd. rewrite lookup_alter.
  destruct (decide (n = m)) as [->|]; [|reflexivity].
  destruct (d !! m); reflexivity.
Qed.

Lemma hasClass_classRemove (d : document) n c m c' :
  hasClass (classRemove n c d) m c' =
  if decide (n = m) then
    match d !! m with
    | Some e => contains c' (remove c (classList e))
    | None => false
    end
  else hasClass d m c'.
Proof.
  unfold hasClass, classRemove. rewrite lookup_alter.
  destruct (decide (n = m)) as [->|]; [|reflexivity].
  destruct (d !! m); reflexivity.
Qed.

Lemma hasClass_classToggle (d : document) n c m c' :
  hasClass (fst (classToggle n c d)) m c' =
  if decide (n = m) then
    match d !! m with
    | Some e => contains c' (fst (toggle c (classList e)))
    | None => false
    end
  else hasClass d m c'.
Proof.
  unfold hasClass, classToggle. simpl. rewrite lookup_alter.
  destruct (decide (n = m)) as [->|]; [|reflexivity].
  destruct (d !! m); reflexivity.
Qed.

Lemma hasClass_setAriaExpanded (d : document) n v m c :
  hasClass (setAriaExpanded n v d) m c = hasClass d m c.
Proof.
  unfold hasClass, setAriaExpanded. rewrite lookup_alter.
  destruct (decide (n = m)) as [->|]; [|reflexivity].
  destruct (d !! m); reflexivity.
Qed.

Lemma hasClass_classAdd_mono (d : document) n c m c' :
  hasClass d m c' = true -> hasClass (classAdd n c d) m c' = true.
Proof.
  intros H. rewrite hasClass_classAdd.
  destruct (decide (n = m)); [|exact H].
  unfold hasClass in H. destruct (d !! m); [|discriminate].
  apply contains_add_mono, H.
Qed.

Lemma hasClass_classAdd_same (d : document) n c :
  is_Some (d !! n) -> hasClass (classAdd n c d) n c = true.
Proof.
  intros [e He]. rewrite hasClass_classAdd, decide_True by reflexivity.
  rewrite He. apply contains_add_same.
Qed.

Lemma hasClass_classRemove_same (d : document) n c :
  hasClass (classRemove n c d) n c = false.
Proof.
  rewrite hasClass_classRemove, decide_True by reflexivity.
  destruct (d !! n); [apply contains_remove_same|reflexivity].
Qed.

(** The same facts in boolean form, for composing several operations. *)

Lemma present_alter (f : Element -> Element) (d : document) n m :
  present (alter f n d) m = present d m.
Proof.
  unfold present. apply bool_decide_ext. apply lookup_alter_is_Some.
Qed.

Lemma present_classToggle (d : document) n c m :
  present (fst (classToggle n c d)) m = present d m.
Proof. apply present_alter. Qed.

Lemma present_classRemove (d : document) n c m :
  present (classRemove n c d) m = present d m.
Proof. apply present_alter. Qed.

Lemma present_classAdd (d : document) n c m :
  present (classAdd n c d) m = present d m.
Proof. apply present_alter. Qed.

Lemma present_setAriaExpanded (d : document) n v m :
  present (setAriaExpanded n v d) m = present d m.
Proof. apply present_alter. Qed.

Lemma hasClass_absent (d : document) m c :
  present d m = false -> hasClass d m c = false.
Proof.
  unfold present, hasClass. destruct (d !! m) as [e|] eqn:He; [|reflexivity].
  intros H. apply bool_decide_eq_false in H. exfalso. apply H. eauto.
Qed.

Lemma present_Some (d : document) m e : d !! m = Some e -> present d m = true.
Proof. intros H. unfold present. apply bool_decide_eq_true. eauto. Qed.

Lemma present_None (d : document) m : d !! m = None -> present d m = false.
Proof.
  intros H. unfold present. apply bool_decide_eq_false.
  rewrite H. intros [x Hx]. discriminate Hx.
Qed.

Lemma contains_toggle c c' l :
  contains c' (fst (toggle c l)) = xorb (contains c' l) (String.eqb c c').
Proof.
  destruct (String.eqb_spec c c') as [->|Hne].
  - rewrite (proj1 (contains_toggle_same c' l)).
    destruct (contains c' l); reflexivity.
  - rewrite contains_toggle_other by exact Hne. symmetry. apply xorb_false_r.
Qed.

Lemma hasClass_toggle (d : document) n c m c' :
  hasClass (fst (classToggle n c d)) m c' =
  xorb (hasClass d m c')
       (present d m && bool_decide (n = m) && String.eqb c c').
Proof.
  rewrite hasClass_classToggle. destruct (decide (n = m)) as [->|Hne].
  - rewrite bool_decide_eq_true_2 by reflexivity.
    unfold hasClass. destruct (d !! m) as [e|] eqn:He.
    + rewrite (present_Some _ _ _ He). simpl. apply contains_toggle.
    + rewrite (present_None _ _ He). reflexivity.
  - rewrite (bool_decide_eq_false_2 _ Hne), andb_false_r. simpl.
    symmetry. apply xorb_false_r.
Qed.

Lemma hasClass_remove (d : document) n c m c' :
  hasClass (classRemove n c d) m c' =
  if bool_decide (n = m) && String.eqb c c' then false else hasClass d m c'.
Proof.
  rewrite hasClass_classRemove. destruct (decide (n = m)) as [->|Hne].
  - rewrite bool_decide_eq_true_2 by reflexivity. simpl.
    unfold hasClass. destruct (d !! m) as [e|].
    + destruct (String.eqb_spec c c') as [->|Hc].
      * apply contains_remove_same.
      * apply contains_remove_other, Hc.
    + destruct (String.eqb c c'); reflexivity.
  - rewrite (bool_decide_eq_false_2 _ Hne). reflexivity.
Qed.

Lemma hasClass_fold_remove c items : forall (d : document) m c',
  hasClass (fold_left (fun d item => classRemove item c d) items d) m c' =
  if bool_decide (m ∈ items) && String.eqb c c' then false else hasClass d m c'.
Proof.
  induction items as [|a items IH]; intros d m c'.
  - cbn [fold_left]. destruct (bool_decide (m ∈ [])) eqn:H; [|reflexivity].
    apply bool_decide_eq_true in H. apply not_elem_of_nil in H.
    contradiction.
  - cbn [fold_left]. rewrite IH, hasClass_remove.
    destruct (String.eqb c c'); [|rewrite !andb_false_r; reflexivity].
    rewrite !andb_true_r.
    destruct (decide (m ∈ items)) as [Hin|Hnin].
    + rewrite (bool_decide_eq_true_2 _ Hin).
      rewrite bool_decide_eq_true_2; [reflexivity|].
      apply elem_of_cons. right. exact Hin.
    + rewrite (bool_decide_eq_false_2 _ Hnin).
      destruct (decide (a = m)) as [->|Hne].
      * rewrite bool_decide_eq_true_2 by reflexivity.
        rewrite bool_decide_eq_true_2; [reflexivity|].
        apply elem_of_cons. left. reflexivity.
      * rewrite (bool_decide_eq_false_2 _ Hne).
        rewrite bool_decide_eq_false_2; [reflexivity|].
        intros H. apply elem_of_cons in H. destruct H; congruence.
Qed.

Lemma present_fold_remove c items : forall (d : document) m,
  present (fold_left (fun d item => classRemove item c d) items d) m
  = present d m.
Proof.
  induction items as [|a items IH]; intros d m; [reflexivity|].
  cbn [fold_left]. rewrite IH. apply present_classRemove.
Qed.

(** The aria-expanded attribute after the document-level operations. *)

Lemma getAria_alter_classList (f : list string -> list string)
      (d : document) n m :
  getAriaExpanded (alter (set_classList f) n d) m = getAriaExpanded d m.
Proof.
  unfold getAriaExpanded. rewrite lookup_alter.
  destruct (decide (n = m)) as [->|]; [|reflexivity].
  destruct (d !! m); reflexivity.
Qed.

Lemma getAria_set (d : document) n v m :
  getAriaExpanded (setAriaExpanded n v d) m =
  if bool_decide (n = m) && present d m then Some v else getAriaExpanded d m.
Proof.
  unfold getAriaExpanded, setAriaExpanded. rewrite lookup_alter.
  destruct (decide (n = m)) as [->|Hne].
  - rewrite bool_decide_eq_true_2 by reflexivity. simpl.
    destruct (d !! m) as [e|] eqn:He.
    + rewrite (present_Some _ _ _ He). reflexivity.
    + rewrite (present_None _ _ He). reflexivity.
  - rewrite (bool_decide_eq_false_2 _ Hne). reflexivity.
Qed.

End DomFacts.

(** ** Binary64 arithmetic

    Facts about the operations on numbers that the controllers rely on,
    proved from the specification of the primitive operations. *)

Section Binary64.
Import Number.
Open Scope Z_scope.

Lemma SF_zero : Prim2SF 0 = S754_zero false.
Proof. reflexivity. Qed.

Lemma SF_one : Prim2SF 1 = S754_finite false 4503599627370496 (-52).
Proof. reflexivity. Qed.

Lemma bounded_spec m e :
  bounded prec emax m e = true ->
  Z.max (Zpos (digits2_pos m) + e - 53) (-1074) = e /\ e <= 971.
Proof.
  unfold bounded, canonical_mantissa, fexp, SpecFloat.emin, prec, emax.
  intros H. apply andb_true_iff in H. destruct H as [H1 H2].
  apply Z.eqb_eq in H1. apply Z.leb_le in H2. simpl in *. split; assumption.
Qed.

(** Rounding a mantissa that is already canonical leaves it alone. *)
Lemma round_canonical s m e :
  bounded prec emax m e = true ->
  binary_round_aux prec emax s (Zpos m) e loc_Exact = S754_finite s m e.
Proof.
  intros Hb. destruct (bounded_spec m e Hb) as [Hc He].
  unfold binary_round_aux, shr_fexp, fexp, SpecFloat.emin, prec, emax.
  cbn [Zdigits2 shr_record_of_loc].
  change (Z.max (Z.pos (digits2_pos m) + e - 53) (3 - 1024 - 53))
    with (Z.max (Z.pos (digits2_pos m) + e - 53) (-1074)).
  rewrite Hc, Z.sub_diag.
  cbn [shr shr_m loc_of_shr_record round_nearest_even Zdigits2
       shr_record_of_loc].
  change (Z.max (Z.pos (digits2_pos m) + e - 53) (3 - 1024 - 53))
    with (Z.max (Z.pos (digits2_pos m) + e - 53) (-1074)).
  rewrite Hc, Z.sub_diag. cbn [shr shr_m].
  change (1024 - 53) with 971.
  apply Z.leb_le in He. rewrite He. reflexivity.
Qed.

(** Rounding the double of a normal mantissa, one exponent down, gives
    the mantissa back. *)
Lemma round_doubled s m e :
  bounded prec emax m e = true ->
  Zpos (digits2_pos m) = 53 -> -1073 <= e ->
  binary_round_aux prec emax s (Zpos m~0) (e - 1) loc_Exact = S754_finite s m e.
Proof.
  intros Hb Hd Hlo. destruct (bounded_spec m e Hb) as [Hc He].
  unfold binary_round_aux, shr_fexp, fexp, SpecFloat.emin, prec, emax.
  cbn [Zdigits2 shr_record_of_loc digits2_pos].
  rewrite Pos2Z.inj_succ, Hd.
  change (3 - 1024 - 53) with (-1074).
  replace (Z.max (Z.succ 53 + (e - 1) - 53) (-1074) - (e - 1)) with 1 by lia.
  cbn [shr SpecFloat.iter_pos shr_1 orb shr_m loc_of_shr_record
       round_nearest_even Zdigits2 shr_record_of_loc].
  rewrite Hd.
  replace (e - 1 + 1) with e by lia.
  replace (Z.max (53 + e - 53) (-1074) - e) with 0 by lia.
  cbn [shr shr_m].
  change (1024 - 53) with 971.
  apply Z.leb_le in He. rewrite He. reflexivity.
Qed.

Lemma div_eucl_exact a b q : 0 < b -> a = q * b -> Z.div_eucl a b = (q, 0).
Proof.
  intros Hb ->.
  pose proof (Z.div_mul q b ltac:(lia)) as Hq.
  pose proof (Z.mod_mul q b ltac:(lia)) as Hr.
  unfold Z.div, Z.modulo in Hq, Hr.
  destruct (Z.div_eucl (q * b) b) as [q' r']. simpl in *. congruence.
Qed.

Lemma SFdiv_one x :
  valid_binary x = true ->
  SF64div x (S754_finite false 4503599627370496 (-52)) = x.
Proof.
  intros Hv.
  destruct x as [s|s| |s m e];
    [destruct s; reflexivity|destruct s; reflexivity|reflexivity|].
  simpl in Hv. destruct (bounded_spec m e Hv) as [Hc He].
  unfold SF64div, SFdiv, SFdiv_core_binary.
  cbn [Zdigits2].
  change (digits2_pos 4503599627370496) with 53%positive.
  unfold fexp, SpecFloat.emin, prec, emax. change (3 - 1024 - 53) with (-1074).
  rewrite xorb_false_r.
  destruct (Z_lt_le_dec (Zpos (digits2_pos m) + e - 53) (-1074)) as [Hsub|Hnorm].
  - (* a subnormal number *)
    assert (e = -1074) by lia. subst e.
    replace (Z.min (Z.max (Z.pos (digits2_pos m) + -1074 - (53 + -52) - 53) (-1074))
                   (-1074 - -52)) with (-1074) by lia.
    change (-1074 - -52 - -1074) with 52.
    rewrite (div_eucl_exact _ _ (Zpos m));
      [|lia|rewrite Z.shiftl_mul_pow2 by lia; reflexivity].
    change (new_location 4503599627370496 0) with loc_Exact.
    apply round_canonical, Hv.
  - assert (Hd : Zpos (digits2_pos m) = 53) by lia.
    rewrite Hd.
    destruct (Z.eq_dec e (-1074)) as [->|Hne].
    + change (Z.min (Z.max (53 + -1074 - (53 + -52) - 53) (-1074)) (-1074 - -52))
        with (-1074).
      change (-1074 - -52 - -1074) with 52.
      rewrite (div_eucl_exact _ _ (Zpos m));
        [|lia|rewrite Z.shiftl_mul_pow2 by lia; reflexivity].
      change (new_location 4503599627370496 0) with loc_Exact.
      apply round_canonical, Hv.
    + replace (Z.min (Z.max (53 + e - (53 + -52) - 53) (-1074)) (e - -52))
        with (e - 1) by lia.
      replace (e - -52 - (e - 1)) with 53 by lia.
      rewrite (div_eucl_exact _ _ (Zpos m~0));
        [|lia|rewrite Z.shiftl_mul_pow2 by lia; lia].
      change (new_location 4503599627370496 0) with loc_Exact.
      apply round_doubled; [exact Hv|exact Hd|lia].
Qed.

(** [x / 1] is [x], for every number. *)
Lemma div_one (x : float) : (x / 1)%float = x.
Proof.
  apply Prim2SF_inj. rewrite FloatAxioms.div_spec, SF_one.
  apply SFdiv_one, Prim2SF_valid.
Qed.

Lemma new_location_zero m : new_location (Zpos m) 0 = loc_Exact.
Proof.
  unfold new_location, new_location_even, new_location_odd.
  destruct (Z.even (Zpos m)); reflexivity.
Qed.

Lemma SFdiv_diag s m e :
  SF64div (S754_finite s m e) (S754_finite s m e)
  = S754_finite false 4503599627370496 (-52).
Proof.
  unfold SF64div, SFdiv, SFdiv_core_binary.
  rewrite !Z.sub_diag.
  change (Z.min (fexp prec emax 0) 0) with (-53).
  change (0 - -53) with 53.
  rewrite (div_eucl_exact _ _ (2 ^ 53));
    [|lia|rewrite Z.shiftl_mul_pow2 by lia; lia].
  rewrite new_location_zero, xorb_nilpotent. reflexivity.
Qed.

(** What [is_finite] and [falsy] say of the specification. *)
Lemma is_finite_spec (x : float) :
  is_finite x = true ->
  (exists s, Prim2SF x = S754_zero s) \/
  (exists s m e, Prim2SF x = S754_finite s m e).
Proof.
  unfold is_finite, is_nan, is_infinity.
  rewrite !FloatAxioms.eqb_spec, FloatAxioms.abs_spec.
  destruct (Prim2SF x) as [s|s| |s m e]; intros H.
  - left. eauto.
  - destruct s; discriminate H.
  - discriminate H.
  - right. eauto.
Qed.

Lemma isNaN_spec (x : float) : isNaN x = true -> Prim2SF x = S754_nan.
Proof.
  unfold isNaN. rewrite FloatAxioms.eqb_spec. unfold SFeqb.
  destruct (Prim2SF x) as [s|s| |s m e]; simpl; try reflexivity;
    try (destruct s; discriminate).
  destruct s; rewrite Z.compare_refl, Pos.compare_cont_refl; discriminate.
Qed.

(** [x - x] is [+0], for every finite number. *)
Lemma sub_diag (t : float) : is_finite t = true -> (t - t)%float = 0%float.
Proof.
  intros Hf. apply Prim2SF_inj. rewrite FloatAxioms.sub_spec, SF_zero.
  destruct (is_finite_spec t Hf) as [[s ->]|(s & m & e & ->)].
  - destruct s; reflexivity.
  - unfold SF64sub, SFsub. rewrite Z.sub_diag. reflexivity.
Qed.

(** [x / x] is 1, for every finite number other than the zeros. *)
Lemma div_diag (x : float) :
  is_finite x = true -> PrimFloat.eqb x 0 = false -> (x / x)%float = 1%float.
Proof.
  intros Hf Hz. apply Prim2SF_inj. rewrite FloatAxioms.div_spec, SF_one.
  rewrite FloatAxioms.eqb_spec, SF_zero in Hz.
  destruct (is_finite_spec x Hf) as [[s E]|(s & m & e & E)]; rewrite E in *.
  - destruct s; discriminate Hz.
  - apply SFdiv_diag.
Qed.

(** *** The order *)

Lemma SFcompare_antisym x y :
  SFcompare y x = option_map CompOpp (SFcompare x y).
Proof.
  destruct x as [s1|s1| |s1 m1 e1], y as [s2|s2| |s2 m2 e2]; simpl;
    try reflexivity; try (destruct s1, s2; reflexivity);
    try (destruct s1; reflexivity); try (destruct s2; reflexivity).
  destruct s1, s2; try reflexivity.
  - rewrite (Z.compare_antisym e1 e2).
    destruct (e1 ?= e2) eqn:He; simpl; try reflexivity.
    rewrite (Pos.compare_cont_antisym m1 m2 Eq). simpl.
    rewrite ?CompOpp_involutive. reflexivity.
  - rewrite (Z.compare_antisym e1 e2).
    destruct (e1 ?= e2) eqn:He; simpl; try reflexivity.
    rewrite (Pos.compare_cont_antisym m1 m2 Eq). simpl.
    rewrite ?CompOpp_involutive. reflexivity.
Qed.

Lemma SFcompare_Eq x y :
  SFcompare x y = Some Eq ->
  x = y \/ (exists s s', x = S754_zero s /\ y = S754_zero s').
Proof.
  destruct x as [s1|s1| |s1 m1 e1], y as [s2|s2| |s2 m2 e2]; simpl;
    try discriminate; try (destruct s1; discriminate);
    try (destruct s2; discriminate).
  - intros _. right. eauto.
  - destruct s1, s2; try discriminate; intros _; left; reflexivity.
  - destruct s1, s2; try discriminate;
      destruct (e1 ?= e2) eqn:He; try discriminate;
      apply Z.compare_eq in He; subst e2; intros H; left.
    + assert (Hm : Pos.compare_cont Eq m1 m2 = Eq).
      { destruct (Pos.compare_cont Eq m1 m2); simpl in H; congruence. }
      apply Pos.compare_eq in Hm. congruence.
    + assert (Hm : Pos.compare_cont Eq m1 m2 = Eq) by congruence.
      apply Pos.compare_eq in Hm. congruence.
Qed.

Lemma ltb_asym x y : PrimFloat.ltb x y = true -> PrimFloat.ltb y x = false.
Proof.
  rewrite !FloatAxioms.ltb_spec. unfold SFltb.
  rewrite (SFcompare_antisym (Prim2SF x) (Prim2SF y)).
  destruct (SFcompare (Prim2SF x) (Prim2SF y)) as [[]|]; simpl; congruence.
Qed.

Lemma leb_not_ltb x y : PrimFloat.leb x y = true -> PrimFloat.ltb y x = false.
Proof.
  rewrite FloatAxioms.ltb_spec, FloatAxioms.leb_spec. unfold SFltb, SFleb.
  rewrite (SFcompare_antisym (Prim2SF x) (Prim2SF y)).
  destruct (SFcompare (Prim2SF x) (Prim2SF y)) as [[]|]; simpl; congruence.
Qed.

Lemma leb_ltb_eqb x y :
  PrimFloat.leb x y = true -> PrimFloat.ltb x y = false ->
  PrimFloat.eqb x y = true.
Proof.
  rewrite FloatAxioms.ltb_spec, FloatAxioms.leb_spec, FloatAxioms.eqb_spec.
  unfold SFltb, SFleb, SFeqb.
  destruct (SFcompare (Prim2SF x) (Prim2SF y)) as [[]|]; simpl; congruence.
Qed.

Lemma leb_not_NaN x y :
  PrimFloat.leb x y = true -> isNaN x = false /\ isNaN y = false.
Proof.
  unfold isNaN. rewrite FloatAxioms.leb_spec, !FloatAxioms.eqb_spec.
  unfold SFleb, SFeqb.
  destruct (Prim2SF x) as [s1|s1| |s1 m1 e1], (Prim2SF y) as [s2|s2| |s2 m2 e2];
    simpl; try discriminate; intros _;
    repeat match goal with s : bool |- _ => destruct s end;
    rewrite ?Z.compare_refl, ?Pos.compare_cont_refl; split; reflexivity.
Qed.

Lemma ltb_not_NaN x y :
  PrimFloat.ltb x y = true -> isNaN x = false /\ isNaN y = false.
Proof.
  unfold isNaN. rewrite FloatAxioms.ltb_spec, !FloatAxioms.eqb_spec.
  unfold SFltb, SFeqb.
  destruct (Prim2SF x) as [s1|s1| |s1 m1 e1], (Prim2SF y) as [s2|s2| |s2 m2 e2];
    simpl; try discriminate; intros _;
    repeat match goal with s : bool |- _ => destruct s end;
    rewrite ?Z.compare_refl, ?Pos.compare_cont_refl; split; reflexivity.
Qed.

Lemma ltb_NaN_l x y : isNaN x = true -> PrimFloat.ltb x y = false.
Proof.
  intros H. rewrite FloatAxioms.ltb_spec, (isNaN_spec x H). reflexivity.
Qed.

Lemma eqb_sym x y : PrimFloat.eqb x y = PrimFloat.eqb y x.
Proof.
  rewrite !FloatAxioms.eqb_spec. unfold SFeqb.
  rewrite (SFcompare_antisym (Prim2SF y) (Prim2SF x)).
  destruct (SFcompare (Prim2SF y) (Prim2SF x)) as [[]|]; reflexivity.
Qed.

(** [x === y] on numbers is identity, except between the two zeros. *)
Lemma eqb_eq x y :
  PrimFloat.eqb x y = true -> PrimFloat.eqb x 0 = false -> x = y.
Proof.
  rewrite !FloatAxioms.eqb_spec, SF_zero. unfold SFeqb. intros H Hz.
  apply Prim2SF_inj.
  destruct (SFcompare (Prim2SF x) (Prim2SF y)) as [[]|] eqn:Hc; try discriminate.
  destruct (SFcompare_Eq _ _ Hc) as [E|(s & s' & E & _)]; [exact E|].
  rewrite E in Hz. discriminate Hz.
Qed.

(** A number that is at least 1 is positive: finite or [+Infinity]. *)
Lemma ge_one_spec (x : float) :
  PrimFloat.leb 1 x = true ->
  Prim2SF x = S754_infinity false \/
  (exists m e, Prim2SF x = S754_finite false m e).
Proof.
  rewrite FloatAxioms.leb_spec, SF_one. unfold SFleb.
  destruct (Prim2SF x) as [s|s| |s m e]; simpl; try discriminate.
  - destruct s; [discriminate|]. intros _. left. reflexivity.
  - destruct s; [discriminate|]. intros _. right. eauto.
Qed.

Lemma ge_one_positive (x : float) :
  PrimFloat.leb 1 x = true ->
  PrimFloat.ltb 0 x = true /\ PrimFloat.eqb x 0 = false /\ isNaN x = false.
Proof.
  intros H. destruct (leb_not_NaN _ _ H) as [_ Hn].
  rewrite FloatAxioms.ltb_spec, FloatAxioms.eqb_spec, SF_zero.
  destruct (ge_one_spec x H) as [E|(m & e & E)]; rewrite E; auto.
Qed.

(** *** [Math.max] and [Math.min] *)

Lemma Math_max_NaN a b :
  isNaN (Math_max a b) = isNaN a || isNaN b.
Proof.
  unfold Math_max.
  destruct (isNaN a) eqn:Ha; [reflexivity|].
  destruct (isNaN b) eqn:Hb; [reflexivity|]. simpl.
  destruct (PrimFloat.ltb a b); [exact Hb|].
  destruct (PrimFloat.ltb b a); [exact Ha|].
  destruct (get_sign a); assumption.
Qed.

(** The clamp of the constructor: a duration that is zero or negative
    becomes [+0]. *)
Lemma Math_max_clamp (d : float) :
  PrimFloat.leb d 0 = true -> Math_max 0 d = 0%float.
Proof.
  intros H. destruct (leb_not_NaN _ _ H) as [Hn _].
  unfold Math_max. rewrite Hn, (leb_not_ltb _ _ H).
  change (isNaN 0) with false. change (get_sign 0) with false. simpl.
  destruct (PrimFloat.ltb d 0); reflexivity.
Qed.

(** A duration of at least 1 passes the clamp and is its own divisor. *)
Lemma Math_max_kept (d : float) :
  PrimFloat.leb 1 d = true -> Math_max 0 d = d /\ Math_max 1 d = d.
Proof.
  intros H. destruct (ge_one_positive d H) as (Hp & Hz & Hn).
  unfold Math_max. rewrite Hn, Hp, (leb_not_ltb _ _ H).
  change (isNaN 0) with false. change (isNaN 1) with false.
  change (get_sign 1) with false. simpl. split; [reflexivity|].
  destruct (PrimFloat.ltb 1 d) eqn:Hlt; [reflexivity|].
  apply eqb_eq; [exact (leb_ltb_eqb _ _ H Hlt)|reflexivity].
Qed.

(** The divisor of the progress formula is positive whenever the
    duration is a number, so nothing elapsed gives progress [+0]. *)
Lemma zero_over_divisor (d : float) :
  isNaN d = false -> (0 / Math_max 1 d)%float = 0%float.
Proof.
  intros Hn. apply Prim2SF_inj. rewrite FloatAxioms.div_spec, SF_zero.
  unfold Math_max. rewrite Hn.
  change (isNaN 1) with false. change (get_sign 1) with false. simpl.
  destruct (PrimFloat.ltb 1 d) eqn:Hlt.
  - assert (H : PrimFloat.leb 1 d = true).
    { revert Hlt. rewrite FloatAxioms.ltb_spec, FloatAxioms.leb_spec.
      unfold SFltb, SFleb.
      destruct (SFcompare (Prim2SF 1) (Prim2SF d)) as [[]|]; congruence. }
    destruct (ge_one_spec d H) as [E|(m & e & E)]; rewrite E; reflexivity.
  - destruct (PrimFloat.ltb d 1); reflexivity.
Qed.

(** [Math.min(1, e) < 1] exactly when [e < 1]. *)
Lemma Math_min_below (e : float) :
  PrimFloat.ltb (Math_min 1 e) 1 = PrimFloat.ltb e 1.
Proof.
  unfold Math_min. change (isNaN 1) with false.
  change (get_sign 1) with false. simpl.
  destruct (isNaN e) eqn:Hn.
  - rewrite (ltb_NaN_l e 1 Hn). reflexivity.
  - destruct (PrimFloat.ltb 1 e) eqn:H1.
    + rewrite (ltb_asym _ _ H1). reflexivity.
    + destruct (PrimFloat.ltb e 1) eqn:H2; rewrite H2; reflexivity.
Qed.

End Binary64.

(** ** Monotone rounding

    Subtraction of a common finite number and division by a common
    divisor not below 1 preserve the order of binary64 numbers: the
    rounding to nearest is monotone. *)

Section RoundingFacts.
Import Number Rounding.
Open Scope Z_scope.

Lemma pw_pos e : base <= e -> 0 < pw e.
Proof. intros H. unfold pw. apply Z.pow_pos_nonneg; lia. Qed.

Lemma pw_succ e : base <= e -> pw (e + 1) = 2 * pw e.
Proof.
  intros H. unfold pw. replace (e + 1 - base) with (Z.succ (e - base)) by lia.
  apply Z.pow_succ_r. lia.
Qed.

Lemma pw_add e n : base <= e -> 0 <= n -> pw (e + n) = 2 ^ n * pw e.
Proof.
  intros H Hn. unfold pw. replace (e + n - base) with (n + (e - base)) by lia.
  apply Z.pow_add_r; lia.
Qed.

Lemma shr_1_located num den r e :
  located num den (shr_m r) e (loc_of_shr_record r) ->
  located num den (shr_m (shr_1 r)) (e + 1) (loc_of_shr_record (shr_1 r)).
Proof.
  intros [Hb Hd Hm Hlo Hup Hpl].
  pose proof (pw_pos e Hb) as Hp. pose proof (pw_succ e Hb) as Hs.
  assert (HP : 0 < pw e * den) by (apply Z.mul_pos_pos; assumption).
  destruct r as [m rb sb]. cbn [shr_m] in *.
  unfold place in Hpl.
  set (P := pw e * den) in *.
  replace (m * pw e * den) with (m * P) in * by (unfold P; ring).
  replace ((m + 1) * pw e * den) with (m * P + P) in * by (unfold P; ring).
  assert (Hcase : (rb || sb = false /\ num = m * P) \/
                  (rb || sb = true /\ num <> m * P)).
  { destruct (Z.eq_dec num (m * P)) as [E|E].
    - rewrite (proj2 (Z.eqb_eq _ _) E) in Hpl.
      left. split; [|exact E]. destruct rb, sb; simpl in Hpl |- *; congruence.
    - rewrite (proj2 (Z.eqb_neq _ _) E) in Hpl.
      right. split; [|exact E]. destruct rb, sb; simpl in Hpl |- *; congruence. }
  assert (Hshape : exists m' b, (b = 0 \/ b = 1) /\ m = 2 * m' + b /\ 0 <= m' /\
             shr_1 {| shr_m := m; shr_r := rb; shr_s := sb |}
             = {| shr_m := m'; shr_r := (b =? 1); shr_s := rb || sb |}).
  { destruct m as [|p|p]; [| |lia].
    - exists 0, 0. repeat split; auto; lia.
    - destruct p as [p|p|].
      + exists (Zpos p), 1. repeat split; auto; lia.
      + exists (Zpos p), 0. repeat split; auto; lia.
      + exists 0, 1. repeat split; auto; lia. }
  destruct Hshape as (m' & b & Hb01 & Hm' & Hm'0 & ->). cbn [shr_m].
  subst m.
  assert (E1 : m' * pw (e + 1) * den = 2 * (m' * P))
    by (rewrite Hs; unfold P; ring).
  assert (E2 : (m' + 1) * pw (e + 1) * den = 2 * (m' * P) + 2 * P)
    by (rewrite Hs; unfold P; ring).
  assert (E3 : pw (e + 1) * den = 2 * P) by (rewrite Hs; unfold P; ring).
  replace ((2 * m' + b) * P) with (2 * (m' * P) + b * P) in * by ring.
  set (Q := m' * P) in *.
  split; try lia; try (destruct Hb01; subst b; lia).
  unfold place. rewrite E1, E3.
  destruct Hb01 as [-> | ->]; cbn [Z.eqb loc_of_shr_record];
    destruct Hcase as [[Hrs E]|[Hrs E]]; rewrite Hrs.
  - rewrite (proj2 (Z.eqb_eq _ _)) by lia. reflexivity.
  - rewrite (proj2 (Z.eqb_neq _ _)) by lia.
    rewrite (proj2 (Z.compare_lt_iff _ _)) by lia. reflexivity.
  - rewrite (proj2 (Z.eqb_neq _ _)) by lia.
    rewrite (proj2 (Z.compare_eq_iff _ _)) by lia. reflexivity.
  - rewrite (proj2 (Z.eqb_neq _ _)) by lia.
    rewrite (proj2 (Z.compare_gt_iff _ _)) by lia. reflexivity.
Qed.

Lemma iter_shr_1_located num den p : forall r e,
  located num den (shr_m r) e (loc_of_shr_record r) ->
  located num den (shr_m (SpecFloat.iter_pos shr_1 p r)) (e + Zpos p)
          (loc_of_shr_record (SpecFloat.iter_pos shr_1 p r)).
Proof.
  induction p as [p IH|p IH|]; intros r e H; cbn [SpecFloat.iter_pos].
  - replace (e + Zpos p~1) with (e + 1 + Zpos p + Zpos p) by lia.
    apply IH, IH, shr_1_located, H.
  - replace (e + Zpos p~0) with (e + Zpos p + Zpos p) by lia.
    apply IH, IH, H.
  - apply shr_1_located, H.
Qed.

Lemma loc_of_shr_record_of_loc m l :
  loc_of_shr_record (shr_record_of_loc m l) = l /\
  shr_m (shr_record_of_loc m l) = m.
Proof. destruct l as [|[]]; split; reflexivity. Qed.

Lemma shr_located num den m e l n :
  located num den m e l ->
  located num den (shr_m (fst (shr (shr_record_of_loc m l) e n)))
          (snd (shr (shr_record_of_loc m l) e n))
          (loc_of_shr_record (fst (shr (shr_record_of_loc m l) e n))) /\
  snd (shr (shr_record_of_loc m l) e n) = e + Z.max n 0.
Proof.
  intros H.
  destruct (loc_of_shr_record_of_loc m l) as [E1 E2].
  assert (H0 : located num den (shr_m (shr_record_of_loc m l)) e
                 (loc_of_shr_record (shr_record_of_loc m l))).
  { rewrite E1, E2. exact H. }
  destruct n as [|p|p]; cbn [shr fst snd].
  - split; [exact H0|lia].
  - split; [apply iter_shr_1_located, H0|lia].
  - split; [exact H0|lia].
Qed.

(** *** Digits *)

Lemma digits2_bounds p :
  2 ^ (Zpos (digits2_pos p) - 1) <= Zpos p < 2 ^ Zpos (digits2_pos p).
Proof.
  induction p as [p IH|p IH|]; cbn [digits2_pos].
  - rewrite Pos2Z.inj_succ.
    replace (Z.succ (Zpos (digits2_pos p)) - 1)
      with (Z.succ (Zpos (digits2_pos p) - 1)) by lia.
    rewrite !Z.pow_succ_r by lia. lia.
  - rewrite Pos2Z.inj_succ.
    replace (Z.succ (Zpos (digits2_pos p)) - 1)
      with (Z.succ (Zpos (digits2_pos p) - 1)) by lia.
    rewrite !Z.pow_succ_r by lia. lia.
  - simpl. lia.
Qed.

Lemma fexp_eq z : fexp prec emax z = Z.max (z - 53) (-1074).
Proof. reflexivity. Qed.

Lemma cell_shift P T m m1 num :
  0 < P -> 0 < T ->
  m * P <= num -> num < (m + 1) * P ->
  m1 * T * P <= num -> num < (m1 + 1) * T * P ->
  m1 * T <= m /\ m < (m1 + 1) * T.
Proof.
  intros HP HT H1 H2 H3 H4. split.
  - apply Z.lt_succ_r. apply (Z.mul_lt_mono_pos_r P); [exact HP|]. lia.
  - apply (Z.mul_lt_mono_pos_r P); [exact HP|]. lia.
Qed.

Lemma shr_fexp_normal num den m e l :
  located num den m e l -> precise m e ->
  located num den (shr_m (fst (shr_fexp prec emax m e l)))
          (snd (shr_fexp prec emax m e l))
          (loc_of_shr_record (fst (shr_fexp prec emax m e l))) /\
  normal_form (shr_m (fst (shr_fexp prec emax m e l)))
              (snd (shr_fexp prec emax m e l)).
Proof.
  intros Hloc Hpre. unfold shr_fexp.
  set (n := fexp prec emax (Zdigits2 m + e) - e).
  assert (Hn : 0 <= n) by (unfold precise in Hpre; lia).
  destruct (shr_located num den m e l n Hloc) as [H1 H2].
  split; [exact H1|].
  set (m1 := shr_m (fst (shr (shr_record_of_loc m l) e n))) in *.
  set (e1 := snd (shr (shr_record_of_loc m l) e n)) in *.
  rewrite Z.max_l in H2 by exact Hn.
  destruct Hloc as [Hb Hd Hm Hlo Hup _].
  destruct H1 as [Hb1 _ Hm1 Hlo1 Hup1 _].
  rewrite H2, (pw_add e n Hb Hn) in Hlo1, Hup1.
  pose proof (pw_pos e Hb) as Hp.
  assert (HT : 0 < 2 ^ n) by (apply Z.pow_pos_nonneg; lia).
  destruct (cell_shift (pw e * den) (2 ^ n) m m1 num) as [C1 C2];
    try lia; try (apply Z.mul_pos_pos; assumption).
  assert (He1 : e1 = fexp prec emax (Zdigits2 m + e)) by (unfold n in H2; lia).
  rewrite fexp_eq in He1.
  destruct m as [|p|p]; [| |lia].
  - (* nothing to shift *)
    cbn [Zdigits2] in *. unfold n in *. rewrite fexp_eq in *.
    assert (m1 = 0) by nia. split; lia.
  - cbn [Zdigits2] in *.
    pose proof (digits2_bounds p) as [D1 D2].
    set (d := Zpos (digits2_pos p)) in *.
    assert (Hd1 : 1 <= d) by (unfold d; lia).
    destruct (Z_lt_le_dec (d + e - 53) (-1074)) as [Hsub|Hnorm].
    + (* subnormal range *)
      assert (e1 = -1074) by lia.
      assert (Hdn : d <= 53 + n) by (unfold n; rewrite fexp_eq; lia).
      assert (Hpow : 2 ^ d <= 2 ^ 53 * 2 ^ n).
      { rewrite <- Z.pow_add_r by lia. apply Z.pow_le_mono_r; lia. }
      split; try lia.
      apply (Z.mul_lt_mono_pos_r (2 ^ n)); [exact HT|]. lia.
    + assert (Hnd : n = d - 53) by (unfold n; rewrite fexp_eq; lia).
      assert (Hpow1 : 2 ^ d = 2 ^ 53 * 2 ^ n).
      { rewrite <- Z.pow_add_r by lia. f_equal. lia. }
      assert (Hpow2 : 2 ^ (d - 1) = 2 ^ 52 * 2 ^ n).
      { rewrite <- Z.pow_add_r by lia. f_equal. lia. }
      split; try lia.
      * apply (Z.mul_lt_mono_pos_r (2 ^ n)); [exact HT|]. lia.
      * intros _. apply Z.lt_succ_r.
        apply (Z.mul_lt_mono_pos_r (2 ^ n)); [exact HT|]. lia.
Qed.

(** *** The result of a rounding *)

Lemma round_nearest_even_bounds m l :
  m <= round_nearest_even m l <= m + 1.
Proof.
  unfold round_nearest_even. destruct l as [|[]]; try lia.
  destruct (Z.even m); lia.
Qed.

Lemma digits_le_53 p : Zpos p < 2 ^ 53 -> Zpos (digits2_pos p) <= 53.
Proof.
  intros H. pose proof (digits2_bounds p) as [D1 _].
  destruct (Z_le_gt_dec (Zpos (digits2_pos p)) 53) as [|Hgt]; [assumption|].
  exfalso. assert (2 ^ 53 <= 2 ^ (Zpos (digits2_pos p) - 1))
    by (apply Z.pow_le_mono_r; lia). lia.
Qed.

Lemma digits_ge_53 p : 2 ^ 52 <= Zpos p -> 53 <= Zpos (digits2_pos p).
Proof.
  intros H. pose proof (digits2_bounds p) as [_ D2].
  destruct (Z_le_gt_dec 53 (Zpos (digits2_pos p))) as [|Hgt]; [assumption|].
  exfalso. assert (2 ^ Zpos (digits2_pos p) <= 2 ^ 52)
    by (apply Z.pow_le_mono_r; lia). lia.
Qed.

Lemma binary_round_aux_spec s m e l :
  normal_form (shr_m (fst (shr_fexp prec emax m e l)))
              (snd (shr_fexp prec emax m e l)) ->
  binary_round_aux prec emax s m e l
  = rounded s (round_nearest_even
                 (shr_m (fst (shr_fexp prec emax m e l)))
                 (loc_of_shr_record (fst (shr_fexp prec emax m e l))))
              (snd (shr_fexp prec emax m e l)).
Proof.
  unfold binary_round_aux.
  destruct (shr_fexp prec emax m e l) as [r1 e1]. cbn [fst snd].
  intros [Hemin Hlo Hhi Hnormal].
  pose proof (round_nearest_even_bounds (shr_m r1) (loc_of_shr_record r1))
    as [R1 R2].
  set (m2 := round_nearest_even (shr_m r1) (loc_of_shr_record r1)) in *.
  unfold rounded, shr_fexp. rewrite fexp_eq.
  cbn [shr_record_of_loc].
  destruct (Z.eqb_spec m2 0) as [E0|N0].
  - rewrite E0. cbn [Zdigits2].
    replace (Z.max (0 + e1 - 53) (-1074) - e1)
      with (Z.min 0 (-1074 - e1)) by lia.
    destruct (Z.min 0 (-1074 - e1)) eqn:Hmin; try lia; reflexivity.
  - destruct (Z.ltb_spec m2 (2 ^ 53)) as [Hlt|Hge].
    + destruct m2 as [|p|p]; try lia. cbn [Zdigits2].
      pose proof (digits_le_53 p Hlt) as D.
      assert (Hz : Z.max (Zpos (digits2_pos p) + e1 - 53) (-1074) - e1 = 0).
      { destruct (Z.eq_dec e1 (-1074)) as [->|Hne]; [lia|].
        assert (2 ^ 52 <= Zpos p) by (specialize (Hnormal ltac:(lia)); lia).
        pose proof (digits_ge_53 p H). lia. }
      rewrite Hz. cbn [shr shr_m Z.to_pos]. reflexivity.
    + assert (Em : m2 = 9007199254740992).
      { change (2 ^ 53) with 9007199254740992 in *. lia. }
      rewrite Em. cbn [Zdigits2].
      change (Zpos (digits2_pos 9007199254740992)) with 54.
      replace (Z.max (54 + e1 - 53) (-1074) - e1) with 1 by lia.
      cbn [shr SpecFloat.iter_pos shr_1 shr_m orb]. reflexivity.
Qed.

Lemma finite_leb m e m' e' :
  e < e' \/ (e = e' /\ (m <= m')%positive) ->
  SFleb (S754_finite false m e) (S754_finite false m' e') = true.
Proof.
  unfold SFleb, SFcompare. intros [H|[-> H]].
  - rewrite (proj2 (Z.compare_lt_iff _ _) H). reflexivity.
  - rewrite Z.compare_refl.
    change (Pos.compare_cont Eq m m') with (m ?= m')%positive.
    destruct (m ?= m')%positive eqn:C; try reflexivity.
    apply Pos.compare_gt_iff in C. lia.
Qed.

Lemma rounded_le m2 e1 m2' e1' :
  0 <= m2 <= 2 ^ 53 -> 0 <= m2' <= 2 ^ 53 ->
  (e1 = e1' /\ m2 <= m2') \/ (e1 < e1' /\ 2 ^ 52 <= m2') ->
  SFleb (rounded false m2 e1) (rounded false m2' e1') = true.
Proof.
  intros H2 H2' Hcase. unfold rounded.
  change (2 ^ 53) with 9007199254740992 in *.
  change (2 ^ 52) with 4503599627370496 in *.
  destruct (Z.eqb_spec m2 0) as [E0|N0];
    destruct (Z.eqb_spec m2' 0) as [E0'|N0'];
    destruct (Z.ltb_spec m2 9007199254740992) as [L|L];
    destruct (Z.ltb_spec m2' 9007199254740992) as [L'|L'];
    destruct (Z.leb_spec e1 971) as [B|B];
    destruct (Z.leb_spec e1' 971) as [B'|B'];
    destruct (Z.leb_spec (e1 + 1) 971) as [B1|B1];
    destruct (Z.leb_spec (e1' + 1) 971) as [B1'|B1'];
    try lia; try reflexivity;
    try (apply finite_leb; lia).
Qed.

(** Within one cell, the larger value does not round lower. *)
Lemma round_nearest_even_place num den num' den' m e :
  base <= e -> 0 < den -> 0 < den' ->
  m * pw e * den <= num -> m * pw e * den' <= num' ->
  num * den' <= num' * den ->
  round_nearest_even m (place num den m e)
  <= round_nearest_even m (place num' den' m e).
Proof.
  intros Hb Hd Hd' Hlo Hlo' Hle.
  pose proof (pw_pos e Hb) as Hp.
  unfold place.
  set (P := pw e) in *.
  set (A := m * P).
  replace (m * P * den) with (A * den) in * by (unfold A; ring).
  replace (m * P * den') with (A * den') in * by (unfold A; ring).
  assert (Hd1 : (num - A * den) * den' <= (num' - A * den') * den) by nia.
  set (u := num - A * den) in *. set (u' := num' - A * den') in *.
  assert (Hu : 0 <= u) by (unfold u; lia).
  assert (Hu' : 0 <= u') by (unfold u'; lia).
  destruct (Z.eqb_spec num' (A * den')) as [E'|N'].
  - (* the larger value is exact, so the smaller one is too *)
    assert (u' = 0) by (unfold u'; lia).
    assert (u = 0) by nia.
    rewrite (proj2 (Z.eqb_eq num (A * den))) by (unfold u in *; lia).
    reflexivity.
  - destruct (Z.eqb_spec num (A * den)) as [E|N].
    + pose proof (round_nearest_even_bounds m
                    (loc_Inexact (2 * u' ?= P * den'))).
      change (round_nearest_even m loc_Exact) with m. lia.
    + destruct (Z.compare_spec (2 * u') (P * den')) as [C'|C'|C'];
        destruct (Z.compare_spec (2 * u) (P * den)) as [C|C|C];
        cbn [round_nearest_even];
        try (destruct (Z.even m); lia); try lia; exfalso; nia.
Qed.

(** Rounding to nearest, ties to even, is monotone. *)
Lemma round_monotone num den m e l num' den' m' e' l' :
  located num den m e l -> precise m e ->
  located num' den' m' e' l' -> precise m' e' ->
  num * den' <= num' * den ->
  SFleb (binary_round_aux prec emax false m e l)
        (binary_round_aux prec emax false m' e' l') = true.
Proof.
  intros Hloc Hpre Hloc' Hpre' Hle.
  destruct (shr_fexp_normal num den m e l Hloc Hpre) as [L N].
  destruct (shr_fexp_normal num' den' m' e' l' Hloc' Hpre') as [L' N'].
  rewrite (binary_round_aux_spec false m e l N).
  rewrite (binary_round_aux_spec false m' e' l' N').
  set (m1 := shr_m (fst (shr_fexp prec emax m e l))) in *.
  set (e1 := snd (shr_fexp prec emax m e l)) in *.
  set (l1 := loc_of_shr_record (fst (shr_fexp prec emax m e l))) in *.
  set (m1' := shr_m (fst (shr_fexp prec emax m' e' l'))) in *.
  set (e1' := snd (shr_fexp prec emax m' e' l')) in *.
  set (l1' := loc_of_shr_record (fst (shr_fexp prec emax m' e' l'))) in *.
  clearbody m1 e1 l1 m1' e1' l1'.
  destruct L as [Hb Hd Hm Hlo Hup Hpl], L' as [Hb' Hd' Hm' Hlo' Hup' Hpl'].
  destruct N as [Ne Nl Nh Nn], N' as [Ne' Nl' Nh' Nn'].
  pose proof (round_nearest_even_bounds m1 l1) as [R1 R2].
  pose proof (round_nearest_even_bounds m1' l1') as [R1' R2'].
  pose proof (pw_pos e1 Hb) as Hp. pose proof (pw_pos e1' Hb') as Hp'.
  assert (Hdd : 0 < den * den') by (apply Z.mul_pos_pos; assumption).
  apply rounded_le; try lia.
  destruct (Z.lt_trichotomy e1 e1') as [Hlt|[Heq|Hgt]].
  - right. split; [exact Hlt|]. specialize (Nn' ltac:(lia)). lia.
  - left. split; [exact Heq|]. subst e1'.
    assert (Hmm : m1 <= m1').
    { apply Z.lt_succ_r.
      apply (Z.mul_lt_mono_pos_r (pw e1 * (den * den'))).
      - apply Z.mul_pos_pos; assumption.
      - replace (m1 * (pw e1 * (den * den'))) with (m1 * pw e1 * den * den')
          by ring.
        replace (Z.succ m1' * (pw e1 * (den * den')))
          with ((m1' + 1) * pw e1 * den' * den) by ring.
        nia. }
    destruct (Z.eq_dec m1 m1') as [Em|Nm]; [|lia].
    subst m1' l1 l1'.
    apply round_nearest_even_place; assumption.
  - (* the larger value cannot sit in a lower binade *)
    exfalso.
    assert (H52 : 2 ^ 52 <= m1) by (apply Nn; lia).
    assert (Hpw : pw e1 = 2 ^ (e1 - e1') * pw e1').
    { replace e1 with (e1' + (e1 - e1')) at 1 by lia.
      apply pw_add; lia. }
    assert (Hpow : 2 <= 2 ^ (e1 - e1')).
    { change 2 with (2 ^ 1) at 1. apply Z.pow_le_mono_r; lia. }
    assert (Hx : m1 * pw e1 * den * den' <= num * den') by nia.
    assert (Hx' : num' * den < (m1' + 1) * pw e1' * den' * den) by nia.
    assert (Hcmp : (m1' + 1) * pw e1' <= m1 * pw e1).
    { rewrite Hpw.
      replace (m1 * (2 ^ (e1 - e1') * pw e1'))
        with (m1 * 2 ^ (e1 - e1') * pw e1') by ring.
      apply Z.mul_le_mono_nonneg_r; [lia|].
      change (2 ^ 53) with 9007199254740992 in *.
      change (2 ^ 52) with 4503599627370496 in *. nia. }
    assert (Hfin : (m1' + 1) * pw e1' * (den' * den)
                   <= m1 * pw e1 * (den * den')).
    { replace (den * den') with (den' * den) by ring.
      apply Z.mul_le_mono_nonneg_r; lia. }
    nia.
Qed.

(** *** The value of a number *)

Lemma bounded_digits m e :
  bounded prec emax m e = true ->
  -1074 <= e <= 971 /\ Zpos m < 2 ^ 53 /\ (-1074 < e -> 2 ^ 52 <= Zpos m).
Proof.
  intros Hb. destruct (bounded_spec m e Hb) as [Hc He].
  pose proof (digits2_bounds m) as [D1 D2].
  set (d := Zpos (digits2_pos m)) in *.
  assert (Hd : d <= 53) by lia.
  split; [lia|]. split.
  - assert (2 ^ d <= 2 ^ 53) by (apply Z.pow_le_mono_r; lia). lia.
  - intros Hn. assert (d = 53) by lia.
    replace 52 with (d - 1) by lia. exact D1.
Qed.

(** On the finite numbers of one sign, a smaller exponent means a
    smaller magnitude. *)
Lemma magnitude_lt m1 e1 m2 e2 :
  bounded prec emax m1 e1 = true -> bounded prec emax m2 e2 = true ->
  e1 < e2 ->
  Zpos m1 * 2 ^ (e1 + 1074) < Zpos m2 * 2 ^ (e2 + 1074).
Proof.
  intros H1 H2 Hlt.
  destruct (bounded_digits m1 e1 H1) as (E1 & U1 & _).
  destruct (bounded_digits m2 e2 H2) as (E2 & _ & N2).
  specialize (N2 ltac:(lia)).
  assert (Hp : 0 < 2 ^ (e1 + 1074)) by (apply Z.pow_pos_nonneg; lia).
  assert (Hpow : 2 ^ (e2 + 1074) = 2 ^ (e2 - e1) * 2 ^ (e1 + 1074)).
  { rewrite <- Z.pow_add_r by lia. f_equal. lia. }
  assert (H2' : 2 <= 2 ^ (e2 - e1)).
  { change 2 with (2 ^ 1) at 1. apply Z.pow_le_mono_r; lia. }
  rewrite Hpow.
  replace (Zpos m2 * (2 ^ (e2 - e1) * 2 ^ (e1 + 1074)))
    with (Zpos m2 * 2 ^ (e2 - e1) * 2 ^ (e1 + 1074)) by ring.
  apply Z.mul_lt_mono_pos_r; [exact Hp|].
  change (2 ^ 53) with 9007199254740992 in *.
  change (2 ^ 52) with 4503599627370496 in *. nia.
Qed.

(** The order of the format is the order of the values. *)
Lemma SFleb_W x y :
  valid_binary x = true -> valid_binary y = true ->
  finite_or_zero x -> finite_or_zero y ->
  SFleb x y = true -> W x <= W y.
Proof.
  intros Vx Vy Fx Fy.
  destruct x as [sx|sx| |sx mx ex], y as [sy|sy| |sy my ey];
    try contradiction; unfold SFleb, SFcompare, W; cbn [cond_Zopp].
  - lia.
  - destruct sy; cbn [cond_Zopp]; [discriminate|]. intros _.
    assert (0 < 2 ^ (ey + 1074)).
    { apply Z.pow_pos_nonneg; [lia|].
      destruct (bounded_digits my ey Vy); lia. }
    nia.
  - destruct sx; cbn [cond_Zopp]; [|discriminate]. intros _.
    assert (0 < 2 ^ (ex + 1074)).
    { apply Z.pow_pos_nonneg; [lia|].
      destruct (bounded_digits mx ex Vx); lia. }
    nia.
  - assert (Hpx : 0 < 2 ^ (ex + 1074)).
    { apply Z.pow_pos_nonneg; [lia|].
      destruct (bounded_digits mx ex Vx); lia. }
    assert (Hpy : 0 < 2 ^ (ey + 1074)).
    { apply Z.pow_pos_nonneg; [lia|].
      destruct (bounded_digits my ey Vy); lia. }
    simpl in Vx, Vy.
    destruct sx, sy; cbn [cond_Zopp]; try discriminate.
    + destruct (Z.compare_spec ex ey) as [E|L|G]; try discriminate.
      * subst ey.
        change (Pos.compare_cont Eq mx my) with (mx ?= my)%positive.
        destruct (mx ?= my)%positive eqn:C; try discriminate; intros _.
        -- apply Pos.compare_eq in C. subst. lia.
        -- apply Pos.compare_gt_iff in C.
           assert (Zpos my < Zpos mx) by (apply Pos2Z.pos_lt_pos; exact C).
           assert (Zpos my * 2 ^ (ex + 1074) <= Zpos mx * 2 ^ (ex + 1074))
             by (apply Z.mul_le_mono_nonneg_r; lia). lia.
      * intros _. pose proof (magnitude_lt my ey mx ex Vy Vx G). lia.
    + intros _. nia.
    + destruct (Z.compare_spec ex ey) as [E|L|G]; try discriminate.
      * subst ey.
        change (Pos.compare_cont Eq mx my) with (mx ?= my)%positive.
        destruct (mx ?= my)%positive eqn:C; try discriminate; intros _.
        -- apply Pos.compare_eq in C. subst. lia.
        -- assert (Zpos mx < Zpos my) by (apply Pos2Z.pos_lt_pos; exact C).
           apply Z.mul_le_mono_nonneg_r; lia.
      * intros _. pose proof (magnitude_lt mx ex my ey Vx Vy L). lia.
Qed.

(** *** Division *)

Lemma mul_compare_pos p a b : 0 < p -> (p * a ?= p * b) = (a ?= b).
Proof.
  intros Hp. destruct (Z.compare_spec a b) as [C|C|C].
  - subst. apply Z.compare_refl.
  - apply Z.compare_lt_iff, Z.mul_lt_mono_pos_l; assumption.
  - apply Z.compare_gt_iff, Z.mul_lt_mono_pos_l; assumption.
Qed.

Lemma new_location_spec m r :
  0 < m -> 0 <= r < m ->
  new_location m r
  = if r =? 0 then loc_Exact else loc_Inexact (2 * r ?= m).
Proof.
  intros Hm Hr. unfold new_location, new_location_even, new_location_odd.
  change (IntDef.Z.even m) with (Z.even m).
  destruct (Z.even m) eqn:Hev; cbv beta; [reflexivity|].
  destruct (r =? 0); [reflexivity|].
  f_equal.
  assert (Hodd : Z.odd m = true) by (rewrite <- Z.negb_even, Hev; reflexivity).
  apply Z.odd_spec in Hodd. destruct Hodd as [k Hk].
  destruct (Z.compare_spec (2 * r + 1) m) as [C|C|C];
    destruct (Z.compare_spec (2 * r) m) as [C'|C'|C']; try reflexivity; lia.
Qed.

(** The quotient of two positive finite numbers, before rounding: its
    exact value is [m1 * 2 ^ (e1 - e2) / m2]. *)
Lemma SFdiv_core_located m1 e1 m2 e2 :
  bounded prec emax m1 e1 = true -> bounded prec emax m2 e2 = true ->
  let '(q, e', l) := SFdiv_core_binary prec emax (Zpos m1) e1 (Zpos m2) e2 in
  located (Zpos m1 * 2 ^ (e1 - e2 - base)) (Zpos m2) q e' l /\ precise q e'.
Proof.
  intros V1 V2.
  destruct (bounded_digits m1 e1 V1) as (E1 & U1 & N1).
  destruct (bounded_digits m2 e2 V2) as (E2 & U2 & N2).
  destruct (bounded_spec m1 e1 V1) as [C1 _].
  destruct (bounded_spec m2 e2 V2) as [C2 _].
  pose proof (digits2_bounds m1) as [D1 D1'].
  pose proof (digits2_bounds m2) as [D2 D2'].
  unfold SFdiv_core_binary. cbn [Zdigits2]. rewrite fexp_eq.
  set (d1 := Zpos (digits2_pos m1)) in *.
  set (d2 := Zpos (digits2_pos m2)) in *.
  set (e' := Z.min (Z.max (d1 + e1 - (d2 + e2) - 53) (-1074)) (e1 - e2)).
  set (s := e1 - e2 - e').
  assert (Hs : 0 <= s) by (unfold s, e'; lia).
  assert (Hm' : match s with
                | 0 => Zpos m1
                | Zpos _ => Z.shiftl (Zpos m1) s
                | Zneg _ => 0
                end = Zpos m1 * 2 ^ s).
  { destruct s as [|p|p] eqn:Es; [simpl; lia| |lia].
    apply Z.shiftl_mul_pow2. lia. }
  rewrite Hm'.
  assert (Hps : 0 < 2 ^ s) by (apply Z.pow_pos_nonneg; lia).
  assert (Hms : 0 < Zpos m1 * 2 ^ s) by (apply Z.mul_pos_pos; lia).
  pose proof (Z.div_eucl_eq (Zpos m1 * 2 ^ s) (Zpos m2) ltac:(lia)) as Heq.
  pose proof (Z.mod_pos_bound (Zpos m1 * 2 ^ s) (Zpos m2) ltac:(lia)) as Hr.
  pose proof (Z.div_pos (Zpos m1 * 2 ^ s) (Zpos m2) ltac:(lia) ltac:(lia)) as Hq.
  unfold Z.modulo in Hr. unfold Z.div in Hq.
  destruct (Z.div_eucl (Zpos m1 * 2 ^ s) (Zpos m2)) as [q r].
  assert (Hbase : base <= e') by (unfold e', base; lia).
  pose proof (pw_pos e' Hbase) as Hp.
  assert (Hnum : Zpos m1 * 2 ^ (e1 - e2 - base) = Zpos m1 * 2 ^ s * pw e').
  { unfold pw. rewrite <- Z.mul_assoc, <- Z.pow_add_r by lia.
    f_equal. f_equal. unfold s. lia. }
  rewrite Hnum, Heq.
  assert (Hrp : 0 <= r * pw e') by (apply Z.mul_nonneg_nonneg; lia).
  assert (Hrp' : r * pw e' < Zpos m2 * pw e')
    by (apply Z.mul_lt_mono_pos_r; lia).
  split.
  - split; try lia.
    rewrite (new_location_spec (Zpos m2) r) by lia.
    unfold place.
    replace ((Zpos m2 * q + r) * pw e' - q * pw e' * Zpos m2)
      with (pw e' * r) by ring.
    replace (2 * (pw e' * r)) with (pw e' * (2 * r)) by ring.
    replace (pw e' * Zpos m2) with (pw e' * (Zpos m2)) by ring.
    rewrite (mul_compare_pos _ _ _ Hp).
    destruct (Z.eqb_spec r 0) as [E|N].
    + rewrite (proj2 (Z.eqb_eq _ _)) by (subst r; ring). reflexivity.
    + rewrite (proj2 (Z.eqb_neq _ _)); [reflexivity|].
      replace ((Zpos m2 * q + r) * pw e')
        with (q * pw e' * Zpos m2 + r * pw e') by ring.
      assert (0 < r * pw e') by (apply Z.mul_pos_pos; lia). lia.
  - unfold precise. rewrite fexp_eq.
    destruct (Z_le_gt_dec e' (-1074)) as [Hle|Hgt]; [lia|].
    (* the quotient has the full precision *)
    assert (He' : e' = d1 + e1 - (d2 + e2) - 53) by (unfold e' in *; lia).
    assert (Hsd : s = 53 - d1 + d2) by (unfold s; lia).
    assert (H52 : 2 ^ 52 <= q).
    { assert (Hpow : 2 ^ (d1 - 1) * 2 ^ s = 2 ^ 52 * 2 ^ d2).
      { rewrite <- !Z.pow_add_r by lia. f_equal. lia. }
      assert (H1 : 2 ^ 52 * 2 ^ d2 <= Zpos m1 * 2 ^ s).
      { rewrite <- Hpow. apply Z.mul_le_mono_nonneg_r; lia. }
      assert (H2 : 2 ^ 52 * Zpos m2 < 2 ^ 52 * 2 ^ d2).
      { apply Z.mul_lt_mono_pos_l; [apply Z.pow_pos_nonneg; lia|lia]. }
      assert (H3 : 2 ^ 52 * Zpos m2 < (q + 1) * Zpos m2) by lia.
      apply Z.mul_lt_mono_pos_r in H3; lia. }
    destruct q as [|p|p].
    + exfalso. clear - H52. change (2 ^ 52) with 4503599627370496 in H52. lia.
    + cbn [Zdigits2]. pose proof (digits_ge_53 p H52) as H53.
      clear - H53. lia.
    + exfalso. clear - Hq. lia.
Qed.

Lemma SFleb_zero_rounded s m2 e1 :
  SFleb (S754_zero s) (rounded false m2 e1) = true.
Proof.
  unfold rounded.
  destruct (m2 =? 0); [reflexivity|].
  destruct (m2 <? 2 ^ 53);
    [destruct (e1 <=? 971)|destruct (e1 + 1 <=? 971)]; reflexivity.
Qed.

(** A rounded positive value is not below zero. *)
Lemma round_nonneg num den m e l s :
  located num den m e l -> precise m e ->
  SFleb (S754_zero s) (binary_round_aux prec emax false m e l) = true.
Proof.
  intros Hloc Hpre.
  destruct (shr_fexp_normal num den m e l Hloc Hpre) as [_ N].
  rewrite (binary_round_aux_spec false m e l N).
  apply SFleb_zero_rounded.
Qed.

Lemma SFdiv_nonneg s mx ex my ey :
  bounded prec emax mx ex = true -> bounded prec emax my ey = true ->
  SFleb (S754_zero s)
        (SF64div (S754_finite false mx ex) (S754_finite false my ey)) = true.
Proof.
  intros Vx Vy. unfold SF64div, SFdiv. cbn [xorb].
  pose proof (SFdiv_core_located mx ex my ey Vx Vy) as H.
  destruct (SFdiv_core_binary prec emax (Zpos mx) ex (Zpos my) ey)
    as [[q e'] l].
  destruct H as [Hloc Hpre]. exact (round_nonneg _ _ _ _ _ s Hloc Hpre).
Qed.

(** Division by a positive number is monotone on the positive ones. *)
Lemma SFdiv_monotone mx ex mx' ex' my ey :
  bounded prec emax mx ex = true -> bounded prec emax mx' ex' = true ->
  bounded prec emax my ey = true ->
  W (S754_finite false mx ex) <= W (S754_finite false mx' ex') ->
  SFleb (SF64div (S754_finite false mx ex) (S754_finite false my ey))
        (SF64div (S754_finite false mx' ex') (S754_finite false my ey))
  = true.
Proof.
  intros Vx Vx' Vy HW. unfold SF64div, SFdiv. cbn [xorb].
  pose proof (SFdiv_core_located mx ex my ey Vx Vy) as H.
  pose proof (SFdiv_core_located mx' ex' my ey Vx' Vy) as H'.
  destruct (SFdiv_core_binary prec emax (Zpos mx) ex (Zpos my) ey)
    as [[q e1] l].
  destruct (SFdiv_core_binary prec emax (Zpos mx') ex' (Zpos my) ey)
    as [[q' e1'] l'].
  destruct H as [Hloc Hpre], H' as [Hloc' Hpre'].
  apply (round_monotone _ _ _ _ _ _ _ _ _ _ Hloc Hpre Hloc' Hpre').
  apply Z.mul_le_mono_nonneg_r; [lia|].
  destruct (bounded_digits mx ex Vx) as (E & _ & _).
  destruct (bounded_digits mx' ex' Vx') as (E' & _ & _).
  destruct (bounded_digits my ey Vy) as (Ey & _ & _).
  unfold W in HW. cbn [cond_Zopp] in HW.
  set (c := -1074 - ey - base).
  assert (Hc : 0 <= c) by (unfold c, base; lia).
  replace (ex - ey - base) with (ex + 1074 + c) by (unfold c; lia).
  replace (ex' - ey - base) with (ex' + 1074 + c) by (unfold c; lia).
  rewrite (Z.pow_add_r 2 (ex + 1074) c), (Z.pow_add_r 2 (ex' + 1074) c)
    by lia.
  rewrite !Z.mul_assoc.
  apply Z.mul_le_mono_nonneg_r; [apply Z.pow_nonneg; lia|exact HW].
Qed.

(** *** Subtraction *)

Lemma iter_xO_value m d : Zpos (Pos.iter xO m d) = Zpos m * 2 ^ Zpos d.
Proof.
  induction d as [|d IH] using Pos.peano_ind.
  - simpl. lia.
  - rewrite Pos.iter_succ, Pos2Z.inj_xO, IH, Pos2Z.inj_succ,
      Z.pow_succ_r by lia. ring.
Qed.

Lemma iter_xO_digits m d :
  Zpos (digits2_pos (Pos.iter xO m d)) = Zpos (digits2_pos m) + Zpos d.
Proof.
  induction d as [|d IH] using Pos.peano_ind.
  - simpl. lia.
  - rewrite Pos.iter_succ. cbn [digits2_pos].
    rewrite Pos2Z.inj_succ, IH. lia.
Qed.

Lemma shl_align_spec mx ex ex' :
  snd (shl_align mx ex ex') = Z.min ex ex' /\
  Zpos (fst (shl_align mx ex ex'))
  = Zpos mx * 2 ^ (ex - snd (shl_align mx ex ex')) /\
  Zpos (digits2_pos (fst (shl_align mx ex ex'))) + snd (shl_align mx ex ex')
  = Zpos (digits2_pos mx) + ex.
Proof.
  unfold shl_align. destruct (ex' - ex) as [|d|d] eqn:Hd; cbn [fst snd].
  - split; [lia|]. rewrite Z.sub_diag. split; lia.
  - split; [lia|]. rewrite Z.sub_diag. split; lia.
  - split; [lia|]. rewrite iter_xO_value, iter_xO_digits.
    replace (ex - ex') with (Zpos d) by lia. split; lia.
Qed.

(** Rounding a positive integer mantissa at an exponent: the input of
    the rounding is located at the exact value. *)
Lemma binary_round_located (M : positive) (e : Z) :
  -1074 <= e ->
  exists m' e',
    binary_round prec emax false M e
    = binary_round_aux prec emax false (Zpos m') e' loc_Exact /\
    located (Zpos M * pw e) 1 (Zpos m') e' loc_Exact /\
    precise (Zpos m') e'.
Proof.
  intros He. unfold binary_round.
  destruct (shl_align_spec M e (fexp prec emax (Zpos (digits2_pos M) + e)))
    as (S1 & S2 & S3).
  destruct (shl_align M e (fexp prec emax (Zpos (digits2_pos M) + e)))
    as [mz ez]. cbn [fst snd] in *.
  exists mz, ez. split; [reflexivity|].
  rewrite fexp_eq in S1.
  assert (Hb : base <= ez) by (unfold base; lia).
  assert (Hnum : Zpos M * pw e = Zpos mz * pw ez).
  { rewrite S2. replace e with (ez + (e - ez)) at 1 by lia.
    rewrite (pw_add ez (e - ez)) by lia. ring. }
  split.
  - split; try lia.
    + pose proof (pw_pos ez Hb). nia.
    + unfold place. rewrite (proj2 (Z.eqb_eq _ _)) by lia. reflexivity.
  - unfold precise. cbn [Zdigits2]. rewrite S3, fexp_eq. lia.
Qed.

Lemma cond_Zopp_mul s a b : cond_Zopp s a * b = cond_Zopp s (a * b).
Proof. destruct s; simpl; ring. Qed.

Lemma aligned_value s m e ez :
  -1074 <= ez <= e ->
  cond_Zopp s (Zpos (fst (shl_align m e ez))) * 2 ^ (ez + 1074)
  = W (S754_finite s m e).
Proof.
  intros H. destruct (shl_align_spec m e ez) as (S1 & S2 & _).
  rewrite S2, S1, Z.min_r by lia.
  rewrite cond_Zopp_mul. unfold W. f_equal.
  rewrite <- Z.mul_assoc, <- Z.pow_add_r by lia. f_equal. f_equal. lia.
Qed.

(** The difference of two finite numbers: [+0] when they are equal,
    and otherwise the rounding of the exact difference. *)
Lemma SFsub_form x y :
  valid_binary x = true -> valid_binary y = true ->
  finite_or_zero x ->
  (exists sy my ey, y = S754_finite sy my ey) ->
  (W x - W y = 0 -> SF64sub x y = S754_zero false) /\
  (0 < W x - W y ->
   exists m e l,
     SF64sub x y = binary_round_aux prec emax false m e l /\
     located ((W x - W y) * 2 ^ 1026) 1 m e l /\ precise m e).
Proof.
  intros Vx Vy Fx (sy & my & ey & ->).
  simpl in Vy. destruct (bounded_digits my ey Vy) as (Ey & _ & _).
  assert (Hpy : 0 < 2 ^ (ey + 1074)) by (apply Z.pow_pos_nonneg; lia).
  assert (Hpw : forall e, -1074 <= e -> pw e = 2 ^ (e + 1074) * 2 ^ 1026).
  { intros e He. unfold pw, base. rewrite <- Z.pow_add_r by lia.
    f_equal. lia. }
  destruct x as [sx|sx| |sx mx ex]; try contradiction.
  - (* x is a zero *)
    cbn [W]. unfold SF64sub, SFsub. split.
    + intros H. exfalso. destruct sy; cbn [cond_Zopp] in H; nia.
    + intros H. assert (sy = true) by (destruct sy; cbn [cond_Zopp] in H; [reflexivity|nia]).
      subst sy. cbn [negb cond_Zopp].
      exists (Zpos my), ey, loc_Exact.
      rewrite (round_canonical false my ey Vy). split; [reflexivity|].
      assert (Hb : base <= ey) by (unfold base; lia).
      pose proof (pw_pos ey Hb) as Hp.
      assert (Hnum : (0 - - (Zpos my * 2 ^ (ey + 1074))) * 2 ^ 1026
                     = Zpos my * pw ey) by (rewrite (Hpw ey); [ring|lia]).
      rewrite Hnum. split.
      * split; try lia.
        unfold place. rewrite (proj2 (Z.eqb_eq _ _)) by lia. reflexivity.
      * unfold precise. cbn [Zdigits2].
        destruct (bounded_spec my ey Vy) as [C _]. rewrite fexp_eq. lia.
  - simpl in Vx. destruct (bounded_digits mx ex Vx) as (Ex & _ & _).
    unfold SF64sub, SFsub.
    set (ez := Z.min ex ey).
    set (M := cond_Zopp sx (Zpos (fst (shl_align mx ex ez)))
              - cond_Zopp sy (Zpos (fst (shl_align my ey ez)))).
    assert (Hez : -1074 <= ez) by (unfold ez; lia).
    assert (Hpz : 0 < 2 ^ (ez + 1074)) by (apply Z.pow_pos_nonneg; lia).
    assert (HM : M * 2 ^ (ez + 1074)
                 = W (S754_finite sx mx ex) - W (S754_finite sy my ey)).
    { unfold M. rewrite Z.mul_sub_distr_r.
      rewrite !aligned_value by (unfold ez; lia). reflexivity. }
    rewrite <- HM. clearbody M. clear HM.
    destruct M as [|p|p]; cbn [binary_normalize].
    + split; [reflexivity|]. intros H. exfalso. lia.
    + split; [intros H; exfalso; nia|]. intros _.
      destruct (binary_round_located p ez Hez) as (m' & e' & R1 & R2 & R3).
      exists (Zpos m'), e', loc_Exact. split; [exact R1|].
      split; [|exact R3].
      replace (Zpos p * 2 ^ (ez + 1074) * 2 ^ 1026) with (Zpos p * pw ez)
        by (rewrite (Hpw ez Hez); ring).
      exact R2.
    + split; intros H; exfalso; nia.
Qed.

(** Subtracting the same number is monotone, and the difference of a
    number and a smaller one is not negative. *)
Lemma SFsub_monotone x x' y :
  valid_binary x = true -> valid_binary x' = true -> valid_binary y = true ->
  finite_or_zero x -> finite_or_zero x' ->
  (exists sy my ey, y = S754_finite sy my ey) ->
  W y <= W x -> W x <= W x' ->
  SFleb (S754_zero false) (SF64sub x y) = true /\
  SFleb (SF64sub x y) (SF64sub x' y) = true.
Proof.
  intros Vx Vx' Vy Fx Fx' Fy H1 H2.
  destruct (SFsub_form x y Vx Vy Fx Fy) as [Z0 P0].
  destruct (SFsub_form x' y Vx' Vy Fx' Fy) as [Z0' P0'].
  destruct (Z.eq_dec (W x - W y) 0) as [E|N].
  - rewrite (Z0 E). split; [reflexivity|].
    destruct (Z.eq_dec (W x' - W y) 0) as [E'|N'].
    + rewrite (Z0' E'). reflexivity.
    + destruct P0' as (m' & e' & l' & R1 & R2 & R3); [lia|].
      rewrite R1. exact (round_nonneg _ _ _ _ _ false R2 R3).
  - destruct P0 as (m & e & l & R1 & R2 & R3); [lia|].
    destruct P0' as (m' & e' & l' & R1' & R2' & R3'); [lia|].
    rewrite R1, R1'. split.
    + exact (round_nonneg _ _ _ _ _ false R2 R3).
    + apply (round_monotone _ _ _ _ _ _ _ _ _ _ R2 R3 R2' R3').
      rewrite !Z.mul_1_r. apply Z.mul_le_mono_nonneg_r; [|lia].
      apply Z.pow_nonneg. lia.
Qed.

(** *** On numbers *)

Lemma finite_nonzero_spec (x : float) :
  is_finite x = true -> PrimFloat.eqb x 0 = false ->
  exists s m e, Prim2SF x = S754_finite s m e.
Proof.
  intros Hf Hz. rewrite FloatAxioms.eqb_spec, SF_zero in Hz.
  destruct (is_finite_spec x Hf) as [[s E]|H]; [|exact H].
  rewrite E in Hz. destruct s; discriminate Hz.
Qed.

Lemma finite_or_zero_spec (x : float) :
  is_finite x = true -> finite_or_zero (Prim2SF x).
Proof.
  intros Hf.
  destruct (is_finite_spec x Hf) as [[s ->]|(s & m & e & ->)]; exact I.
Qed.

(** For finite timestamps [t0 <= t <= t'], with [t0] not a zero, the
    elapsed times [t - t0] and [t' - t0] are not negative and come in
    the same order. *)
Lemma sub_monotone (t0 t t' : float) :
  is_finite t0 = true -> is_finite t = true -> is_finite t' = true ->
  PrimFloat.eqb t0 0 = false ->
  PrimFloat.leb t0 t = true -> PrimFloat.leb t t' = true ->
  PrimFloat.leb 0 (t - t0) = true /\
  PrimFloat.leb (t - t0) (t' - t0) = true.
Proof.
  intros F0 F F' Hz H1 H2.
  rewrite !FloatAxioms.leb_spec, ?FloatAxioms.sub_spec, ?SF_zero in *.
  pose proof (Prim2SF_valid t0) as V0. pose proof (Prim2SF_valid t) as V.
  pose proof (Prim2SF_valid t') as V'.
  pose proof (finite_or_zero_spec t0 F0) as Z0.
  pose proof (finite_or_zero_spec t F) as Z1.
  pose proof (finite_or_zero_spec t' F') as Z2.
  apply SFsub_monotone; try assumption.
  - apply finite_nonzero_spec; assumption.
  - apply SFleb_W; assumption.
  - apply SFleb_W; assumption.
Qed.

Lemma SFleb_refl_finite s m e :
  SFleb (S754_finite s m e) (S754_finite s m e) = true.
Proof.
  unfold SFleb, SFcompare.
  destruct s; rewrite Z.compare_refl, Pos.compare_cont_refl; reflexivity.
Qed.

(** For elapsed times [0 <= e <= e'] and a divisor of at least 1, the
    quotients, when below 1, are not negative and come in the same
    order. *)
Lemma div_monotone (e e' m : float) :
  PrimFloat.leb 0 e = true -> PrimFloat.leb e e' = true ->
  PrimFloat.leb 1 m = true ->
  PrimFloat.ltb (e / m) 1 = true -> PrimFloat.ltb (e' / m) 1 = true ->
  PrimFloat.leb 0 (e / m) = true /\
  PrimFloat.leb (e / m) (e' / m) = true.
Proof.
  intros H0 H1 Hm L L'.
  pose proof (ge_one_spec m Hm) as Sm.
  rewrite !FloatAxioms.leb_spec, ?FloatAxioms.ltb_spec,
    ?FloatAxioms.div_spec, ?SF_zero, ?SF_one in *.
  pose proof (Prim2SF_valid e) as V. pose proof (Prim2SF_valid e') as V'.
  pose proof (Prim2SF_valid m) as Vm.
  destruct Sm as [Em|(mm & em & Em)]; rewrite Em in *.
  - (* an infinite divisor *)
    destruct (Prim2SF e) as [s|s| |s mx ex], (Prim2SF e') as [s'|s'| |s' mx' ex'];
      try discriminate;
      repeat match goal with b : bool |- _ => destruct b end;
      try discriminate; split; reflexivity.
  - simpl in Vm.
    destruct (Prim2SF e) as [s|s| |s mx ex] eqn:Ee; try discriminate.
    + (* nothing elapsed *)
      destruct (Prim2SF e') as [s'|s'| |s' mx' ex'] eqn:Ee'; try discriminate.
      * destruct s, s'; split; reflexivity.
      * destruct s'; [destruct s; discriminate|].
        destruct s; discriminate.
      * destruct s'; [destruct s; discriminate|].
        simpl in V'.
        split; [destruct s; reflexivity|].
        destruct s; exact (SFdiv_nonneg _ mx' ex' mm em V' Vm).
    + destruct s; discriminate.
    + destruct s; [discriminate|]. simpl in V.
      split; [exact (SFdiv_nonneg false mx ex mm em V Vm)|].
      destruct (Prim2SF e') as [s'|s'| |s' mx' ex'] eqn:Ee'; try discriminate.
      * destruct s'; discriminate.
      * destruct s'; [discriminate|]. simpl in V'.
        apply SFdiv_monotone; try assumption.
        apply SFleb_W; try assumption; exact I.
Qed.

Lemma ltb_leb x y : PrimFloat.ltb x y = true -> PrimFloat.leb x y = true.
Proof.
  rewrite FloatAxioms.ltb_spec, FloatAxioms.leb_spec. unfold SFltb, SFleb.
  destruct (SFcompare (Prim2SF x) (Prim2SF y)) as [[]|]; congruence.
Qed.

(** Below 1, [Math.min(1, x)] is [x]. *)
Lemma Math_min_lt (x : float) :
  PrimFloat.ltb x 1 = true -> Math_min 1 x = x.
Proof.
  intros H. destruct (ltb_not_NaN _ _ H) as [Hn _].
  unfold Math_min. rewrite Hn, (ltb_asym _ _ H), H. reflexivity.
Qed.

(** When the divisor [Math.max(1, d)] is a number, it is at least 1. *)
Lemma Math_max_ge_one (d : float) :
  isNaN (Math_max 1 d) = false -> PrimFloat.leb 1 (Math_max 1 d) = true.
Proof.
  rewrite Math_max_NaN. change (isNaN 1) with false. simpl. intros Hn.
  unfold Math_max. rewrite Hn. change (isNaN 1) with false.
  change (get_sign 1) with false. simpl.
  destruct (PrimFloat.ltb 1 d) eqn:H; [apply ltb_leb, H|].
  destruct (PrimFloat.ltb d 1); reflexivity.
Qed.

Lemma div_NaN_r x y : isNaN y = true -> isNaN (x / y) = true.
Proof.
  intros H. unfold isNaN. rewrite FloatAxioms.eqb_spec, FloatAxioms.div_spec.
  rewrite (isNaN_spec y H). destruct (Prim2SF x); reflexivity.
Qed.

Lemma leb_refl (x : float) : isNaN x = false -> PrimFloat.leb x x = true.
Proof.
  unfold isNaN. rewrite FloatAxioms.eqb_spec, FloatAxioms.leb_spec.
  unfold SFeqb, SFleb.
  destruct (SFcompare (Prim2SF x) (Prim2SF x)) as [[]|]; simpl; congruence.
Qed.

Lemma is_finite_of_spec (x : float) :
  finite_or_zero (Prim2SF x) -> is_finite x = true.
Proof.
  unfold is_finite, is_nan, is_infinity.
  rewrite !FloatAxioms.eqb_spec, FloatAxioms.abs_spec.
  change (Prim2SF infinity) with (S754_infinity false).
  destruct (Prim2SF x) as [s|s| |s m e]; try contradiction; intros _.
  - reflexivity.
  - unfold SFeqb, SFcompare, SFabs.
    destruct s; rewrite Z.compare_refl, Pos.compare_cont_refl; reflexivity.
Qed.

(** A frame that computes a progress below 1 has finite timestamps. *)
Lemma running_finite (t0 t m : float) :
  PrimFloat.leb t0 t = true -> PrimFloat.leb 1 m = true ->
  PrimFloat.ltb ((t - t0) / m) 1 = true ->
  is_finite t0 = true /\ is_finite t = true.
Proof.
  intros H Hm L.
  assert (G : finite_or_zero (Prim2SF t0) /\ finite_or_zero (Prim2SF t));
    [|destruct G; split; apply is_finite_of_spec; assumption].
  pose proof (ge_one_spec m Hm) as Sm.
  rewrite FloatAxioms.leb_spec in H.
  rewrite FloatAxioms.ltb_spec, FloatAxioms.div_spec, FloatAxioms.sub_spec,
    SF_one in L.
  destruct (Prim2SF t0) as [s0|s0| |s0 m0 e0], (Prim2SF t) as [s1|s1| |s1 m1 e1];
    try (split; exact I); try discriminate; exfalso;
    destruct Sm as [Em|(mm & em & Em)]; rewrite Em in L;
    repeat match goal with b : bool |- _ => destruct b end;
    discriminate.
Qed.

(** A later frame of a running fade that computes a progress below 1 has
    a finite timestamp. *)
Lemma later_finite (t0 t t' m : float) :
  is_finite t0 = true -> is_finite t = true ->
  PrimFloat.leb t t' = true -> PrimFloat.leb 1 m = true ->
  PrimFloat.ltb ((t' - t0) / m) 1 = true ->
  is_finite t' = true.
Proof.
  intros F0 F H Hm L.
  apply is_finite_of_spec.
  pose proof (ge_one_spec m Hm) as Sm.
  apply finite_or_zero_spec in F0. apply finite_or_zero_spec in F.
  rewrite FloatAxioms.leb_spec in H.
  rewrite FloatAxioms.ltb_spec, FloatAxioms.div_spec, FloatAxioms.sub_spec,
    SF_one in L.
  destruct (Prim2SF t0) as [s0|s0| |s0 m0 e0]; try contradiction;
    destruct (Prim2SF t) as [s1|s1| |s1 m1 e1]; try contradiction;
    destruct (Prim2SF t') as [s2|s2| |s2 m2 e2];
    try exact I; try discriminate; exfalso;
    destruct Sm as [Em|(mm & em & Em)]; rewrite Em in L;
    repeat match goal with b : bool |- _ => destruct b end;
    discriminate.
Qed.

End RoundingFacts.


(** ** Scroll-reveal controller *)

Section ScrollReveal.
Import Dom Number AnimacionesScroll.

Lemma evaluated_idem s e : evaluated s (evaluated s e) = evaluated s e.
Proof.
  unfold evaluated.
  destruct (PrimFloat.leb (rectTop e) (viewportHeight s / 1.25)) eqn:Hin.
  - simpl. rewrite Hin. unfold set_classList. simpl.
    rewrite add_idem. reflexivity.
  - destruct (PrimFloat.ltb (viewportHeight s) (rectTop e)) eqn:Hout.
    + simpl. rewrite Hin, Hout. unfold set_classList. simpl.
      rewrite remove_idem. reflexivity.
    + rewrite Hin, Hout. reflexivity.
Qed.

Lemma evaluate_lookup s (d : document) el k :
  evaluate s d el !! k =
  if decide (el = k) then evaluated s <$> d !! k else d !! k.
Proof.
  unfold evaluate, elementInView, elementOutOfView, elementTop,
    displayScrollElement, hideScrollElement, classAdd, classRemove.
  destruct (decide (el = k)) as [->|Hne].
  - destruct (d !! k) as [e|] eqn:He; simpl.
    + unfold evaluated.
      destruct (PrimFloat.leb (rectTop e) (viewportHeight s / 1.25)).
      * rewrite lookup_alter_eq, He. reflexivity.
      * destruct (PrimFloat.ltb (viewportHeight s) (rectTop e)).
        -- rewrite lookup_alter_eq, He. reflexivity.
        -- exact He.
    + destruct (PrimFloat.leb 0 (viewportHeight s / 1.25));
        [rewrite lookup_alter_eq, He; reflexivity|].
      destruct (PrimFloat.ltb (viewportHeight s) 0);
        [rewrite lookup_alter_eq, He; reflexivity|exact He].
  - repeat match goal with
           | |- context [if ?b then _ else _] => destruct b
           end;
      try rewrite lookup_alter_ne by exact Hne; reflexivity.
Qed.

Lemma pass_lookup s l : forall (d : document) k e,
  d !! k = Some e ->
  fold_left (evaluate s) l d !! k =
  Some (if decide (k ∈ l) then evaluated s e else e).
Proof.
  induction l as [|a l IH]; intros d k e He.
  - cbn [fold_left]. rewrite He.
    destruct (decide (k ∈ [])) as [H|_]; [|reflexivity].
    apply not_elem_of_nil in H. contradiction.
  - cbn [fold_left].
    assert (Hd : evaluate s d a !! k =
                 Some (if decide (a = k) then evaluated s e else e)).
    { rewrite evaluate_lookup, He. destruct (decide (a = k)); reflexivity. }
    rewrite (IH _ _ _ Hd).
    destruct (decide (a = k)) as [->|Hne].
    + rewrite (decide_True (P := k ∈ k :: l))
        by (apply elem_of_cons; left; reflexivity).
      destruct (decide (k ∈ l)); [rewrite evaluated_idem|]; reflexivity.
    + destruct (decide (k ∈ l)) as [Hin|Hnin].
      * rewrite decide_True by (apply elem_of_cons; right; exact Hin). reflexivity.
      * rewrite decide_False; [reflexivity|].
        intros H. apply elem_of_cons in H. destruct H; congruence.
Qed.

(** C1. In an evaluation pass of the polling strategy, a tracked
    element whose top satisfies [top <= viewportHeight / 1.25], the
    quotient and the comparison being those of doubles, gets the active
    class; otherwise, if [top > viewportHeight], it loses the class;
    otherwise the element is left exactly as it was.  The active class
    is taken to be a token that a class list accepts. *)
Theorem polling_pass_asymmetric (s : State) (el : node) (e : Element) :
  validToken (claseActiva s) = true ->
  el ∈ elementos s ->
  doc s !! el = Some e ->
  exists e',
    doc (evaluationPass s) !! el = Some e' /\
    (PrimFloat.leb (rectTop e) (viewportHeight s / 1.25) = true ->
     contains (claseActiva s) (classList e') = true) /\
    (PrimFloat.leb (rectTop e) (viewportHeight s / 1.25) = false ->
     PrimFloat.ltb (viewportHeight s) (rectTop e) = true ->
     contains (claseActiva s) (classList e') = false) /\
    (PrimFloat.leb (rectTop e) (viewportHeight s / 1.25) = false ->
     PrimFloat.ltb (viewportHeight s) (rectTop e) = false ->
     e' = e).
Proof.
  intros _ Hin He. exists (evaluated s e). split.
  - unfold evaluationPass. simpl.
    rewrite (pass_lookup s _ _ _ _ He), decide_True by exact Hin.
    reflexivity.
  - unfold evaluated. split; [|split].
    + intros ->. simpl. apply contains_add_same.
    + intros -> ->. simpl. apply contains_remove_same.
    + intros -> ->. reflexivity.
Qed.

(** *** The observation strategy *)

Lemma onEntry_config s entry :
  observarUnaVez (onEntry s entry) = observarUnaVez s /\
  claseActiva (onEntry s entry) = claseActiva s.
Proof.
  unfold onEntry, unobserve, with_doc, with_observer. simpl.
  repeat (case_match; simpl); split; reflexivity.
Qed.









Lemma observerCallback_config entries : forall s,
  observarUnaVez (observerCallback entries s) = observarUnaVez s /\
  claseActiva (observerCallback entries s) = claseActiva s /\
  (forall el, is_Some (doc s !! el) ->
              is_Some (doc (observerCallback entries s) !! el)).
Proof.
  unfold observerCallback.
  induction entries as [|entry entries IH]; intros s; [auto|].
  simpl. destruct (IH (onEntry s entry)) as (H1 & H2 & H3).
  destruct (onEntry_config s entry) as [H4 H5].
  rewrite H1, H2, H4, H5. repeat split. intros el Hel. apply H3.
  unfold onEntry, unobserve, classAdd, classRemove.
  repeat match goal with
         | |- context [if ?b then _ else _] => destruct b; simpl
         | |- context [match observer s with _ => _ end] =>
             destruct (observer s); simpl
         end;
    try exact Hel; apply lookup_alter_is_Some, Hel.
Qed.




(** The sample is a viewport 667 high with an element at the double
    nearest to 533.6: [667 / 1.25] rounds to that double, the element is
    in view and gets the class. *)
Lemma polling_pass_witness :
  validToken (claseActiva Samples.narrowState) = true /\
  1%nat ∈ elementos Samples.narrowState /\
  doc Samples.narrowState !! 1%nat
  = Some (mkElement ["js-scroll"] None None "" 533.6) /\
  PrimFloat.leb 533.6 (viewportHeight Samples.narrowState / 1.25) = true /\
  exists e',
    doc (evaluationPass Samples.narrowState) !! 1%nat = Some e' /\
    (PrimFloat.leb 533.6 (viewportHeight Samples.narrowState / 1.25) = true ->
     contains "scrolled" (classList e') = true) /\
    (PrimFloat.leb 533.6 (viewportHeight Samples.narrowState / 1.25) = false ->
     PrimFloat.ltb (viewportHeight Samples.narrowState) 533.6 = true ->
     contains "scrolled" (classList e') = false) /\
    (PrimFloat.leb 533.6 (viewportHeight Samples.narrowState / 1.25) = false ->
     PrimFloat.ltb (viewportHeight Samples.narrowState) 533.6 = false ->
     e' = mkElement ["js-scroll"] None None "" 533.6).
Proof.
  assert (H0 : validToken (claseActiva Samples.narrowState) = true)
    by reflexivity.
  assert (H1 : 1%nat ∈ elementos Samples.narrowState)
    by (simpl; repeat constructor).
  assert (H2 : doc Samples.narrowState !! 1%nat
               = Some (mkElement ["js-scroll"] None None "" 533.6))
    by reflexivity.
  split; [exact H0|]. split; [exact H1|]. split; [exact H2|].
  split; [reflexivity|].
  exact (polling_pass_asymmetric Samples.narrowState 1 _ H0 H1 H2).
Defined.


End ScrollReveal.

(** ** Fade controller *)

Section Fade.
Import Dom Number FadeEffect.

Lemma frame_idle t s : rafQueue s = [] -> frame t s = Ok s.
Proof. destruct s. simpl. intros ->. reflexivity. Qed.

Lemma frames_idle ts s : rafQueue s = [] -> frames ts s = Ok s.
Proof.
  intros H. unfold frames. induction ts as [|t ts IH]; [reflexivity|].
  simpl. rewrite (frame_idle t s H). exact IH.
Qed.

Lemma frame_one t s id :
  rafQueue s = [id] ->
  frame t s = step t (with_raf [] (nextHandle s) (rafId s) s).
Proof. unfold frame. intros ->. reflexivity. Qed.

(** The start timestamp in force while [step t] runs. *)
Let started (t : float) (s : State) : float :=
  if noStartTime s then t else startTimeValue s.

Let progressAt (t : float) (s : State) : float :=
  Math_min 1 ((t - started t s) / Math_max 1 (duration s))%float.

Lemma step_unfinished t s el :
  element s = Some el ->
  is_Some (doc s !! el) ->
  PrimFloat.ltb (progressAt t s) 1 = true ->
  exists s',
    step t s = Ok s' /\
    element s' = Some el /\ is_Some (doc s' !! el) /\
    duration s' = duration s /\
    startTime s' = Some (started t s) /\
    rafQueue s' = (rafQueue s ++ [nextHandle s])%list /\
    cleanups s' = cleanups s /\
    opacityOf s' = Some (progressAt t s).
Proof.
  intros Hel [e He] Hp. unfold progressAt, started in *.
  destruct s as [d q h rm ld fd rdy dur rid st elm cl].
  simpl in Hel, He. subst elm.
  unfold step, progressOf, startTimeValue, noStartTime in *. simpl in *.
  destruct st as [t0|]; simpl in *.
  - destruct (falsy t0); simpl in *; rewrite Hp;
      eexists; (split; [reflexivity|]);
      unfold opacityOf; simpl; rewrite lookup_alter_eq, He; simpl;
      repeat split; eauto.
  - rewrite Hp. eexists. split; [reflexivity|].
    unfold opacityOf. simpl. rewrite lookup_alter_eq, He. simpl.
    repeat split; eauto.
Qed.

Lemma step_finished t s el :
  element s = Some el ->
  is_Some (doc s !! el) ->
  PrimFloat.ltb (progressAt t s) 1 = false ->
  exists s',
    step t s = Ok s' /\
    element s' = Some el /\ is_Some (doc s' !! el) /\
    duration s' = duration s /\
    rafQueue s' = rafQueue s /\
    cleanups s' = S (cleanups s) /\
    opacityOf s' = Some 1%float /\ willChangeOf s' = Some "".
Proof.
  intros Hel [e He] Hp. unfold progressAt, started in *.
  destruct s as [d q h rm ld fd rdy dur rid st elm cl].
  simpl in Hel, He. subst elm.
  unfold step, progressOf, startTimeValue, noStartTime in *. simpl in *.
  destruct st as [t0|]; simpl in *.
  - destruct (falsy t0); simpl in *; rewrite Hp;
      eexists; (split; [reflexivity|]);
      unfold opacityOf, willChangeOf, cleanupStyle; simpl;
      rewrite !lookup_alter_eq, He; simpl; repeat split; eauto.
  - rewrite Hp. eexists. split; [reflexivity|].
    unfold opacityOf, willChangeOf, cleanupStyle. simpl.
    rewrite !lookup_alter_eq, He. simpl. repeat split; eauto.
Qed.

(** The state in which construction leaves a browser that is ready. *)
Lemma constructor_starts b el d :
  ready b el ->
  let s := constructor b d true in
  element s = Some el /\ is_Some (doc s !! el) /\
  duration s = Math_max 0 d /\ startTime s = None /\
  rafQueue s = [1%nat] /\ cleanups s = 0%nat /\
  opacityOf s = Some 0%float.
Proof.
  intros (Hrm & Hld & Hfd & [e He]).
  unfold constructor, init, start. simpl. rewrite Hrm, Hld, Hfd. simpl.
  unfold opacityOf. simpl. rewrite !lookup_alter_eq, He. simpl.
  repeat split; eauto.
Qed.

Lemma frames_cons t ts s :
  frames (t :: ts) s = (let! s' := frame t s in frames ts s').
Proof.
  unfold frames. simpl. destruct (frame t s) as [s'|]; [reflexivity|].
  induction ts as [|u ts IH]; [reflexivity|exact IH].
Qed.

Lemma frames_app ts us s :
  frames (ts ++ us) s = (let! s' := frames ts s in frames us s').
Proof.
  revert s. induction ts as [|t ts IH]; intros s; [reflexivity|].
  simpl. rewrite !frames_cons.
  destruct (frame t s) as [s'|]; simpl; [apply IH|reflexivity].
Qed.

Lemma started_since t t0 s :
  startTime s = Some t0 -> falsy t0 = false -> started t s = t0.
Proof.
  intros Hst Hnz. unfold started, noStartTime, startTimeValue.
  rewrite Hst, Hnz. reflexivity.
Qed.

(** A frame of a running fade that computes a progress below 1. *)
Lemma frame_early el dur t0 t s :
  AnimatingSince el dur t0 s -> falsy t0 = false ->
  PrimFloat.ltb (Math_min 1 ((t - t0) / Math_max 1 dur)) 1 = true ->
  exists s', frame t s = Ok s' /\ AnimatingSince el dur t0 s' /\
             opacityOf s' = Some (Math_min 1 ((t - t0) / Math_max 1 dur)).
Proof.
  intros (Hel & Hdoc & Hdur & Hst & [id Hq] & Hcl) Hnz Hlt.
  rewrite (frame_one _ _ _ Hq).
  set (s0 := with_raf [] (nextHandle s) (rafId s) s).
  assert (Hs : started t s0 = t0) by (apply started_since; assumption).
  destruct (step_unfinished t s0 el Hel Hdoc)
    as (s' & H1 & H2 & H3 & H4 & H5 & H6 & H7 & H8).
  { unfold progressAt. rewrite Hs. subst s0. simpl. rewrite Hdur. exact Hlt. }
  exists s'. unfold progressAt in *. rewrite Hs in *. subst s0. simpl in *.
  rewrite Hdur in *.
  repeat split; eauto. congruence.
Qed.

(** A frame of a running fade that computes a progress not below 1. *)
Lemma frame_late el dur t0 t s :
  AnimatingSince el dur t0 s -> falsy t0 = false ->
  PrimFloat.ltb (Math_min 1 ((t - t0) / Math_max 1 dur)) 1 = false ->
  exists s', frame t s = Ok s' /\ Settled s'.
Proof.
  intros (Hel & Hdoc & Hdur & Hst & [id Hq] & Hcl) Hnz Hle.
  rewrite (frame_one _ _ _ Hq).
  set (s0 := with_raf [] (nextHandle s) (rafId s) s).
  assert (Hs : started t s0 = t0) by (apply started_since; assumption).
  destruct (step_finished t s0 el Hel Hdoc)
    as (s' & H1 & H2 & H3 & H4 & H5 & H6 & H7 & H8).
  { unfold progressAt. rewrite Hs. subst s0. simpl. rewrite Hdur. exact Hle. }
  exists s'. subst s0. simpl in *. unfold Settled.
  repeat split; eauto. congruence.
Qed.

(** A frame that finds no start time: it takes its own timestamp as the
    start, so nothing has elapsed and the progress is [+0]. *)
Lemma frame_first el dur t0 s :
  element s = Some el -> is_Some (doc s !! el) -> duration s = dur ->
  isNaN dur = false -> noStartTime s = true -> is_finite t0 = true ->
  Animating s ->
  exists s', frame t0 s = Ok s' /\ AnimatingSince el dur t0 s' /\
             opacityOf s' = Some 0%float.
Proof.
  intros Hel Hdoc Hdur Hn Hst Hfin ([id Hq] & Hcl).
  rewrite (frame_one _ _ _ Hq).
  set (s0 := with_raf [] (nextHandle s) (rafId s) s).
  assert (Hs : started t0 s0 = t0).
  { unfold started. subst s0. unfold noStartTime in *. simpl. rewrite Hst.
    reflexivity. }
  assert (Hp : progressAt t0 s0 = 0%float).
  { unfold progressAt. rewrite Hs, (sub_diag t0 Hfin). subst s0. simpl.
    rewrite Hdur, (zero_over_divisor dur Hn). reflexivity. }
  destruct (step_unfinished t0 s0 el Hel Hdoc)
    as (s' & H1 & H2 & H3 & H4 & H5 & H6 & H7 & H8).
  { rewrite Hp. reflexivity. }
  exists s'. rewrite Hp, Hs in *. subst s0. simpl in *.
  repeat split; eauto; congruence.
Qed.

Lemma frames_early el dur t0 ts : forall s,
  AnimatingSince el dur t0 s -> falsy t0 = false ->
  Forall (fun t => PrimFloat.ltb (Math_min 1 ((t - t0) / Math_max 1 dur)) 1
                   = true) ts ->
  exists s', frames ts s = Ok s' /\ AnimatingSince el dur t0 s'.
Proof.
  induction ts as [|t ts IH]; intros s Hs Hnz Hall.
  - exists s. split; [reflexivity|exact Hs].
  - inversion Hall as [|? ? Ht Hts]; subst.
    destruct (frame_early el dur t0 t s Hs Hnz Ht) as (s1 & H1 & H2 & _).
    destruct (IH s1 H2 Hnz Hts) as (s2 & H3 & H4).
    exists s2. rewrite frames_cons, H1. simpl. split; assumption.
Qed.

Lemma frame_consistent el dur t s :
  Consistent el dur s ->
  exists s', frame t s = Ok s' /\ Consistent el dur s'.
Proof.
  intros (Hel & Hdoc & Hdur & [([id Hq] & Hcl)|[Hq Hcl]]).
  - rewrite (frame_one _ _ _ Hq).
    set (s0 := with_raf [] (nextHandle s) (rafId s) s).
    destruct (PrimFloat.ltb (progressAt t s0) 1) eqn:Hp.
    + destruct (step_unfinished t s0 el Hel Hdoc Hp)
        as (s' & H1 & H2 & H3 & H4 & H5 & H6 & H7 & H8).
      exists s'. subst s0. simpl in *. unfold Consistent, Animating.
      repeat split; eauto; try congruence. left. split; [eauto|congruence].
    + destruct (step_finished t s0 el Hel Hdoc Hp)
        as (s' & H1 & H2 & H3 & H4 & H5 & H6 & H7 & H8).
      exists s'. subst s0. simpl in *. unfold Consistent.
      repeat split; eauto; try congruence. right. split; congruence.
  - exists s. rewrite (frame_idle t s Hq). unfold Consistent.
    repeat split; auto.
Qed.

Lemma frames_consistent el dur ts : forall s s',
  Consistent el dur s -> frames ts s = Ok s' -> Consistent el dur s'.
Proof.
  induction ts as [|t ts IH]; intros s s' Hs Hrun.
  - inversion Hrun. subst. exact Hs.
  - rewrite frames_cons in Hrun.
    destruct (frame_consistent el dur t s Hs) as (s1 & H1 & H2).
    rewrite H1 in Hrun. simpl in Hrun. exact (IH _ _ H2 Hrun).
Qed.

Lemma constructor_consistent b el d :
  ready b el -> Consistent el (Math_max 0 d) (constructor b d true).
Proof.
  intros Hb.
  destruct (constructor_starts b el d Hb) as (H1 & H2 & H3 & H4 & H5 & H6 & H7).
  unfold Consistent, Animating. repeat split; eauto.
Qed.

(** With the duration clamped to zero the divisor is 1, so the progress
    is below 1 exactly when the elapsed time is. *)
Lemma zero_duration_progress (e : float) :
  PrimFloat.ltb (Math_min 1 (e / Math_max 1 0)) 1 = PrimFloat.ltb e 1.
Proof.
  change (Math_max 1 0) with 1%float. rewrite div_one. apply Math_min_below.
Qed.

(** C4, as amended. A duration that is zero or negative is clamped to
    zero.  The first frame callback takes its own timestamp as the start,
    so it sets opacity 0 and schedules another frame; every callback
    whose elapsed time [timestamp - startTime], as the subtraction on
    doubles gives it, is less than 1 ms keeps the animation going; the
    first one whose elapsed time is at least 1 ms settles the fade, with
    no frame left scheduled. *)
Theorem nonpositive_duration_settles_after_first_frame
        (b : Browser) (el : node) (d t0 t1 : float) (mid : list float) :
  ready b el ->
  PrimFloat.leb d 0 = true ->
  is_finite t0 = true ->
  falsy t0 = false ->
  Forall (fun t => PrimFloat.ltb (t - t0) 1 = true) mid ->
  PrimFloat.leb 1 (t1 - t0) = true ->
  duration (constructor b d true) = 0%float /\
  exists s1 s2 s3,
    frame t0 (constructor b d true) = Ok s1 /\
    opacityOf s1 = Some 0%float /\ Animating s1 /\
    frames mid s1 = Ok s2 /\ Animating s2 /\
    frame t1 s2 = Ok s3 /\ Settled s3.
Proof.
  intros Hb Hd Hfin Hnz Hmid Ht1.
  destruct (constructor_starts b el d Hb) as (H1 & H2 & H3 & H4 & H5 & H6 & H7).
  rewrite (Math_max_clamp d Hd) in H3.
  split; [exact H3|].
  destruct (frame_first el 0 t0 _ H1 H2 H3) as (s1 & F1 & F2 & F3);
    [reflexivity|unfold noStartTime; rewrite H4; reflexivity|exact Hfin| |].
  { split; [eauto|exact H6]. }
  destruct (frames_early el 0 t0 mid s1 F2 Hnz) as (s2 & G1 & G2).
  { eapply Forall_impl; [exact Hmid|]. intros t Ht. simpl in Ht.
    rewrite zero_duration_progress. exact Ht. }
  destruct (frame_late el 0 t0 t1 s2 G2 Hnz) as (s3 & K1 & K2).
  { rewrite zero_duration_progress. apply leb_not_ltb, Ht1. }
  exists s1, s2, s3.
  destruct F2 as (_ & _ & _ & _ & F2), G2 as (_ & _ & _ & _ & G2).
  repeat (split; [assumption|]). assumption.
Qed.

(** C5, as amended. For a finite duration [D] of at least 1 ms, the
    frame callback that finds [D] elapsed since the start timestamp,
    [timestamp - startTime === D] on doubles, computes progress exactly 1
    and settles the fade; cleanup had not run before that frame, and it
    has run exactly once at the end of the run, however many frames
    follow. *)
Theorem full_duration_completes
        (b : Browser) (el : node) (D t t0 : float)
        (before after : list float) (s1 : State) :
  ready b el ->
  PrimFloat.leb 1 D = true ->
  is_finite D = true ->
  frames before (constructor b D true) = Ok s1 ->
  rafQueue s1 <> [] ->
  startTime s1 = Some t0 ->
  falsy t0 = false ->
  PrimFloat.eqb (t - t0) D = true ->
  progressOf (t - startTimeValue s1) s1 = 1%float /\
  cleanups s1 = 0%nat /\
  exists s2,
    frame t s1 = Ok s2 /\ Settled s2 /\
    frames (before ++ t :: after) (constructor b D true) = Ok s2.
Proof.
  intros Hb HD Hfin Hrun Hq Hst Hnz Hel.
  pose proof (frames_consistent _ _ _ _ _ (constructor_consistent b el D Hb) Hrun)
    as (C1 & C2 & C3 & [C4|[C4 _]]); [|contradiction].
  destruct (Math_max_kept D HD) as [K0 K1]. rewrite K0 in *.
  destruct (ge_one_positive D HD) as (_ & Hz & _).
  assert (He : (t - t0)%float = D).
  { symmetry. apply eqb_eq; [rewrite eqb_sym; exact Hel|exact Hz]. }
  assert (Hp : Math_min 1 ((t - t0) / Math_max 1 D) = 1%float).
  { rewrite He, K1, (div_diag D Hfin Hz). reflexivity. }
  split; [|split; [exact (proj2 C4)|]].
  - unfold progressOf, startTimeValue. rewrite Hst, C3. exact Hp.
  - destruct (frame_late el D t0 t s1) as (s2 & L1 & L2);
      [unfold AnimatingSince; auto|exact Hnz|rewrite Hp; reflexivity|].
    exists s2. repeat split; try apply L2; [exact L1|].
    rewrite frames_app, Hrun. simpl. rewrite frames_cons, L1. simpl.
    apply frames_idle, L2.
Qed.

Lemma fadeBrowser_ready : ready Samples.fadeBrowser 7.
Proof.
  unfold ready. repeat split. exists (Samples.plain 0). reflexivity.
Defined.

(** C4, as stated, fails: with duration 0 the first frame callback, at
    timestamp 100, sets opacity 0, runs no cleanup and schedules another
    frame. *)
Lemma zero_duration_first_frame_not_settled :
  exists s,
    frame 100 (constructor Samples.fadeBrowser 0 true) = Ok s /\
    opacityOf s = Some 0%float /\ cleanups s = 0%nat /\
    rafQueue s = [2%nat] /\
    ~ Settled s.
Proof.
  eexists. split; [vm_compute; reflexivity|].
  repeat split; try (vm_compute; reflexivity).
  intros (_ & _ & H & _). vm_compute in H. discriminate H.
Qed.

(** The frames of the sample run: the first at 0.059 ms, one half a
    millisecond in, and the one at 1.059 ms, whose elapsed time
    [1.059 - 0.059] is exactly 1 on doubles. *)
Lemma nonpositive_duration_witness :
  PrimFloat.leb (-3) 0 = true /\
  is_finite 0.059 = true /\ falsy 0.059 = false /\
  Forall (fun t => PrimFloat.ltb (t - 0.059) 1 = true) [0.5%float] /\
  PrimFloat.leb 1 (1.059 - 0.059) = true /\
  duration (constructor Samples.fadeBrowser (-3) true) = 0%float /\
  exists s1 s2 s3,
    frame 0.059 (constructor Samples.fadeBrowser (-3) true) = Ok s1 /\
    opacityOf s1 = Some 0%float /\ Animating s1 /\
    frames [0.5%float] s1 = Ok s2 /\ Animating s2 /\
    frame 1.059 s2 = Ok s3 /\ Settled s3.
Proof.
  assert (H1 : PrimFloat.leb (-3) 0 = true) by reflexivity.
  assert (H2 : is_finite 0.059 = true) by reflexivity.
  assert (H3 : falsy 0.059 = false) by reflexivity.
  assert (H4 : Forall (fun t => PrimFloat.ltb (t - 0.059) 1 = true)
                      [0.5%float])
    by (repeat constructor).
  assert (H5 : PrimFloat.leb 1 (1.059 - 0.059) = true) by reflexivity.
  repeat (split; [assumption|]).
  exact (nonpositive_duration_settles_after_first_frame
           Samples.fadeBrowser 7 (-3) 0.059 1.059 [0.5%float]
           fadeBrowser_ready H1 H2 H3 H4 H5).
Defined.

(** C5, as stated, fails for a duration between 0 and 1: with duration
    0.5 and the first frame at timestamp 100, the frame at 100.5 finds
    exactly 0.5 elapsed, yet computes progress 0.5, runs no cleanup and
    schedules another frame. *)
Lemma half_millisecond_duration_incomplete :
  exists s1 s2,
    frames [100%float] (constructor Samples.fadeBrowser 0.5 true) = Ok s1 /\
    startTime s1 = Some 100%float /\
    PrimFloat.eqb (100.5 - 100) 0.5 = true /\
    progressOf (100.5 - startTimeValue s1) s1 = 0.5%float /\
    PrimFloat.eqb (progressOf (100.5 - startTimeValue s1) s1) 1 = false /\
    frame 100.5 s1 = Ok s2 /\
    cleanups s2 = 0%nat /\ rafQueue s2 = [3%nat].
Proof.
  eexists. eexists. split; [vm_compute; reflexivity|].
  split; [vm_compute; reflexivity|].
  split; [vm_compute; reflexivity|].
  split; [vm_compute; reflexivity|].
  split; [vm_compute; reflexivity|].
  split; [vm_compute; reflexivity|].
  split; vm_compute; reflexivity.
Qed.

(** The sample run has duration 200 and frames at 0.1 and 200.1 ms:
    [200.1 - 0.1] is exactly 200 on doubles. *)
Lemma full_duration_witness :
  PrimFloat.leb 1 200 = true /\ is_finite 200 = true /\
  falsy 0.1 = false /\ PrimFloat.eqb (200.1 - 0.1) 200 = true /\
  exists s1,
    frames [0.1%float; 16.1%float] (constructor Samples.fadeBrowser 200 true)
    = Ok s1 /\
    rafQueue s1 <> [] /\ startTime s1 = Some 0.1%float /\
    progressOf (200.1 - startTimeValue s1) s1 = 1%float /\
    cleanups s1 = 0%nat /\
    exists s2,
      frame 200.1 s1 = Ok s2 /\ Settled s2 /\
      frames ([0.1%float; 16.1%float] ++ 200.1%float :: [216%float; 232%float])
             (constructor Samples.fadeBrowser 200 true) = Ok s2.
Proof.
  assert (H1 : PrimFloat.leb 1 200 = true) by reflexivity.
  assert (H0 : is_finite 200 = true) by reflexivity.
  assert (H2 : falsy 0.1 = false) by reflexivity.
  assert (H3 : PrimFloat.eqb (200.1 - 0.1) 200 = true) by reflexivity.
  repeat (split; [assumption|]).
  pose (s0 := constructor Samples.fadeBrowser 200 true).
  pose (s1 := match frames [0.1%float; 16.1%float] s0 with
              | Ok s => s
              | TypeError => s0
              end).
  exists s1.
  assert (H4 : frames [0.1%float; 16.1%float] s0 = Ok s1)
    by (vm_compute; reflexivity).
  split; [exact H4|].
  assert (H5 : rafQueue s1 <> []) by (vm_compute; discriminate).
  split; [exact H5|].
  assert (H6 : startTime s1 = Some 0.1%float) by (vm_compute; reflexivity).
  split; [exact H6|].
  exact (full_duration_completes Samples.fadeBrowser 7 200 200.1 0.1
           [0.1%float; 16.1%float] [216%float; 232%float] s1
           fadeBrowser_ready H1 H0 H4 H5 H6 H2 H3).
Defined.

End Fade.

(** ** Navigation controller *)

Section Navigation.
Import Dom BarraNavegacion.

Lemma snd_classToggle (d : document) n c :
  snd (classToggle n c d) = present d n && negb (hasClass d n c).
Proof.
  unfold classToggle, hasClass. simpl.
  destruct (d !! n) as [e|] eqn:He.
  - rewrite (present_Some _ _ _ He). simpl.
    apply (proj2 (contains_toggle_same c (classList e))).
  - rewrite (present_None _ _ He). reflexivity.
Qed.

Lemma present_menuToggled b n h (d : document) m :
  present (menuToggled b n h d) m = present d m.
Proof.
  unfold menuToggled.
  rewrite present_setAriaExpanded, !present_classToggle. reflexivity.
Qed.

Lemma hasClass_menuToggled b n h (d : document) m c :
  hasClass (menuToggled b n h d) m c =
  xorb (hasClass d m c)
       (present d m &&
        (xorb (xorb (bool_decide (b = m) && String.eqb "header__nav-burguer--active" c)
                    (bool_decide (n = m) && String.eqb "header__nav--active" c))
              (bool_decide (h = m) && String.eqb "header--active" c))).
Proof.
  unfold menuToggled.
  rewrite hasClass_setAriaExpanded, !hasClass_toggle, !present_classToggle.
  destruct (hasClass d m c), (present d m), (bool_decide (b = m)),
    (bool_decide (n = m)), (bool_decide (h = m)),
    (String.eqb "header__nav-burguer--active" c),
    (String.eqb "header__nav--active" c), (String.eqb "header--active" c);
    reflexivity.
Qed.

Lemma present_langClosed lm ll (d : document) m :
  present (langClosed lm ll d) m = present d m.
Proof.
  unfold langClosed. destruct lm as [x|]; [|reflexivity].
  rewrite present_setAriaExpanded, present_classRemove.
  destruct ll; [apply present_classRemove|reflexivity].
Qed.

Lemma hasClass_langClosed lm ll (d : document) m c :
  hasClass (langClosed lm ll d) m c =
  match lm with
  | None => hasClass d m c
  | Some x =>
      if bool_decide (x = m) && String.eqb "header__nav-langmenu--active" c
      then false
      else match ll with
           | Some l =>
               if bool_decide (l = m)
                  && String.eqb "header__nav-langlist--active" c
               then false else hasClass d m c
           | None => hasClass d m c
           end
  end.
Proof.
  unfold langClosed. destruct lm as [x|]; [|reflexivity].
  rewrite hasClass_setAriaExpanded, hasClass_remove.
  destruct ll as [l|]; [rewrite hasClass_remove|]; reflexivity.
Qed.

Lemma toggleMenuElements_eq s b n h items :
  Initialized s b n h items ->
  toggleMenuElements s = Ok (with_doc (menuToggled b n h) s).
Proof.
  intros (Hb & Hn & Hh & _). unfold toggleMenuElements.
  rewrite Hb. simpl. rewrite Hn. simpl. rewrite Hh. reflexivity.
Qed.

Lemma closeLangMenu_eq s :
  closeLangMenu s =
  with_doc (langClosed (langMenu (refs (this s))) (langList (refs (this s)))) s.
Proof.
  unfold closeLangMenu, langClosed. destruct s as [bw th]. destruct bw.
  simpl. destruct (langMenu (refs th)); [|reflexivity].
  destruct (langList (refs th)); reflexivity.
Qed.

Lemma onBurgerClick_eq s b n h items :
  Initialized s b n h items ->
  onBurgerClick s =
  Ok (with_doc (fun d => langClosed (langMenu (refs (this s)))
                                    (langList (refs (this s)))
                                    (menuToggled b n h d)) s).
Proof.
  intros Hi. unfold onBurgerClick. rewrite (toggleMenuElements_eq _ _ _ _ _ Hi).
  simpl. rewrite closeLangMenu_eq. reflexivity.
Qed.

Lemma hasClass_langClosed_other lm ll (d : document) m c :
  c <> "header__nav-langmenu--active" ->
  c <> "header__nav-langlist--active" ->
  hasClass (langClosed lm ll d) m c = hasClass d m c.
Proof.
  intros H1 H2. rewrite hasClass_langClosed.
  destruct lm as [x|]; [|reflexivity].
  destruct (String.eqb_spec "header__nav-langmenu--active" c); [congruence|].
  rewrite andb_false_r. destruct ll as [l|]; [|reflexivity].
  destruct (String.eqb_spec "header__nav-langlist--active" c); [congruence|].
  rewrite andb_false_r. reflexivity.
Qed.

Lemma getAria_langClosed lm ll (d : document) m :
  getAriaExpanded (langClosed lm ll d) m =
  if bool_decide (lm = Some m) && present d m then Some "false"
  else getAriaExpanded d m.
Proof.
  unfold langClosed. destruct lm as [x|].
  - rewrite getAria_set, present_classRemove.
    assert (Hp : present (match ll with
                          | Some l => classRemove l "header__nav-langlist--active" d
                          | None => d
                          end) m = present d m)
      by (destruct ll; [apply present_classRemove|reflexivity]).
    rewrite Hp.
    assert (Ha : getAriaExpanded
                   (classRemove x "header__nav-langmenu--active"
                      (match ll with
                       | Some l => classRemove l "header__nav-langlist--active" d
                       | None => d
                       end)) m = getAriaExpanded d m).
    { unfold classRemove. rewrite getAria_alter_classList.
      destruct ll; [apply getAria_alter_classList|reflexivity]. }
    rewrite Ha.
    destruct (decide (x = m)) as [->|Hne].
    + rewrite !bool_decide_eq_true_2 by reflexivity. reflexivity.
    + rewrite (bool_decide_eq_false_2 _ Hne).
      rewrite bool_decide_eq_false_2 by congruence. reflexivity.
  - rewrite bool_decide_eq_false_2 by discriminate. reflexivity.
Qed.

Lemma getAria_menuToggled b n h (d : document) :
  present d b = true ->
  getAriaExpanded (menuToggled b n h d) b =
  Some (if hasClass d b "header__nav-burguer--active" then "false" else "true").
Proof.
  intros Hp. unfold menuToggled.
  rewrite snd_classToggle, Hp.
  rewrite getAria_set, !present_classToggle, Hp.
  rewrite bool_decide_eq_true_2 by reflexivity.
  destruct (hasClass d b "header__nav-burguer--active"); reflexivity.
Qed.

(** C10. Every burger activation, whether it opens or closes the burger
    menu, leaves the language dropdown closed: the language menu and the
    language list lose their active classes and the language menu's
    aria-expanded is "false". *)
Theorem burger_click_closes_language_menu
        (s : State) (b n h m : node) (items : list node) :
  Initialized s b n h items ->
  langMenu (refs (this s)) = Some m ->
  present (doc (browser s)) m = true ->
  exists s',
    onBurgerClick s = Ok s' /\
    hasClass (doc (browser s')) m "header__nav-langmenu--active" = false /\
    getAriaExpanded (doc (browser s')) m = Some "false" /\
    (forall l, langList (refs (this s)) = Some l ->
               hasClass (doc (browser s')) l "header__nav-langlist--active"
               = false).
Proof.
  intros Hi Hm Hp. eexists. split; [apply (onBurgerClick_eq _ _ _ _ _ Hi)|].
  simpl. rewrite Hm. repeat split.
  - rewrite hasClass_langClosed, bool_decide_eq_true_2 by reflexivity.
    reflexivity.
  - rewrite getAria_langClosed, present_menuToggled, Hp.
    rewrite bool_decide_eq_true_2 by reflexivity. reflexivity.
  - intros l ->. rewrite hasClass_langClosed.
    destruct (bool_decide (m = l)
              && String.eqb "header__nav-langmenu--active"
                            "header__nav-langlist--active"); [reflexivity|].
    rewrite bool_decide_eq_true_2 by reflexivity. reflexivity.
Qed.

Lemma burger_click_witness :
  exists s',
    onBurgerClick Samples.navState = Ok s' /\
    hasClass (doc (browser s')) 30 "header__nav-langmenu--active" = false /\
    getAriaExpanded (doc (browser s')) 30 = Some "false" /\
    (forall l, langList (refs (this Samples.navState)) = Some l ->
               hasClass (doc (browser s')) l "header__nav-langlist--active"
               = false).
Proof.
  apply (burger_click_closes_language_menu
           Samples.navState 11 12 10 30 [20; 21; 22]%nat).
  - repeat split.
  - reflexivity.
  - reflexivity.
Defined.

Lemma Initialized_with_doc f s b n h items :
  Initialized s b n h items -> Initialized (with_doc f s) b n h items.
Proof. intros H. exact H. Qed.

(** C9. Starting with the burger menu closed, two burger activations in
    succession bring aria-expanded on the toggle button back to "false"
    and remove the state classes that the first activation added to the
    button, the nav container and the header; no class other than those
    of the language dropdown differs from before on any element. *)
Theorem burger_toggle_twice
        (s : State) (b n h : node) (items : list node) :
  Initialized s b n h items ->
  present (doc (browser s)) b = true ->
  hasClass (doc (browser s)) b "header__nav-burguer--active" = false ->
  exists s1 s2,
    onBurgerClick s = Ok s1 /\ onBurgerClick s1 = Ok s2 /\
    hasClass (doc (browser s1)) b "header__nav-burguer--active" = true /\
    getAriaExpanded (doc (browser s2)) b = Some "false" /\
    hasClass (doc (browser s2)) b "header__nav-burguer--active" = false /\
    hasClass (doc (browser s2)) n "header__nav--active"
    = hasClass (doc (browser s)) n "header__nav--active" /\
    hasClass (doc (browser s2)) h "header--active"
    = hasClass (doc (browser s)) h "header--active" /\
    (forall x c,
        c <> "header__nav-langmenu--active" ->
        c <> "header__nav-langlist--active" ->
        hasClass (doc (browser s2)) x c = hasClass (doc (browser s)) x c).
Proof.
  intros Hi Hp Hclosed.
  set (lm := langMenu (refs (this s))). set (ll := langList (refs (this s))).
  set (d := doc (browser s)) in *.
  set (d1 := langClosed lm ll (menuToggled b n h d)).
  set (d2 := langClosed lm ll (menuToggled b n h d1)).
  exists (with_doc (fun _ => d1) s), (with_doc (fun _ => d2) s).
  assert (Hsame : forall x c,
             c <> "header__nav-langmenu--active" ->
             c <> "header__nav-langlist--active" ->
             hasClass d2 x c = hasClass d x c).
  { intros x c H1 H2. subst d2 d1.
    rewrite (hasClass_langClosed_other _ _ _ _ _ H1 H2), hasClass_menuToggled.
    rewrite present_langClosed, present_menuToggled.
    rewrite (hasClass_langClosed_other _ _ _ _ _ H1 H2), hasClass_menuToggled.
    rewrite xorb_assoc, xorb_nilpotent. apply xorb_false_r. }
  assert (Hopen : hasClass d1 b "header__nav-burguer--active" = true).
  { subst d1. rewrite hasClass_langClosed_other by discriminate.
    rewrite hasClass_menuToggled, Hclosed, Hp.
    rewrite bool_decide_eq_true_2 by reflexivity.
    change (String.eqb "header__nav-burguer--active"
                       "header__nav-burguer--active") with true.
    change (String.eqb "header__nav--active"
                       "header__nav-burguer--active") with false.
    change (String.eqb "header--active"
                       "header__nav-burguer--active") with false.
    rewrite !andb_false_r. reflexivity. }
  split; [rewrite (onBurgerClick_eq _ _ _ _ _ Hi); reflexivity|].
  split; [rewrite (onBurgerClick_eq _ b n h items) by exact Hi; reflexivity|].
  simpl. split; [exact Hopen|]. split.
  - subst d2. rewrite getAria_langClosed, present_menuToggled.
    destruct (bool_decide (lm = Some b) && present d1 b); [reflexivity|].
    rewrite getAria_menuToggled.
    + rewrite Hopen. reflexivity.
    + subst d1. rewrite present_langClosed, present_menuToggled. exact Hp.
  - split; [rewrite Hsame by discriminate; exact Hclosed|].
    split; [apply Hsame; discriminate|].
    split; [apply Hsame; discriminate|exact Hsame].
Qed.

Lemma burger_toggle_twice_witness :
  exists s1 s2,
    onBurgerClick Samples.navState = Ok s1 /\ onBurgerClick s1 = Ok s2 /\
    hasClass (doc (browser s1)) 11 "header__nav-burguer--active" = true /\
    getAriaExpanded (doc (browser s2)) 11 = Some "false" /\
    hasClass (doc (browser s2)) 11 "header__nav-burguer--active" = false /\
    hasClass (doc (browser s2)) 12 "header__nav--active"
    = hasClass (doc (browser Samples.navState)) 12 "header__nav--active" /\
    hasClass (doc (browser s2)) 10 "header--active"
    = hasClass (doc (browser Samples.navState)) 10 "header--active" /\
    (forall x c,
        c <> "header__nav-langmenu--active" ->
        c <> "header__nav-langlist--active" ->
        hasClass (doc (browser s2)) x c
        = hasClass (doc (browser Samples.navState)) x c).
Proof.
  apply (burger_toggle_twice Samples.navState 11 12 10 [20; 21; 22]%nat).
  - repeat split.
  - reflexivity.
  - reflexivity.
Defined.

(** The timers left once [onNavItemClick] has cleared the one it
    recorded. *)
Let clearedTimers (s : State) : list (nat * Z) :=
  match clickTimeout (this s) with
  | Some (S k) =>
      List.filter (fun p => negb (fst p =? S k)%nat) (timers (browser s))
  | _ => timers (browser s)
  end.

(** The document after a nav item is activated. *)
Let activatedDoc (b n h : node) (items : list node) (item : node)
    (d : document) : document :=
  fst (classToggle item "item--active"
         (fold_left (fun d i => classRemove i "item--active" d) items
                    (menuToggled b n h d))).

Lemma onNavItemClick_spec s b n h items item :
  Initialized s b n h items ->
  exists s',
    onNavItemClick item s = Ok s' /\
    refs (this s') = refs (this s) /\
    doc (browser s') = activatedDoc b n h items item (doc (browser s)) /\
    permiteClickReciente (this s') = true /\
    clickTimeout (this s') = Some (nextHandle (browser s)) /\
    timers (browser s')
    = (clearedTimers s
         ++ [(nextHandle (browser s), (now (browser s) + 800)%Z)])%list /\
    now (browser s') = now (browser s) /\
    rafQueue (browser s') = rafQueue (browser s) /\
    rafScroll (this s') = rafScroll (this s) /\
    nextHandle (browser s') = S (nextHandle (browser s)) /\
    listeners (browser s') = listeners (browser s).
Proof.
  intros (Hb & Hn & Hh & Hitems).
  destruct s as [[d ls tm rq nh nw nch lch] [[hd bg ni nv lm li ll] pm ct rs hs]].
  simpl in *. subst.
  unfold onNavItemClick, toggleMenuElements, deactivateAllNavItems,
    clearedTimers, activatedDoc.
  destruct ct as [[|k]|]; simpl; eexists; (split; [reflexivity|]);
    simpl; repeat split; reflexivity.
Qed.

(** C7. Activating a nav item, by a click or by Enter or Space on it,
    leaves the active class on that item and on no other nav item,
    whichever items carried it before. *)
Theorem nav_item_activation_is_exclusive
        (s : State) (b n h : node) (items : list node) (item : node)
        (c : code) (e : Event) :
  Initialized s b n h items ->
  item ∈ items ->
  present (doc (browser s)) item = true ->
  c = NavItemHandler item \/
  (c = NavItemKeydown item /\ activationKey e = true) ->
  exists s',
    invoke c e s = Ok s' /\
    forall i, i ∈ items -> activeItem s' i = bool_decide (i = item).
Proof.
  intros Hi Hin Hp Hc.
  destruct (onNavItemClick_spec s b n h items item Hi)
    as (s' & Hrun & _ & Hdoc & _).
  exists s'. split.
  - destruct Hc as [->|[-> Hk]]; simpl; [|rewrite Hk]; exact Hrun.
  - intros i Hi'. unfold activeItem. rewrite Hdoc. unfold activatedDoc.
    rewrite hasClass_toggle, hasClass_fold_remove, present_fold_remove,
      present_menuToggled.
    rewrite (bool_decide_eq_true_2 _ Hi'). simpl.
    destruct (decide (i = item)) as [->|Hne].
    + rewrite Hp, !bool_decide_eq_true_2 by reflexivity. reflexivity.
    + rewrite !(bool_decide_eq_false_2 (item = i)) by congruence.
      rewrite (bool_decide_eq_false_2 _ Hne), andb_false_r. reflexivity.
Qed.

Lemma nav_item_activation_witness :
  21%nat ∈ [20; 21; 22]%nat /\
  exists s',
    invoke (NavItemKeydown 21) (mkEvent "Enter" false false false)
           Samples.navState = Ok s' /\
    forall i, i ∈ [20; 21; 22]%nat -> activeItem s' i = bool_decide (i = 21%nat).
Proof.
  assert (Hin : 21%nat ∈ [20; 21; 22]%nat) by (repeat constructor).
  split; [exact Hin|].
  apply (nav_item_activation_is_exclusive
           Samples.navState 11 12 10 [20; 21; 22]%nat 21).
  - repeat split.
  - exact Hin.
  - reflexivity.
  - right. split; reflexivity.
Defined.

(** *** The suppression window *)

Lemma timeouts_fire (due : list (nat * Z)) : forall s,
  fold_left (fun s _ => clickTimeoutCallback s) due s =
  match due with
  | [] => s
  | _ => with_permite false s
  end.
Proof.
  induction due as [|p due IH]; intros s; [reflexivity|].
  cbn [fold_left]. rewrite IH. destruct due; reflexivity.
Qed.

Lemma advance_spec t s :
  let clock := Z.max (now (browser s)) t in
  refs (this (advance t s)) = refs (this s) /\
  clickTimeout (this (advance t s)) = clickTimeout (this s) /\
  rafScroll (this (advance t s)) = rafScroll (this s) /\
  doc (browser (advance t s)) = doc (browser s) /\
  rafQueue (browser (advance t s)) = rafQueue (browser s) /\
  nextHandle (browser (advance t s)) = nextHandle (browser s) /\
  now (browser (advance t s)) = clock /\
  timers (browser (advance t s))
  = List.filter (fun p => negb (snd p <=? clock)%Z) (timers (browser s)) /\
  permiteClickReciente (this (advance t s))
  = match List.filter (fun p => (snd p <=? clock)%Z) (timers (browser s)) with
    | [] => permiteClickReciente (this s)
    | _ => false
    end.
Proof.
  destruct s as [[d ls tm rq nh nw nch lch] [r pm ct rs hs]].
  unfold advance. simpl. rewrite timeouts_fire.
  destruct (List.filter (fun p => (snd p <=? Z.max nw t)%Z) tm);
    simpl; repeat split; reflexivity.
Qed.

Lemma clearedTimers_nil s :
  WellTimed s -> clearedTimers s = [].
Proof.
  intros (_ & Hpos & Hown & _). unfold clearedTimers.
  destruct (timers (browser s)) as [|p tm] eqn:Htm.
  - destruct (clickTimeout (this s)) as [[|k]|]; reflexivity.
  - assert (Hp : clickTimeout (this s) = Some (fst p))
      by (apply Hown; left; reflexivity).
    rewrite Hp. pose proof (Hpos _ Hp) as Hlt.
    destruct (fst p) as [|k] eqn:Hk; [lia|].
    assert (Hall : forall q, In q (p :: tm) -> fst q = S k).
    { intros q Hq. apply Hown in Hq. rewrite Hp in Hq. congruence. }
    clear -Hall. induction (p :: tm) as [|q l IH]; [reflexivity|].
    simpl. rewrite (Hall q) by (left; reflexivity).
    rewrite Nat.eqb_refl. simpl. apply IH. intros x Hx. apply Hall.
    right. exact Hx.
Qed.

(** The state of the controller while the window opened at [t0] by a
    click on [item] is in effect. *)
Let InWindow (t0 : Z) (b n h : node) (items : list node) (item : node)
    (s : State) : Prop :=
  Initialized s b n h items /\
  permiteClickReciente (this s) = true /\
  (exists id, timers (browser s) = [(id, (t0 + 800)%Z)]) /\
  activeItem s item = true /\
  (now (browser s) < t0 + 800)%Z /\
  (truthy (rafScroll (this s)) = true -> rafQueue (browser s) <> []).

Lemma frame_callbacks_suppressed (q : list nat) : forall s,
  permiteClickReciente (this s) = true ->
  fold_left (fun r _ => let! s := r in scrollFrameCallback s) q (Ok s) =
  Ok (match q with
      | [] => s
      | _ => with_rafScroll None s
      end).
Proof.
  induction q as [|x q IH]; intros s Hp; [reflexivity|].
  cbn [fold_left]. unfold bind at 2, scrollFrameCallback at 2.
  rewrite Hp. simpl. rewrite IH by exact Hp. destruct q; reflexivity.
Qed.

Lemma turn_in_window t0 b n h items item s ev :
  InWindow t0 b n h items item s ->
  (fst ev < t0 + 800)%Z ->
  snd ev = WindowScrolled \/ snd ev = FrameRendered ->
  exists s', turn s ev = Ok s' /\ InWindow t0 b n h items item s'.
Proof.
  intros (Hi & Hp & [id Htm] & Hact & Hnow & Hraf) Ht Hev.
  pose proof (advance_spec (fst ev) s) as Hadv. simpl in Hadv.
  destruct Hadv as (A1 & A2 & A3 & A4 & A5 & A6 & A7 & A8 & A9).
  assert (Hclock : (Z.max (now (browser s)) (fst ev) < t0 + 800)%Z) by lia.
  rewrite Htm in A8, A9. simpl in A8, A9.
  destruct (Z.leb_spec (t0 + 800) (Z.max (now (browser s)) (fst ev)));
    [lia|]. simpl in A8, A9.
  unfold turn. set (sa := advance (fst ev) s) in *. clearbody sa.
  assert (Hia : Initialized sa b n h items)
    by (unfold Initialized; rewrite A1; exact Hi).
  destruct Hev as [Hev|Hev]; rewrite Hev.
  - unfold onWindowScroll. destruct (truthy (rafScroll (this sa))) eqn:Htr.
    + exists sa. split; [reflexivity|].
      unfold InWindow, activeItem. rewrite A4, A5, A7, A8, A9.
      split; [exact Hia|]. split; [exact Hp|]. split; [eauto|].
      split; [exact Hact|]. split; [exact Hclock|].
      intros _. apply Hraf. rewrite <- A3. exact Htr.
    + eexists. split; [reflexivity|].
      unfold InWindow, activeItem. simpl. rewrite A4, A5, A7, A8, A9.
      split; [exact Hia|]. split; [exact Hp|]. split; [eauto|].
      split; [exact Hact|]. split; [exact Hclock|].
      intros _ Hq. destruct (rafQueue (browser s)); discriminate Hq.
  - unfold runFrame. rewrite frame_callbacks_suppressed by (simpl; congruence).
    eexists. split; [reflexivity|].
    unfold InWindow, activeItem.
    destruct (rafQueue (browser sa)) as [|x rq] eqn:Hq; simpl;
      rewrite A4, A7, A8, A9;
      (split; [exact Hia|]); (split; [exact Hp|]); (split; [eauto|]);
      (split; [exact Hact|]); (split; [exact Hclock|]).
    + intros Htr. exfalso. rewrite A3 in Htr. apply (Hraf Htr).
      symmetry. exact A5.
    + intros Htr. discriminate Htr.
Qed.

Lemma turns_cons ev evs s :
  turns (ev :: evs) s = (let! s' := turn s ev in turns evs s').
Proof.
  unfold turns. simpl. destruct (turn s ev) as [s'|]; [reflexivity|].
  induction evs as [|x evs IH]; [reflexivity|exact IH].
Qed.

Lemma turns_in_window t0 b n h items item evs : forall s,
  InWindow t0 b n h items item s ->
  Forall (fun ev => (fst ev < t0 + 800)%Z /\
                    (snd ev = WindowScrolled \/ snd ev = FrameRendered)) evs ->
  exists s', turns evs s = Ok s' /\ InWindow t0 b n h items item s'.
Proof.
  induction evs as [|ev evs IH]; intros s Hw Hall.
  - exists s. split; [reflexivity|exact Hw].
  - inversion Hall as [|? ? [Ht Hev] Hrest]; subst.
    destruct (turn_in_window _ _ _ _ _ _ _ _ Hw Ht Hev) as (s1 & H1 & H2).
    destruct (IH s1 H2 Hrest) as (s2 & H3 & H4).
    exists s2. rewrite turns_cons, H1. simpl. split; assumption.
Qed.

Lemma advance_WellTimed t s : WellTimed s -> WellTimed (advance t s).
Proof.
  intros (H1 & H2 & H3 & H4).
  destruct (advance_spec t s) as (A1 & A2 & A3 & A4 & A5 & A6 & A7 & A8 & A9).
  unfold WellTimed. rewrite A2, A3, A5, A6, A8.
  split; [exact H1|]. split; [exact H2|]. split; [|exact H4].
  intros p Hp. apply filter_In in Hp. apply H3, Hp.
Qed.

Lemma click_opens_window s b n h items item t0 :
  Initialized s b n h items ->
  WellTimed s ->
  item ∈ items ->
  present (doc (browser s)) item = true ->
  (now (browser s) <= t0)%Z ->
  exists s1,
    turn s (t0, NavItemActivated item) = Ok s1 /\
    InWindow t0 b n h items item s1.
Proof.
  intros Hi Hwt Hin Hp Hnow.
  destruct (advance_spec t0 s) as (A1 & A2 & A3 & A4 & A5 & A6 & A7 & A8 & A9).
  pose proof (advance_WellTimed t0 s Hwt) as Hwa.
  unfold turn. simpl fst; simpl snd.
  set (sa := advance t0 s) in *. clearbody sa.
  assert (Hia : Initialized sa b n h items)
    by (unfold Initialized; rewrite A1; exact Hi).
  destruct (onNavItemClick_spec sa b n h items item Hia)
    as (s1 & C0 & C1 & C2 & C3 & C4 & C5 & C6 & C7 & C8 & C9 & C10).
  exists s1. split; [exact C0|].
  unfold InWindow, Initialized, activeItem.
  rewrite C1, C2, C3, C5, C6, C7, C8, (clearedTimers_nil sa Hwa), A7.
  replace (Z.max (now (browser s)) t0) with t0 by lia.
  split; [exact Hia|]. split; [reflexivity|]. split; [simpl; eauto|].
  split; [|split; [lia|apply Hwa]].
  unfold activatedDoc.
  rewrite hasClass_toggle, hasClass_fold_remove, present_fold_remove,
    present_menuToggled, A4, Hp.
  rewrite (bool_decide_eq_true_2 (item = item)) by reflexivity.
  rewrite (bool_decide_eq_true_2 _ Hin). reflexivity.
Qed.

(** Frame callbacks that find the window closed. *)
Lemma frame_callbacks_clear items (q : list nat) : forall s,
  permiteClickReciente (this s) = false ->
  navItems (refs (this s)) = Some items ->
  exists s',
    fold_left (fun r _ => let! s := r in scrollFrameCallback s) q (Ok s)
    = Ok s' /\
    ((q <> [] \/ forall i, i ∈ items -> activeItem s i = false) ->
     forall i, i ∈ items -> activeItem s' i = false).
Proof.
  induction q as [|x q IH]; intros s Hp Hn.
  - exists s. split; [reflexivity|]. intros [H|H]; [contradiction|exact H].
  - cbn [fold_left]. unfold bind at 2, scrollFrameCallback at 2.
    rewrite Hp. unfold deactivateAllNavItems. rewrite Hn. simpl.
    match goal with
    | |- context [fold_left _ q (Ok ?s1)] =>
        destruct (IH s1) as (s' & H1 & H2); [exact Hp|exact Hn|]
    end.
    exists s'. split; [exact H1|]. intros _. apply H2. right.
    intros i Hi. unfold activeItem. simpl.
    rewrite hasClass_fold_remove, (bool_decide_eq_true_2 _ Hi). reflexivity.
Qed.

(** A scroll event and the frame that handles it, the frame coming once
    the window opened at [t0] has elapsed. *)
Lemma scroll_after_window t0 b n h items item s t1 t2 :
  InWindow t0 b n h items item s ->
  (t0 + 800 <= t2)%Z ->
  exists s',
    turns [(t1, WindowScrolled); (t2, FrameRendered)] s = Ok s' /\
    forall i, i ∈ items -> activeItem s' i = false.
Proof.
  intros (Hi & Hp & [id Htm] & Hact & Hnow & Hraf) Ht2.
  rewrite turns_cons. unfold turn at 1. simpl fst; simpl snd.
  destruct (advance_spec t1 s) as (A1 & A2 & A3 & A4 & A5 & A6 & A7 & A8 & A9).
  set (sa := advance t1 s) in *. clearbody sa. simpl.
  set (sb := onWindowScroll sa).
  assert (Hb : navItems (refs (this sb)) = Some items /\
               rafQueue (browser sb) <> [] /\
               ((permiteClickReciente (this sb) = false /\
                 timers (browser sb) = []) \/
                timers (browser sb) = [(id, (t0 + 800)%Z)])).
  { assert (Htimers : (permiteClickReciente (this sa) = false /\
                       timers (browser sa) = []) \/
                      timers (browser sa) = [(id, (t0 + 800)%Z)]).
    { rewrite A8, A9, Htm. simpl.
      destruct (t0 + 800 <=? Z.max (now (browser s)) t1)%Z; simpl; auto. }
    assert (Hn : navItems (refs (this sa)) = Some items)
      by (rewrite A1; apply Hi).
    subst sb. unfold onWindowScroll.
    destruct (truthy (rafScroll (this sa))) eqn:Htr.
    - split; [exact Hn|]. split; [|exact Htimers].
      rewrite A5. apply Hraf. rewrite <- A3. exact Htr.
    - simpl. split; [exact Hn|]. split; [|exact Htimers].
      intros Hq. destruct (rafQueue (browser sa)); discriminate Hq. }
  clearbody sb. destruct Hb as (Hn & Hq & Htimers).
  rewrite turns_cons. unfold turn. simpl fst; simpl snd.
  destruct (advance_spec t2 sb) as (B1 & B2 & B3 & B4 & B5 & B6 & B7 & B8 & B9).
  set (sc := advance t2 sb) in *. clearbody sc.
  assert (Hpc : permiteClickReciente (this sc) = false).
  { rewrite B9. destruct Htimers as [[Hpb Htb]|Htb]; rewrite Htb; simpl.
    - exact Hpb.
    - destruct (Z.leb_spec (t0 + 800) (Z.max (now (browser sb)) t2));
        [reflexivity|lia]. }
  unfold runFrame.
  destruct (frame_callbacks_clear items (rafQueue (browser sc))
              (with_rafQueue (fun _ => []) sc))
    as (s' & H1 & H2); [exact Hpc|simpl; rewrite B1; exact Hn|].
  exists s'. simpl. rewrite H1. split; [reflexivity|].
  apply H2. left. rewrite B5. exact Hq.
Qed.

(** C8. After a nav item is clicked at time [t0], scroll events and the
    frames that handle them leave the item active as long as they run
    before [t0 + 800]; a scroll event whose frame runs at [t0 + 800] or
    later clears the active class from every nav item. *)
Theorem scroll_suppression_window
        (s : State) (b n h : node) (items : list node) (item : node)
        (t0 : Z) (evs : list (Z * Occurrence)) :
  Initialized s b n h items ->
  WellTimed s ->
  item ∈ items ->
  present (doc (browser s)) item = true ->
  (now (browser s) <= t0)%Z ->
  Forall (fun ev => (fst ev < t0 + 800)%Z /\
                    (snd ev = WindowScrolled \/ snd ev = FrameRendered)) evs ->
  exists s1 s2,
    turn s (t0, NavItemActivated item) = Ok s1 /\
    turns evs s1 = Ok s2 /\
    activeItem s2 item = true /\
    forall t1 t2,
      (t0 + 800 <= t2)%Z ->
      exists s3,
        turns [(t1, WindowScrolled); (t2, FrameRendered)] s2 = Ok s3 /\
        forall i, i ∈ items -> activeItem s3 i = false.
Proof.
  intros Hi Hwt Hin Hp Hnow Hall.
  destruct (click_opens_window s b n h items item t0 Hi Hwt Hin Hp Hnow)
    as (s1 & H1 & W1).
  destruct (turns_in_window t0 b n h items item evs s1 W1 Hall)
    as (s2 & H2 & W2).
  exists s1, s2. split; [exact H1|]. split; [exact H2|].
  split; [apply W2|].
  intros t1 t2 Ht2.
  exact (scroll_after_window t0 b n h items item s2 t1 t2 W2 Ht2).
Qed.

Lemma navState_Initialized :
  Initialized Samples.navState 11 12 10 [20; 21; 22]%nat.
Proof. repeat split. Defined.

Lemma navState_WellTimed : WellTimed Samples.navState.
Proof.
  split; [vm_compute; lia|].
  split; [intros id H; vm_compute in H; discriminate H|].
  split; [intros p H; vm_compute in H; contradiction|].
  intros H. vm_compute in H. discriminate H.
Defined.

Lemma scroll_suppression_witness :
  exists s1 s2,
    turn Samples.navState (1000%Z, NavItemActivated 21) = Ok s1 /\
    turns [(1100%Z, WindowScrolled); (1116%Z, FrameRendered);
           (1500%Z, WindowScrolled)] s1 = Ok s2 /\
    activeItem s2 21 = true /\
    forall t1 t2,
      (1000 + 800 <= t2)%Z ->
      exists s3,
        turns [(t1, WindowScrolled); (t2, FrameRendered)] s2 = Ok s3 /\
        forall i, i ∈ [20; 21; 22]%nat -> activeItem s3 i = false.
Proof.
  apply (scroll_suppression_window
           Samples.navState 11 12 10 [20; 21; 22]%nat 21 1000%Z).
  - exact navState_Initialized.
  - exact navState_WellTimed.
  - repeat constructor.
  - reflexivity.
  - vm_compute. discriminate.
  - repeat constructor; simpl; auto; lia.
Defined.

(** C2: what [destroy] leaves behind.  On the sample page, after
    construction and [destroy()], the timer list and the frame queue are
    empty and the click listeners are gone, but the keydown listener of
    every nav item and of every language item is still attached. *)
Theorem destroy_leaves_item_keydown_listeners :
  exists s,
    destroy Samples.navState = Ok s /\
    listeners (browser s) =
    [ mkListener (TElement 20) "keydown" (mkFn 8 (NavItemKeydown 20));
      mkListener (TElement 21) "keydown" (mkFn 10 (NavItemKeydown 21));
      mkListener (TElement 22) "keydown" (mkFn 12 (NavItemKeydown 22));
      mkListener (TElement 32) "keydown" (mkFn 14 (LangItemKeydown 32));
      mkListener (TElement 33) "keydown" (mkFn 16 (LangItemKeydown 33)) ] /\
    timers (browser s) = [] /\ rafQueue (browser s) = [].
Proof.
  eexists. split; [vm_compute; reflexivity|].
  repeat split; vm_compute; reflexivity.
Qed.

(** C3: [destroy] on a controller built with [autoInit] false.  The nav
    item collection is still [null] when [destroy] iterates over it, so
    the call raises instead of doing nothing. *)
Theorem destroy_without_init_throws (b : Browser) (page : Page) :
  exists s, constructor b page false = Ok s /\ destroy s = TypeError.
Proof. eexists. split; reflexivity. Qed.

(** *** Initialisation and teardown *)

(** [init] is all or nothing: when the burger, the nav container, the
    header or every nav item is missing, construction attaches no
    listener and leaves the browser exactly as it found it. *)
Theorem init_aborts_without_required_elements (b : Browser) (page : Page) :
  qBurger page = None \/ qNav page = None \/ qHeader page = None \/
  qNavItems page = [] ->
  exists s,
    constructor b page true = Ok s /\
    browser s = b /\
    handlers (this s) = noHandlers /\
    navItems (refs (this s)) = Some (qNavItems page).
Proof.
  intros H. unfold constructor, init. simpl.
  destruct (qBurger page) as [x|] eqn:Hb;
    [|eexists; split; [reflexivity|]; repeat split].
  destruct (qNav page) as [y|] eqn:Hn;
    [|eexists; split; [reflexivity|]; repeat split].
  destruct (qHeader page) as [z|] eqn:Hh;
    [|eexists; split; [reflexivity|]; repeat split].
  destruct (qNavItems page) as [|i l] eqn:Hi.
  - simpl. eexists. split; [reflexivity|]. repeat split.
  - destruct H as [H|[H|[H|H]]]; discriminate H.
Qed.

Lemma init_abort_witness :
  exists s,
    constructor Samples.navBrowser
      (mkPage (Some 10%nat) (Some 11%nat) [] (Some 12%nat) None [] None) true
    = Ok s /\
    browser s = Samples.navBrowser /\
    handlers (this s) = noHandlers /\
    navItems (refs (this s)) = Some [].
Proof.
  apply (init_aborts_without_required_elements
           Samples.navBrowser
           (mkPage (Some 10%nat) (Some 11%nat) [] (Some 12%nat) None [] None)).
  right. right. right. reflexivity.
Defined.

Lemma fold_destroyNavItem_this items : forall s,
  this (fold_left destroyNavItem items s) = this s.
Proof.
  induction items as [|i items IH]; intros s; [reflexivity|].
  cbn [fold_left]. rewrite IH. unfold destroyNavItem.
  destruct (navClickHandler (browser s) !! i); reflexivity.
Qed.

Lemma fold_destroyLangItem_this items : forall s,
  this (fold_left destroyLangItem items s) = this s.
Proof.
  induction items as [|i items IH]; intros s; [reflexivity|].
  cbn [fold_left]. rewrite IH. unfold destroyLangItem.
  destruct (langClickHandler (browser s) !! i); reflexivity.
Qed.

(** The scheduler fields of the browser: the clock, the timer list, the
    frame queue and the next handle. *)
Let untouched (s' s : State) : Prop :=
  doc (browser s') = doc (browser s) /\
  timers (browser s') = timers (browser s) /\
  rafQueue (browser s') = rafQueue (browser s) /\
  nextHandle (browser s') = nextHandle (browser s) /\
  now (browser s') = now (browser s).

Lemma fold_destroyNavItem_untouched items : forall s,
  untouched (fold_left destroyNavItem items s) s.
Proof.
  induction items as [|i items IH]; intros s; [repeat split|].
  cbn [fold_left].
  destruct (IH (destroyNavItem s i)) as (H1 & H2 & H3 & H4 & H5).
  unfold untouched. rewrite H1, H2, H3, H4, H5. unfold destroyNavItem.
  destruct (navClickHandler (browser s) !! i); repeat split.
Qed.

Lemma fold_destroyLangItem_untouched items : forall s,
  untouched (fold_left destroyLangItem items s) s.
Proof.
  induction items as [|i items IH]; intros s; [repeat split|].
  cbn [fold_left].
  destruct (IH (destroyLangItem s i)) as (H1 & H2 & H3 & H4 & H5).
  unfold untouched. rewrite H1, H2, H3, H4, H5. unfold destroyLangItem.
  destruct (langClickHandler (browser s) !! i); repeat split.
Qed.

Lemma removeEventListener_this t ty f s :
  this (removeEventListener t ty f s) = this s.
Proof. destruct f; reflexivity. Qed.

Lemma removeEventListener_untouched t ty f s :
  untouched (removeEventListener t ty f s) s.
Proof. destruct f; repeat split. Qed.

(** The first half of [destroy]: the listeners it detaches. *)
Let unlisten (s : State) (items litems : list node) : State :=
  let r := refs (this s) in
  let h := handlers (this s) in
  let s := match burger r with
           | Some b =>
               removeEventListener (TElement b) "keydown" (onBurgerKeyDownH h)
                 (removeEventListener (TElement b) "click" (onBurgerClickH h) s)
           | None => s
           end in
  let s := match langMenu r with
           | Some m =>
               removeEventListener (TElement m) "keydown" (onLangMenuKeyDownH h)
                 (removeEventListener (TElement m) "click" (onLangMenuClickH h) s)
           | None => s
           end in
  let s := removeEventListener TDocument "click" (onDocClickH h) s in
  let s := removeEventListener TWindow "scroll" (onWindowScrollH h) s in
  fold_left destroyLangItem litems (fold_left destroyNavItem items s).

(** The second half: what it cancels and resets. *)
Let finish (s : State) : State :=
  let s := if truthy (clickTimeout (this s)) then
             match clickTimeout (this s) with
             | Some id => clearTimeout id s
             | None => s
             end
           else s in
  let s := if truthy (rafScroll (this s)) then
             match rafScroll (this s) with
             | Some id => cancelAnimationFrame id s
             | None => s
             end
           else s in
  with_handlers noHandlers
    (with_refs (mkRefs None None (Some []) None None (Some []) None) s).

Lemma destroy_eq s items litems :
  navItems (refs (this s)) = Some items ->
  langItems (refs (this s)) = Some litems ->
  destroy s = Ok (finish (unlisten s items litems)).
Proof.
  intros H1 H2. unfold destroy, finish, unlisten.
  rewrite H1, H2. reflexivity.
Qed.

Lemma destroy_Ok_inv s s' :
  destroy s = Ok s' ->
  exists items litems,
    navItems (refs (this s)) = Some items /\
    langItems (refs (this s)) = Some litems.
Proof.
  unfold destroy. intros H.
  destruct (navItems (refs (this s))) as [items|]; [|discriminate H].
  destruct (langItems (refs (this s))) as [litems|]; [|discriminate H].
  eauto.
Qed.

Lemma unlisten_this s items litems : this (unlisten s items litems) = this s.
Proof.
  unfold unlisten.
  rewrite fold_destroyLangItem_this, fold_destroyNavItem_this.
  rewrite !removeEventListener_this.
  destruct (langMenu (refs (this s))); rewrite ?removeEventListener_this;
    destruct (burger (refs (this s))); rewrite ?removeEventListener_this;
    reflexivity.
Qed.

Lemma filter_idem {A} (f : A -> bool) (l : list A) :
  List.filter f (List.filter f l) = List.filter f l.
Proof.
  induction l as [|x l IH]; [reflexivity|].
  simpl. destruct (f x) eqn:Hx; [|exact IH].
  simpl. rewrite Hx, IH. reflexivity.
Qed.

Lemma State_ext (s s' : State) :
  doc (browser s) = doc (browser s') ->
  listeners (browser s) = listeners (browser s') ->
  timers (browser s) = timers (browser s') ->
  rafQueue (browser s) = rafQueue (browser s') ->
  nextHandle (browser s) = nextHandle (browser s') ->
  now (browser s) = now (browser s') ->
  navClickHandler (browser s) = navClickHandler (browser s') ->
  langClickHandler (browser s) = langClickHandler (browser s') ->
  this s = this s' ->
  s = s'.
Proof.
  destruct s as [[] ?], s' as [[] ?]. simpl. intros. subst. reflexivity.
Qed.

Lemma finish_spec s :
  this (finish s)
  = mkThis (mkRefs None None (Some []) None None (Some []) None)
           (permiteClickReciente (this s)) (clickTimeout (this s))
           (rafScroll (this s)) noHandlers /\
  timers (browser (finish s))
  = match clickTimeout (this s) with
    | Some (S k) =>
        List.filter (fun p => negb (fst p =? S k)%nat) (timers (browser s))
    | _ => timers (browser s)
    end /\
  rafQueue (browser (finish s))
  = match rafScroll (this s) with
    | Some (S j) =>
        List.filter (fun x => negb (x =? S j)%nat) (rafQueue (browser s))
    | _ => rafQueue (browser s)
    end /\
  doc (browser (finish s)) = doc (browser s) /\
  listeners (browser (finish s)) = listeners (browser s) /\
  nextHandle (browser (finish s)) = nextHandle (browser s) /\
  now (browser (finish s)) = now (browser s) /\
  navClickHandler (browser (finish s)) = navClickHandler (browser s) /\
  langClickHandler (browser (finish s)) = langClickHandler (browser s).
Proof.
  unfold finish.
  destruct (clickTimeout (this s)) as [[|k]|] eqn:Hct;
    destruct (rafScroll (this s)) as [[|j]|] eqn:Hrs;
    cbn; rewrite ?Hct, ?Hrs; cbn; rewrite ?Hct, ?Hrs;
    repeat split; reflexivity.
Qed.

Lemma finish_idem s : finish (finish s) = finish s.
Proof.
  destruct (finish_spec s) as (H1 & H2 & H3 & H4 & H5 & H6 & H7 & H8 & H9).
  destruct (finish_spec (finish s))
    as (G1 & G2 & G3 & G4 & G5 & G6 & G7 & G8 & G9).
  apply State_ext; try congruence.
  - rewrite G2, H1, H2. simpl.
    destruct (clickTimeout (this s)) as [[|k]|]; try reflexivity.
    apply filter_idem.
  - rewrite G3, H1, H3. simpl.
    destruct (rafScroll (this s)) as [[|j]|]; try reflexivity.
    apply filter_idem.
  - rewrite G1, H1. reflexivity.
Qed.

(** [destroy] is idempotent: a second call changes nothing. *)
Theorem destroy_twice (s s1 : State) :
  destroy s = Ok s1 -> destroy s1 = Ok s1.
Proof.
  intros H. destruct (destroy_Ok_inv _ _ H) as (items & litems & H1 & H2).
  rewrite (destroy_eq _ _ _ H1 H2) in H. inversion H as [Hs1].
  rewrite (destroy_eq _ [] []) by reflexivity.
  f_equal. apply finish_idem.
Qed.

Lemma destroy_twice_witness :
  exists s1, destroy Samples.navState = Ok s1 /\ destroy s1 = Ok s1.
Proof.
  pose (s1 := match destroy Samples.navState with
              | Ok s => s
              | TypeError => Samples.navState
              end).
  assert (H : destroy Samples.navState = Ok s1) by (vm_compute; reflexivity).
  exists s1. split; [exact H|].
  exact (destroy_twice Samples.navState s1 H).
Defined.

Lemma constructor_abort (b : Browser) (page : Page) :
  qBurger page = None \/ qNav page = None \/ qHeader page = None \/
  qNavItems page = [] ->
  constructor b page true
  = Ok (mkState b
          (mkThis (mkRefs (qHeader page) (qBurger page) (Some (qNavItems page))
                          (qNav page) (qLangMenu page)
                          (Some (qLangItems page)) (qLangList page))
                  false None None noHandlers)).
Proof.
  intros H. unfold constructor, init. destruct b. simpl.
  destruct (qBurger page) as [x|] eqn:Hb; [|reflexivity].
  destruct (qNav page) as [y|] eqn:Hn; [|reflexivity].
  destruct (qHeader page) as [z|] eqn:Hh; [|reflexivity].
  destruct (qNavItems page) as [|i l] eqn:Hi; [reflexivity|].
  destruct H as [H|[H|[H|H]]]; discriminate H.
Qed.

Lemma fold_destroyNavItem_none items : forall s,
  navClickHandler (browser s) = ∅ -> fold_left destroyNavItem items s = s.
Proof.
  induction items as [|i items IH]; intros s H; [reflexivity|].
  cbn [fold_left]. unfold destroyNavItem at 2. rewrite H, lookup_empty.
  apply IH, H.
Qed.

Lemma fold_destroyLangItem_none items : forall s,
  langClickHandler (browser s) = ∅ -> fold_left destroyLangItem items s = s.
Proof.
  induction items as [|i items IH]; intros s H; [reflexivity|].
  cbn [fold_left]. unfold destroyLangItem at 2. rewrite H, lookup_empty.
  apply IH, H.
Qed.

(** [destroy] after an aborted [init] does not throw; on a page whose
    items carry no stored handler it leaves the listener table, the
    document, the timers and the frame queue as they were. *)
Theorem destroy_after_aborted_init (b : Browser) (page : Page) :
  qBurger page = None \/ qNav page = None \/ qHeader page = None \/
  qNavItems page = [] ->
  exists s s',
    constructor b page true = Ok s /\ destroy s = Ok s' /\
    (navClickHandler b = ∅ -> langClickHandler b = ∅ ->
     listeners (browser s') = listeners b /\
     doc (browser s') = doc b /\
     timers (browser s') = timers b /\
     rafQueue (browser s') = rafQueue b).
Proof.
  intros H. eexists. eexists.
  split; [apply (constructor_abort b page H)|].
  split; [apply (destroy_eq _ (qNavItems page) (qLangItems page));
          reflexivity|].
  intros Hn Hl.
  match goal with
  | |- context [finish ?u] =>
      destruct (finish_spec u) as (F1 & F2 & F3 & F4 & F5 & _);
      assert (Hu : u = mkState b
                (mkThis (mkRefs (qHeader page) (qBurger page)
                                (Some (qNavItems page)) (qNav page)
                                (qLangMenu page) (Some (qLangItems page))
                                (qLangList page))
                        false None None noHandlers))
  end.
  { unfold unlisten. simpl.
    destruct (qBurger page), (qLangMenu page); simpl;
      rewrite fold_destroyNavItem_none by exact Hn;
      apply fold_destroyLangItem_none; exact Hl. }
  rewrite F2, F3, F4, F5, Hu. simpl. repeat split.
Qed.

Lemma destroy_after_abort_witness :
  exists s s',
    constructor Samples.navBrowser
      (mkPage (Some 10%nat) None [20%nat] (Some 12%nat) None [] None) true
    = Ok s /\
    destroy s = Ok s' /\
    (navClickHandler Samples.navBrowser = ∅ ->
     langClickHandler Samples.navBrowser = ∅ ->
     listeners (browser s') = listeners Samples.navBrowser /\
     doc (browser s') = doc Samples.navBrowser /\
     timers (browser s') = timers Samples.navBrowser /\
     rafQueue (browser s') = rafQueue Samples.navBrowser).
Proof.
  apply (destroy_after_aborted_init
           Samples.navBrowser
           (mkPage (Some 10%nat) None [20%nat] (Some 12%nat) None [] None)).
  left. reflexivity.
Defined.

Lemma toggleMenuElements_null s :
  burger (refs (this s)) = None -> toggleMenuElements s = TypeError.
Proof. intros H. unfold toggleMenuElements. rewrite H. reflexivity. Qed.

Lemma onNavItemClick_null item s :
  burger (refs (this s)) = None -> onNavItemClick item s = TypeError.
Proof.
  intros H. unfold onNavItemClick.
  rewrite toggleMenuElements_null; [reflexivity|].
  destruct (clickTimeout (this (with_permite true s))) as [[|k]|];
    simpl; exact H.
Qed.

(** The keydown listeners that [destroy] leaves on the items are not
    harmless: once the controller is destroyed, Enter or Space on a nav
    item makes the leftover handler throw, because the burger reference
    is [null]; on a language item it does nothing. *)
Theorem item_keydown_after_destroy (s s' : State) (item : node) (e : Event) :
  destroy s = Ok s' ->
  activationKey e = true ->
  invoke (NavItemKeydown item) e s' = TypeError /\
  invoke (LangItemKeydown item) e s' = Ok s'.
Proof.
  intros H Hk. destruct (destroy_Ok_inv _ _ H) as (items & litems & H1 & H2).
  rewrite (destroy_eq _ _ _ H1 H2) in H. inversion H as [Hs']. clear H.
  match goal with
  | |- context [finish ?u] =>
      destruct (finish_spec u) as (F1 & _)
  end.
  simpl. rewrite Hk. split.
  - apply onNavItemClick_null. rewrite F1. reflexivity.
  - unfold onLangItemClick, toggleLangMenu. rewrite F1. reflexivity.
Qed.

Lemma item_keydown_after_destroy_witness :
  exists s',
    destroy Samples.navState = Ok s' /\
    invoke (NavItemKeydown 20) (mkEvent " " false false false) s' = TypeError /\
    invoke (LangItemKeydown 32) (mkEvent " " false false false) s' = Ok s'.
Proof.
  pose (s1 := match destroy Samples.navState with
              | Ok s => s
              | TypeError => Samples.navState
              end).
  assert (H : destroy Samples.navState = Ok s1) by (vm_compute; reflexivity).
  exists s1. split; [exact H|].
  exact (item_keydown_after_destroy Samples.navState s1 20
           (mkEvent " " false false false) H eq_refl).
Defined.

(** *** Scheduling *)

(** Scroll events that arrive before the frame runs are coalesced: any
    number of them leaves the state the first one produced, with its
    single scheduled callback. *)
Theorem scroll_events_coalesce (s : State) (k : nat) :
  (0 < nextHandle (browser s))%nat ->
  Nat.iter (S k) onWindowScroll s = onWindowScroll s.
Proof.
  intros Hpos. induction k as [|k IH]; [reflexivity|].
  change (Nat.iter (S (S k)) onWindowScroll s)
    with (onWindowScroll (Nat.iter (S k) onWindowScroll s)).
  rewrite IH. unfold onWindowScroll at 1.
  destruct (truthy (rafScroll (this (onWindowScroll s)))) eqn:Htr;
    [reflexivity|].
  exfalso. unfold onWindowScroll in Htr.
  destruct (truthy (rafScroll (this s))) eqn:Hs; [congruence|].
  simpl in Htr. destruct (nextHandle (browser s)); [lia|discriminate Htr].
Qed.

Lemma scroll_events_coalesce_witness :
  Nat.iter 3 onWindowScroll Samples.navState = onWindowScroll Samples.navState.
Proof.
  apply (scroll_events_coalesce Samples.navState 2).
  vm_compute. lia.
Defined.

Lemma frame_callbacks_spec items (q : list nat) : forall s,
  navItems (refs (this s)) = Some items ->
  exists s',
    fold_left (fun r _ => let! s := r in scrollFrameCallback s) q (Ok s)
    = Ok s' /\
    refs (this s') = refs (this s) /\
    permiteClickReciente (this s') = permiteClickReciente (this s) /\
    clickTimeout (this s') = clickTimeout (this s) /\
    timers (browser s') = timers (browser s) /\
    rafQueue (browser s') = rafQueue (browser s) /\
    nextHandle (browser s') = nextHandle (browser s) /\
    now (browser s') = now (browser s) /\
    rafScroll (this s') = match q with
                          | [] => rafScroll (this s)
                          | _ => None
                          end.
Proof.
  induction q as [|x q IH]; intros s Hn.
  - exists s. repeat split.
  - cbn [fold_left]. unfold bind at 2, scrollFrameCallback at 2.
    unfold deactivateAllNavItems. rewrite Hn.
    destruct (permiteClickReciente (this s)) eqn:Hp; simpl.
    + match goal with
      | |- context [fold_left _ q (Ok ?s1)] =>
          destruct (IH s1) as (s' & H0 & H1 & H2 & H3 & H4 & H5 & H6 & H7 & H8);
            [exact Hn|]
      end.
      exists s'. simpl in *. rewrite H0, H1, H2, H3, H4, H5, H6, H7, H8, Hp.
      repeat split. destruct q; reflexivity.
    + match goal with
      | |- context [fold_left _ q (Ok ?s1)] =>
          destruct (IH s1) as (s' & H0 & H1 & H2 & H3 & H4 & H5 & H6 & H7 & H8);
            [exact Hn|]
      end.
      exists s'. simpl in *. rewrite H0, H1, H2, H3, H4, H5, H6, H7, H8, Hp.
      repeat split. destruct q; reflexivity.
Qed.

Lemma turn_safe
        (s : State) (b n h : node) (items : list node)
        (ev : Z * Occurrence) :
  Initialized s b n h items ->
  Tidy s ->
  exists s',
    turn s ev = Ok s' /\ Initialized s' b n h items /\ Tidy s' /\
    (length (timers (browser s')) <= 1)%nat /\
    (length (rafQueue (browser s')) <= 1)%nat.
Proof.
  intros Hi (Hpos & Hct & Htm & Hrq).
  destruct (advance_spec (fst ev) s)
    as (A1 & A2 & A3 & A4 & A5 & A6 & A7 & A8 & A9).
  unfold turn. set (sa := advance (fst ev) s) in *. clearbody sa.
  assert (Hia : Initialized sa b n h items)
    by (unfold Initialized; rewrite A1; exact Hi).
  assert (Htma : timers (browser sa) = [] \/
                 exists id due, timers (browser sa) = [(id, due)] /\
                                clickTimeout (this sa) = Some id /\
                                (0 < id)%nat).
  { rewrite A8, A2. destruct Htm as [->|(id & due & -> & Hc & Hid)];
      [left; reflexivity|]. simpl.
    destruct (due <=? Z.max (now (browser s)) (fst ev))%Z; simpl;
      [left; reflexivity|right; eauto]. }
  assert (Hrqa : (rafQueue (browser sa) = [] /\
                  truthy (rafScroll (this sa)) = false) \/
                 exists id, rafQueue (browser sa) = [id] /\
                            rafScroll (this sa) = Some id /\ (0 < id)%nat)
    by (rewrite A5, A3; exact Hrq).
  assert (Hcta : forall id, clickTimeout (this sa) = Some id -> (0 < id)%nat)
    by (rewrite A2; exact Hct).
  assert (Hlen : forall s',
             Tidy s' ->
             (length (timers (browser s')) <= 1)%nat /\
             (length (rafQueue (browser s')) <= 1)%nat).
  { intros s' (_ & _ & [->|(? & ? & -> & _)] & [[-> _]|(? & -> & _)]);
      simpl; lia. }
  destruct (snd ev) as [item| |].
  - destruct (onNavItemClick_spec sa b n h items item Hia)
      as (s1 & C0 & C1 & C2 & C3 & C4 & C5 & C6 & C7 & C8 & C9 & C10).
    exists s1. split; [exact C0|].
    assert (Ht : Tidy s1).
    { unfold Tidy. rewrite C4, C5, C7, C8, C9, A6.
      split; [lia|]. split; [intros id Hid; congruence|].
      split; [|exact Hrqa].
      right. exists (nextHandle (browser s)), (now (browser sa) + 800)%Z.
      split; [|split; [reflexivity|exact Hpos]].
      unfold clearedTimers.
      destruct Htma as [->|(id & due & -> & -> & Hid)].
      - destruct (clickTimeout (this sa)) as [[|k]|]; reflexivity.
      - destruct id as [|k]; [lia|]. simpl. rewrite Nat.eqb_refl.
        reflexivity. }
    split; [unfold Initialized; rewrite C1; exact Hia|].
    split; [exact Ht|apply Hlen, Ht].
  - eexists. split; [reflexivity|].
    assert (Ht : Tidy (onWindowScroll sa)).
    { unfold onWindowScroll.
      destruct (truthy (rafScroll (this sa))) eqn:Htr.
      - unfold Tidy. rewrite A6.
        split; [exact Hpos|split; [exact Hcta|split; [exact Htma|]]].
        destruct Hrqa as [[_ Hf]|Hex]; [discriminate Hf|right; exact Hex].
      - unfold Tidy. simpl. rewrite A6. split; [lia|].
        split; [exact Hcta|]. split; [exact Htma|].
        right. exists (nextHandle (browser s)).
        destruct Hrqa as [[-> _]|(id & _ & Hr & Hid)].
        + repeat split. exact Hpos.
        + rewrite Hr in Htr. destruct id; [lia|discriminate Htr]. }
    split; [|split; [exact Ht|apply Hlen, Ht]].
    unfold onWindowScroll.
    destruct (truthy (rafScroll (this sa))); exact Hia.
  - unfold runFrame.
    destruct (frame_callbacks_spec items (rafQueue (browser sa))
                (with_rafQueue (fun _ => []) sa))
      as (s' & H0 & H1 & H2 & H3 & H4 & H5 & H6 & H7 & H8);
      [apply Hia|].
    exists s'. split; [exact H0|]. simpl in *.
    assert (Ht : Tidy s').
    { unfold Tidy. rewrite H3, H4, H5, H6, H8, A6.
      split; [exact Hpos|]. split; [exact Hcta|]. split; [exact Htma|]. left.
      split; [reflexivity|].
      destruct Hrqa as [[-> Hf]|(id & -> & _)]; [exact Hf|reflexivity]. }
    split; [unfold Initialized; rewrite H1; exact Hia|].
    split; [exact Ht|apply Hlen, Ht].
Qed.

(** After a successful [init], no turn of the event loop throws, and
    every turn keeps the controller initialised with at most one timeout
    and at most one frame callback pending. *)
Theorem event_loop_is_safe
        (s : State) (b n h : node) (items : list node)
        (ev : Z * Occurrence) :
  Initialized s b n h items ->
  Tidy s ->
  exists s',
    turn s ev = Ok s' /\ Initialized s' b n h items /\ Tidy s' /\
    (length (timers (browser s')) <= 1)%nat /\
    (length (rafQueue (browser s')) <= 1)%nat.
Proof. exact (turn_safe s b n h items ev). Qed.

Lemma navState_Tidy : Tidy Samples.navState.
Proof.
  split; [vm_compute; lia|].
  split; [intros id H; vm_compute in H; discriminate H|].
  split; left; [reflexivity|]. split; reflexivity.
Defined.

Lemma event_loop_witness :
  exists s',
    turn Samples.navState (40%Z, WindowScrolled) = Ok s' /\
    Initialized s' 11 12 10 [20; 21; 22]%nat /\ Tidy s' /\
    (length (timers (browser s')) <= 1)%nat /\
    (length (rafQueue (browser s')) <= 1)%nat.
Proof.
  apply (event_loop_is_safe Samples.navState 11 12 10 [20; 21; 22]%nat).
  - exact navState_Initialized.
  - exact navState_Tidy.
Defined.

Ltac only_listeners :=
  unfold onlyListeners; cbn; repeat split; first [reflexivity | lia].

Lemma onlyListeners_refl s : onlyListeners s s.
Proof. only_listeners. Qed.

Lemma onlyListeners_trans s1 s2 s3 :
  onlyListeners s3 s2 -> onlyListeners s2 s1 -> onlyListeners s3 s1.
Proof.
  unfold onlyListeners.
  intros (A1 & A2 & A3 & A4 & A5 & A6 & A7 & A8 & A9)
         (B1 & B2 & B3 & B4 & B5 & B6 & B7 & B8 & B9).
  repeat split; try congruence. lia.
Qed.

Lemma addEventListener_only t ty f s :
  onlyListeners (addEventListener t ty f s) s.
Proof.
  unfold addEventListener.
  destruct (existsb (sameListener t ty f) (listeners (browser s)));
    only_listeners.
Qed.

Lemma setupNavItem_only s item : onlyListeners (setupNavItem s item) s.
Proof.
  unfold setupNavItem, newFn. cbn -[addEventListener].
  eapply onlyListeners_trans with
    (s2 := addEventListener _ _ _ _);
    [only_listeners|].
  eapply onlyListeners_trans; [apply addEventListener_only|].
  eapply onlyListeners_trans with
    (s2 := addEventListener _ _ _ _);
    [only_listeners|].
  eapply onlyListeners_trans; [apply addEventListener_only|].
  only_listeners.
Qed.

Lemma setupLangItem_only s item : onlyListeners (setupLangItem s item) s.
Proof.
  unfold setupLangItem, newFn. cbn -[addEventListener].
  eapply onlyListeners_trans with
    (s2 := addEventListener _ _ _ _);
    [only_listeners|].
  eapply onlyListeners_trans; [apply addEventListener_only|].
  eapply onlyListeners_trans with
    (s2 := addEventListener _ _ _ _);
    [only_listeners|].
  eapply onlyListeners_trans; [apply addEventListener_only|].
  only_listeners.
Qed.

Lemma fold_only (f : State -> node -> State) items :
  (forall s i, onlyListeners (f s i) s) ->
  forall s, onlyListeners (fold_left f items s) s.
Proof.
  intros Hf. induction items as [|i items IH]; intros s;
    [apply onlyListeners_refl|].
  cbn [fold_left]. eapply onlyListeners_trans; [apply IH|apply Hf].
Qed.

Lemma setupEventListeners_only s bg items litems :
  burger (refs (this s)) = Some bg ->
  navItems (refs (this s)) = Some items ->
  langItems (refs (this s)) = Some litems ->
  exists s', setupEventListeners s = Ok s' /\ onlyListeners s' s.
Proof.
  intros Hb Hn Hl. unfold setupEventListeners, newFn.
  cbn -[addEventListener setupNavItem setupLangItem fold_left].
  rewrite Hb, Hn, Hl.
  cbn -[addEventListener setupNavItem setupLangItem fold_left].
  eexists. split; [reflexivity|].
  eapply onlyListeners_trans; [apply addEventListener_only|].
  eapply onlyListeners_trans; [apply fold_only, setupLangItem_only|].
  eapply onlyListeners_trans; [apply fold_only, setupNavItem_only|].
  eapply onlyListeners_trans; [apply addEventListener_only|].
  destruct (langMenu (refs (this s))).
  - eapply onlyListeners_trans; [apply addEventListener_only|].
    eapply onlyListeners_trans; [apply addEventListener_only|].
    eapply onlyListeners_trans; [apply addEventListener_only|].
    eapply onlyListeners_trans; [apply addEventListener_only|].
    only_listeners.
  - eapply onlyListeners_trans; [apply addEventListener_only|].
    eapply onlyListeners_trans; [apply addEventListener_only|].
    only_listeners.
Qed.

(** A construction that finds the required elements succeeds and leaves
    the controller initialised: it holds its elements, the suppression
    flag is off, nothing is scheduled (no timeout, no frame callback,
    none recorded), and aria-expanded is "false" on the burger button
    and on the language menu. *)
Theorem constructor_initializes
        (b : Browser) (page : Page) (bg nv hd : node) :
  qBurger page = Some bg ->
  qNav page = Some nv ->
  qHeader page = Some hd ->
  qNavItems page <> [] ->
  timers b = [] -> rafQueue b = [] -> (0 < nextHandle b)%nat ->
  exists s,
    constructor b page true = Ok s /\
    Initialized s bg nv hd (qNavItems page) /\
    Tidy s /\
    timers (browser s) = [] /\ rafQueue (browser s) = [] /\
    clickTimeout (this s) = None /\ rafScroll (this s) = None /\
    permiteClickReciente (this s) = false /\
    (present (doc b) bg = true ->
     getAriaExpanded (doc (browser s)) bg = Some "false") /\
    (forall m, qLangMenu page = Some m -> present (doc b) m = true ->
               getAriaExpanded (doc (browser s)) m = Some "false").
Proof.
  intros Hb Hn Hh Hi Htm Hrq Hpos.
  unfold constructor, init. cbn -[setupEventListeners].
  rewrite Hb, Hn, Hh.
  destruct (qNavItems page) as [|i items] eqn:Hitems; [congruence|].
  cbn -[setupEventListeners].
  match goal with
  | |- context [setupEventListeners ?s0] =>
      destruct (setupEventListeners_only s0 bg (i :: items) (qLangItems page))
        as (s' & H0 & H1 & H2 & H3 & H4 & H5 & H6 & H7 & H8 & H9);
        [destruct (qLangMenu page); reflexivity ..|]
  end.
  exists s'. split; [exact H0|].
  assert (Hrefs : refs (this s')
                  = mkRefs (Some hd) (Some bg) (Some (i :: items)) (Some nv)
                           (qLangMenu page) (Some (qLangItems page))
                           (qLangList page)).
  { rewrite H1. destruct (qLangMenu page); reflexivity. }
  split; [unfold Initialized; rewrite Hrefs; repeat split|].
  split.
  { unfold Tidy. rewrite H3, H4, H6, H7.
    split; [|split; [|split]].
    - eapply Nat.lt_le_trans; [|exact H9].
      destruct (qLangMenu page); exact Hpos.
    - intros id Hid. destruct (qLangMenu page); discriminate Hid.
    - left. destruct (qLangMenu page); exact Htm.
    - left. split; destruct (qLangMenu page); try exact Hrq; reflexivity. }
  split; [rewrite H6; destruct (qLangMenu page); exact Htm|].
  split; [rewrite H7; destruct (qLangMenu page); exact Hrq|].
  split; [rewrite H3; destruct (qLangMenu page); reflexivity|].
  split; [rewrite H4; destruct (qLangMenu page); reflexivity|].
  split; [rewrite H2; destruct (qLangMenu page); reflexivity|].
  rewrite H5. split.
  - intros Hp. destruct (qLangMenu page) as [m|]; cbn.
    + rewrite getAria_set, present_setAriaExpanded, Hp, getAria_set, Hp.
      rewrite (bool_decide_eq_true_2 (bg = bg)) by reflexivity.
      destruct (bool_decide (m = bg)); reflexivity.
    + rewrite getAria_set, Hp.
      rewrite bool_decide_eq_true_2 by reflexivity. reflexivity.
  - intros m Hm Hp. rewrite Hm. cbn.
    rewrite getAria_set, present_setAriaExpanded, Hp.
    rewrite bool_decide_eq_true_2 by reflexivity. reflexivity.
Qed.

Lemma constructor_initializes_witness :
  exists s,
    constructor Samples.navBrowser Samples.navPage true = Ok s /\
    Initialized s 11 12 10 [20; 21; 22]%nat /\
    Tidy s /\
    timers (browser s) = [] /\ rafQueue (browser s) = [] /\
    clickTimeout (this s) = None /\ rafScroll (this s) = None /\
    permiteClickReciente (this s) = false /\
    (present Samples.navDoc 11 = true ->
     getAriaExpanded (doc (browser s)) 11 = Some "false") /\
    (forall m, Some 30%nat = Some m -> present Samples.navDoc m = true ->
               getAriaExpanded (doc (browser s)) m = Some "false").
Proof.
  apply (constructor_initializes Samples.navBrowser Samples.navPage 11 12 10);
    try reflexivity.
  - discriminate.
  - simpl. lia.
Defined.

(** *** The language dropdown *)

Lemma toggleLangMenu_doc s m :
  langMenu (refs (this s)) = Some m ->
  doc (browser (toggleLangMenu s))
  = setAriaExpanded m
      (if snd (classToggle m "header__nav-langmenu--active"
                 (match langList (refs (this s)) with
                  | Some l =>
                      fst (classToggle l "header__nav-langlist--active"
                             (doc (browser s)))
                  | None => doc (browser s)
                  end))
       then "true" else "false")
      (fst (classToggle m "header__nav-langmenu--active"
              (match langList (refs (this s)) with
               | Some l =>
                   fst (classToggle l "header__nav-langlist--active"
                          (doc (browser s)))
               | None => doc (browser s)
               end))).
Proof.
  intros Hm. unfold toggleLangMenu. rewrite Hm.
  destruct (langList (refs (this s))); reflexivity.
Qed.

Lemma toggleLangMenu_effect (s : State) (m : node) :
  langMenu (refs (this s)) = Some m ->
  present (doc (browser s)) m = true ->
  let d := doc (browser s) in
  let d' := doc (browser (toggleLangMenu s)) in
  hasClass d' m "header__nav-langmenu--active"
  = negb (hasClass d m "header__nav-langmenu--active") /\
  getAriaExpanded d' m
  = Some (if hasClass d' m "header__nav-langmenu--active"
          then "true" else "false") /\
  (forall l, langList (refs (this s)) = Some l ->
             present d l = true ->
             hasClass d' l "header__nav-langlist--active"
             = negb (hasClass d l "header__nav-langlist--active")).
Proof.
  intros Hm Hp d d'. subst d d'.
  rewrite (toggleLangMenu_doc s m Hm).
  set (d := doc (browser s)) in *.
  set (d1 := match langList (refs (this s)) with
             | Some l => fst (classToggle l "header__nav-langlist--active" d)
             | None => d
             end).
  assert (Hp1 : present d1 m = true).
  { subst d1. destruct (langList (refs (this s)));
      [rewrite present_classToggle|]; exact Hp. }
  assert (Hc1 : hasClass d1 m "header__nav-langmenu--active"
                = hasClass d m "header__nav-langmenu--active").
  { subst d1. destruct (langList (refs (this s))) as [l|]; [|reflexivity].
    rewrite hasClass_toggle.
    change (String.eqb "header__nav-langlist--active"
                       "header__nav-langmenu--active") with false.
    rewrite andb_false_r. apply xorb_false_r. }
  assert (Hflip : hasClass
                    (setAriaExpanded m
                       (if snd (classToggle m "header__nav-langmenu--active" d1)
                        then "true" else "false")
                       (fst (classToggle m "header__nav-langmenu--active" d1)))
                    m "header__nav-langmenu--active"
                  = negb (hasClass d m "header__nav-langmenu--active")).
  { rewrite hasClass_setAriaExpanded, hasClass_toggle, Hp1, Hc1.
    rewrite bool_decide_eq_true_2 by reflexivity.
    destruct (hasClass d m "header__nav-langmenu--active"); reflexivity. }
  split; [exact Hflip|]. split.
  - rewrite Hflip, snd_classToggle, Hp1, Hc1.
    rewrite getAria_set, present_classToggle, Hp1.
    rewrite bool_decide_eq_true_2 by reflexivity.
    destruct (hasClass d m "header__nav-langmenu--active"); reflexivity.
  - intros l Hl Hpl. subst d1. rewrite Hl.
    rewrite hasClass_setAriaExpanded, !hasClass_toggle, Hpl.
    rewrite (bool_decide_eq_true_2 (l = l)) by reflexivity.
    change (String.eqb "header__nav-langmenu--active"
                       "header__nav-langlist--active") with false.
    rewrite andb_false_r. simpl.
    destruct (hasClass d l "header__nav-langlist--active"); reflexivity.
Qed.

(** Toggling the language dropdown flips the active class of the menu
    and of the list, and aria-expanded on the menu says "true" exactly
    when the menu carries its active class afterwards. *)
Theorem language_toggle_mirrors_aria (s : State) (m : node) (e : Event) :
  langMenu (refs (this s)) = Some m ->
  present (doc (browser s)) m = true ->
  let d := doc (browser s) in
  let d' := doc (browser (onLangMenuClick e s)) in
  hasClass d' m "header__nav-langmenu--active"
  = negb (hasClass d m "header__nav-langmenu--active") /\
  getAriaExpanded d' m
  = Some (if hasClass d' m "header__nav-langmenu--active"
          then "true" else "false") /\
  (forall l, langList (refs (this s)) = Some l ->
             present d l = true ->
             hasClass d' l "header__nav-langlist--active"
             = negb (hasClass d l "header__nav-langlist--active")).
Proof. intros Hm Hp. exact (toggleLangMenu_effect s m Hm Hp). Qed.

Lemma language_toggle_witness :
  let d := doc (browser Samples.navState) in
  let d' := doc (browser (onLangMenuClick (mkEvent "" false true false)
                                           Samples.navState)) in
  hasClass d' 30 "header__nav-langmenu--active"
  = negb (hasClass d 30 "header__nav-langmenu--active") /\
  getAriaExpanded d' 30
  = Some (if hasClass d' 30 "header__nav-langmenu--active"
          then "true" else "false") /\
  (forall l, langList (refs (this Samples.navState)) = Some l ->
             present d l = true ->
             hasClass d' l "header__nav-langlist--active"
             = negb (hasClass d l "header__nav-langlist--active")).
Proof.
  exact (language_toggle_mirrors_aria
           Samples.navState 30 (mkEvent "" false true false)
           eq_refl eq_refl).
Defined.

(** Clicking a language item of an open dropdown closes it: the menu
    and the list lose their active classes and aria-expanded becomes
    "false". *)
Theorem language_item_click_closes_open_dropdown
        (s : State) (m l item : node) (e : Event) :
  langMenu (refs (this s)) = Some m ->
  langList (refs (this s)) = Some l ->
  present (doc (browser s)) m = true ->
  hasClass (doc (browser s)) m "header__nav-langmenu--active" = true ->
  hasClass (doc (browser s)) l "header__nav-langlist--active" = true ->
  exists s',
    invoke (LangItemHandler item) e s = Ok s' /\
    hasClass (doc (browser s')) m "header__nav-langmenu--active" = false /\
    hasClass (doc (browser s')) l "header__nav-langlist--active" = false /\
    getAriaExpanded (doc (browser s')) m = Some "false".
Proof.
  intros Hm Hl Hp Hom Hol. eexists. split; [reflexivity|].
  unfold onLangItemClick.
  destruct (toggleLangMenu_effect s m Hm Hp) as (H1 & H2 & H3).
  assert (Hpl : present (doc (browser s)) l = true).
  { destruct (present (doc (browser s)) l) eqn:Hpl; [reflexivity|].
    rewrite (hasClass_absent _ _ _ Hpl) in Hol. discriminate Hol. }
  rewrite H2, H1, (H3 l Hl Hpl), Hom, Hol. repeat split.
Qed.

Lemma language_item_click_witness :
  exists s',
    invoke (LangItemHandler 32) (mkEvent "" false false false)
           (onLangMenuClick (mkEvent "" false true false) Samples.navState)
    = Ok s' /\
    hasClass (doc (browser s')) 30 "header__nav-langmenu--active" = false /\
    hasClass (doc (browser s')) 31 "header__nav-langlist--active" = false /\
    getAriaExpanded (doc (browser s')) 30 = Some "false".
Proof.
  apply (language_item_click_closes_open_dropdown
          (onLangMenuClick (mkEvent "" false true false) Samples.navState)
          30 31 32); reflexivity.
Defined.

(** A click outside the language menu and its list leaves the list
    without its active class; if the list was open, the menu is closed
    with it.  A click inside changes nothing. *)
Theorem document_click_closes_language_menu
        (s : State) (l m : node) (e : Event) :
  langList (refs (this s)) = Some l ->
  langMenu (refs (this s)) = Some m ->
  (inLangList e = true \/ isLangMenu e = true \/ inLangMenu e = true ->
   onDocumentClick e s = s) /\
  (inLangList e = false -> isLangMenu e = false -> inLangMenu e = false ->
   let d' := doc (browser (onDocumentClick e s)) in
   hasClass d' l "header__nav-langlist--active" = false /\
   (hasClass (doc (browser s)) l "header__nav-langlist--active" = true ->
    hasClass d' m "header__nav-langmenu--active" = false /\
    (present (doc (browser s)) m = true ->
     getAriaExpanded d' m = Some "false"))).
Proof.
  intros Hl Hm. unfold onDocumentClick. rewrite Hl, Hm. split.
  - intros H.
    destruct (hasClass (doc (browser s)) l "header__nav-langlist--active");
      [|reflexivity].
    destruct H as [ -> | [ -> | -> ] ]; simpl; rewrite ?andb_false_r;
      reflexivity.
  - intros -> -> ->. simpl.
    destruct (hasClass (doc (browser s)) l "header__nav-langlist--active")
      eqn:Hopen.
    + rewrite closeLangMenu_eq, Hl, Hm.
      cbn -[langClosed hasClass getAriaExpanded]. split.
      * rewrite hasClass_langClosed.
        destruct (bool_decide (m = l)
                  && String.eqb "header__nav-langmenu--active"
                                "header__nav-langlist--active");
          [reflexivity|].
        rewrite bool_decide_eq_true_2 by reflexivity. reflexivity.
      * intros _. split.
        -- rewrite hasClass_langClosed, bool_decide_eq_true_2 by reflexivity.
           reflexivity.
        -- intros Hp. rewrite getAria_langClosed, Hp.
           rewrite bool_decide_eq_true_2 by reflexivity. reflexivity.
    + split; [exact Hopen|]. intros H. discriminate H.
Qed.

Lemma document_click_witness :
  (inLangList (mkEvent "" false false false) = true \/
   isLangMenu (mkEvent "" false false false) = true \/
   inLangMenu (mkEvent "" false false false) = true ->
   onDocumentClick (mkEvent "" false false false) Samples.navState
   = Samples.navState) /\
  (inLangList (mkEvent "" false false false) = false ->
   isLangMenu (mkEvent "" false false false) = false ->
   inLangMenu (mkEvent "" false false false) = false ->
   let d' := doc (browser (onDocumentClick (mkEvent "" false false false)
                                           Samples.navState)) in
   hasClass d' 31 "header__nav-langlist--active" = false /\
   (hasClass (doc (browser Samples.navState)) 31
             "header__nav-langlist--active" = true ->
    hasClass d' 30 "header__nav-langmenu--active" = false /\
    (present (doc (browser Samples.navState)) 30 = true ->
     getAriaExpanded d' 30 = Some "false"))).
Proof.
  exact (document_click_closes_language_menu
           Samples.navState 31 30 (mkEvent "" false false false)
           eq_refl eq_refl).
Defined.

(** *** Clicking again within the window *)

Lemma Tidy_WellTimed s : Tidy s -> WellTimed s.
Proof.
  intros (Hpos & Hct & Htm & Hrq). unfold WellTimed.
  split; [exact Hpos|]. split; [exact Hct|]. split.
  - intros p Hp. destruct Htm as [Htm|(id & due & Htm & Hc & _)];
      rewrite Htm in Hp; [destruct Hp|].
    destruct Hp as [<-|[]]. exact Hc.
  - intros Htr. destruct Hrq as [[_ Hf]|(id & Hq & _)];
      [congruence|rewrite Hq; discriminate].
Qed.

Lemma click_clock s b n h items item t s' :
  Initialized s b n h items ->
  turn s (t, NavItemActivated item) = Ok s' ->
  now (browser s') = Z.max (now (browser s)) t.
Proof.
  intros Hi Hrun. unfold turn in Hrun. simpl in Hrun.
  destruct (advance_spec t s) as (A1 & _ & _ & _ & _ & _ & A7 & _).
  assert (Hia : Initialized (advance t s) b n h items)
    by (unfold Initialized; rewrite A1; exact Hi).
  destruct (onNavItemClick_spec _ b n h items item Hia)
    as (s1 & C0 & _ & _ & _ & _ & _ & C6 & _).
  rewrite C0 in Hrun. inversion Hrun. subst s1. rewrite C6. exact A7.
Qed.

(** A second click inside the window restarts it: the timeout of the
    first click is cancelled, so scroll events and frames keep the newly
    clicked item active until 800 ms after the second click, also past
    the moment the first window would have ended. *)
Theorem second_click_restarts_window
        (s : State) (b n h : node) (items : list node) (first item : node)
        (t0 t1 : Z) (evs : list (Z * Occurrence)) :
  Initialized s b n h items ->
  Tidy s ->
  item ∈ items ->
  present (doc (browser s)) item = true ->
  (now (browser s) <= t0)%Z -> (t0 <= t1)%Z ->
  Forall (fun ev => (fst ev < t1 + 800)%Z /\
                    (snd ev = WindowScrolled \/ snd ev = FrameRendered)) evs ->
  exists s1 s2 s3,
    turn s (t0, NavItemActivated first) = Ok s1 /\
    turn s1 (t1, NavItemActivated item) = Ok s2 /\
    turns evs s2 = Ok s3 /\
    (exists id, timers (browser s2) = [(id, (t1 + 800)%Z)]) /\
    activeItem s3 item = true.
Proof.
  intros Hi Ht Hin Hp Hnow Ht01 Hall.
  destruct (turn_safe s b n h items (t0, NavItemActivated first) Hi Ht)
    as (s1 & R1 & Hi1 & Ht1 & _).
  pose proof (click_clock _ _ _ _ _ _ _ _ Hi R1) as Hclock.
  assert (Hp1 : present (doc (browser s1)) item = true).
  { unfold turn in R1. simpl in R1.
    destruct (advance_spec t0 s) as (A1 & _ & _ & A4 & _).
    assert (Hia : Initialized (advance t0 s) b n h items)
      by (unfold Initialized; rewrite A1; exact Hi).
    destruct (onNavItemClick_spec _ b n h items first Hia)
      as (x & C0 & _ & C2 & _).
    rewrite C0 in R1. inversion R1. subst x. rewrite C2.
    unfold activatedDoc.
    rewrite present_classToggle, present_fold_remove, present_menuToggled, A4.
    exact Hp. }
  destruct (click_opens_window s1 b n h items item t1 Hi1
              (Tidy_WellTimed _ Ht1) Hin Hp1)
    as (s2 & R2 & W2); [lia|].
  destruct (turns_in_window t1 b n h items item evs s2 W2 Hall)
    as (s3 & R3 & W3).
  exists s1, s2, s3.
  split; [exact R1|]. split; [exact R2|]. split; [exact R3|].
  split; [apply W2|apply W3].
Qed.

Lemma second_click_witness :
  exists s1 s2 s3,
    turn Samples.navState (1000%Z, NavItemActivated 20) = Ok s1 /\
    turn s1 (1500%Z, NavItemActivated 21) = Ok s2 /\
    turns [(1900%Z, WindowScrolled); (1916%Z, FrameRendered)] s2 = Ok s3 /\
    (exists id, timers (browser s2) = [(id, (1500 + 800)%Z)]) /\
    activeItem s3 21 = true.
Proof.
  apply (second_click_restarts_window
           Samples.navState 11 12 10 [20; 21; 22]%nat 20 21 1000 1500).
  - exact navState_Initialized.
  - exact navState_Tidy.
  - repeat constructor.
  - reflexivity.
  - vm_compute. discriminate.
  - lia.
  - repeat constructor; simpl; auto; lia.
Defined.

(** *** The listeners that outlive [destroy] *)

(** The listener is one of the anonymous keydown arrows of the items. *)
Let ItemKeydown (l : Listener) : Prop :=
  match fnCode (lFn l) with
  | NavItemKeydown _ | LangItemKeydown _ => True
  | _ => False
  end.

(** The function objects [destroy] can name: the bound handlers it reads
    from [this._handlers] and the handlers stored on the items. *)
Let Stored (s : State) (f : fn) : Prop :=
  In (Some f)
     [onBurgerClickH (handlers (this s)); onBurgerKeyDownH (handlers (this s));
      onDocClickH (handlers (this s)); onLangMenuClickH (handlers (this s));
      onLangMenuKeyDownH (handlers (this s));
      onWindowScrollH (handlers (this s))] \/
  (exists i, navClickHandler (browser s) !! i = Some f) \/
  (exists i, langClickHandler (browser s) !! i = Some f).

(** Function identities are handed out in increasing order, and no
    stored function shares its identity with an item keydown arrow. *)
Let Fresh (s : State) : Prop :=
  (forall l, In l (listeners (browser s)) ->
             (fnId (lFn l) < nextHandle (browser s))%nat) /\
  (forall f, Stored s f ->
             (fnId f < nextHandle (browser s))%nat /\
             forall l, In l (listeners (browser s)) -> ItemKeydown l ->
                       fnId (lFn l) <> fnId f).

Lemma removeEventListener_keeps t ty f l s :
  In l (listeners (browser s)) ->
  (forall g, f = Some g -> fnId (lFn l) <> fnId g) ->
  In l (listeners (browser (removeEventListener t ty f s))).
Proof.
  intros Hin Hne. destruct f as [g|]; [|exact Hin]. simpl.
  apply filter_In. split; [exact Hin|].
  unfold sameListener.
  destruct (Nat.eqb_spec (fnId g) (fnId (lFn l))) as [Heq|_].
  - exfalso. apply (Hne g eq_refl). congruence.
  - rewrite andb_false_r. reflexivity.
Qed.

Lemma fold_destroyNavItem_keeps l items : forall s,
  In l (listeners (browser s)) ->
  (forall i f, navClickHandler (browser s) !! i = Some f ->
               fnId (lFn l) <> fnId f) ->
  In l (listeners (browser (fold_left destroyNavItem items s))) /\
  langClickHandler (browser (fold_left destroyNavItem items s))
  = langClickHandler (browser s).
Proof.
  induction items as [|i items IH]; intros s Hin Hne; [split; auto|].
  cbn [fold_left].
  assert (Hstep : In l (listeners (browser (destroyNavItem s i))) /\
                  (forall j f, navClickHandler (browser (destroyNavItem s i)) !! j
                               = Some f -> fnId (lFn l) <> fnId f) /\
                  langClickHandler (browser (destroyNavItem s i))
                  = langClickHandler (browser s)).
  { unfold destroyNavItem.
    destruct (navClickHandler (browser s) !! i) as [f|] eqn:Hf.
    - split; [|split; [|reflexivity]].
      + apply (removeEventListener_keeps _ _ (Some f) l s Hin).
        intros g Hg. inversion Hg. subst g. exact (Hne i f Hf).
      + intros j g Hj. simpl in Hj. apply lookup_delete_Some in Hj.
        exact (Hne j g (proj2 Hj)).
    - split; [exact Hin|split; [exact Hne|reflexivity]]. }
  destruct Hstep as (H1 & H2 & H3).
  destruct (IH _ H1 H2) as [H4 H5]. split; [exact H4|congruence].
Qed.

Lemma fold_destroyLangItem_keeps l items : forall s,
  In l (listeners (browser s)) ->
  (forall i f, langClickHandler (browser s) !! i = Some f ->
               fnId (lFn l) <> fnId f) ->
  In l (listeners (browser (fold_left destroyLangItem items s))).
Proof.
  induction items as [|i items IH]; intros s Hin Hne; [exact Hin|].
  cbn [fold_left]. apply IH.
  - unfold destroyLangItem.
    destruct (langClickHandler (browser s) !! i) as [f|] eqn:Hf; [|exact Hin].
    apply (removeEventListener_keeps _ _ (Some f) l s Hin).
    intros g Hg. inversion Hg. subst g. exact (Hne i f Hf).
  - intros j g Hj. unfold destroyLangItem in Hj.
    destruct (langClickHandler (browser s) !! i) as [f|] eqn:Hf.
    + simpl in Hj. apply lookup_delete_Some in Hj. exact (Hne j g (proj2 Hj)).
    + exact (Hne j g Hj).
Qed.

Lemma removeEventListener_maps t ty f s :
  navClickHandler (browser (removeEventListener t ty f s))
  = navClickHandler (browser s) /\
  langClickHandler (browser (removeEventListener t ty f s))
  = langClickHandler (browser s).
Proof. destruct f; split; reflexivity. Qed.

(** A listener whose function shares its identity with no stored
    function is still attached after [destroy]. *)
Lemma destroy_keeps l s s' :
  destroy s = Ok s' ->
  In l (listeners (browser s)) ->
  (forall f, Stored s f -> fnId (lFn l) <> fnId f) ->
  In l (listeners (browser s')).
Proof.
  intros Hd Hin Hne.
  destruct (destroy_Ok_inv _ _ Hd) as (items & litems & H1 & H2).
  rewrite (destroy_eq _ _ _ H1 H2) in Hd. inversion Hd as [Hs']. clear Hd.
  match goal with
  | |- context [finish ?u] =>
      destruct (finish_spec u) as (_ & _ & _ & _ & F5 & _)
  end.
  rewrite F5. unfold unlisten.
  set (h := handlers (this s)) in *.
  assert (Hh : forall o, In o [onBurgerClickH h; onBurgerKeyDownH h;
                               onDocClickH h; onLangMenuClickH h;
                               onLangMenuKeyDownH h; onWindowScrollH h] ->
                         forall g, o = Some g -> fnId (lFn l) <> fnId g).
  { intros o Ho g ->. apply Hne. left. exact Ho. }
  set (sa := match burger (refs (this s)) with
             | Some b =>
                 removeEventListener (TElement b) "keydown" (onBurgerKeyDownH h)
                   (removeEventListener (TElement b) "click" (onBurgerClickH h) s)
             | None => s
             end).
  assert (Ha : In l (listeners (browser sa)) /\
               navClickHandler (browser sa) = navClickHandler (browser s) /\
               langClickHandler (browser sa) = langClickHandler (browser s)).
  { subst sa. destruct (burger (refs (this s))); [|auto].
    split; [|split; destruct (onBurgerKeyDownH h), (onBurgerClickH h);
                    reflexivity].
    apply removeEventListener_keeps; [apply removeEventListener_keeps|].
    - exact Hin.
    - apply Hh. simpl. auto.
    - apply Hh. simpl. auto. }
  destruct Ha as (Ha1 & Ha2 & Ha3).
  set (sb := match langMenu (refs (this s)) with
             | Some m =>
                 removeEventListener (TElement m) "keydown" (onLangMenuKeyDownH h)
                   (removeEventListener (TElement m) "click" (onLangMenuClickH h) sa)
             | None => sa
             end).
  assert (Hb : In l (listeners (browser sb)) /\
               navClickHandler (browser sb) = navClickHandler (browser s) /\
               langClickHandler (browser sb) = langClickHandler (browser s)).
  { subst sb. destruct (langMenu (refs (this s))); [|auto].
    split; [|split; destruct (onLangMenuKeyDownH h), (onLangMenuClickH h);
                    assumption].
    apply removeEventListener_keeps; [apply removeEventListener_keeps|].
    - exact Ha1.
    - apply Hh. simpl. auto.
    - apply Hh. simpl. auto 10. }
  destruct Hb as (Hb1 & Hb2 & Hb3).
  set (sc := removeEventListener TWindow "scroll" (onWindowScrollH h)
               (removeEventListener TDocument "click" (onDocClickH h) sb)).
  assert (Hc : In l (listeners (browser sc)) /\
               navClickHandler (browser sc) = navClickHandler (browser s) /\
               langClickHandler (browser sc) = langClickHandler (browser s)).
  { subst sc.
    split; [|split; destruct (onWindowScrollH h), (onDocClickH h);
                    assumption].
    apply removeEventListener_keeps; [apply removeEventListener_keeps|].
    - exact Hb1.
    - apply Hh. simpl. auto.
    - apply Hh. simpl. auto 10. }
  destruct Hc as (Hc1 & Hc2 & Hc3).
  destruct (fold_destroyNavItem_keeps l items sc Hc1) as [Hn1 Hn2].
  { intros i f Hf. apply Hne. right. left. exists i. congruence. }
  apply fold_destroyLangItem_keeps; [exact Hn1|].
  intros i f Hf. apply Hne. right. right. exists i. congruence.
Qed.

Lemma fresh_not_present s t ty f :
  (forall l, In l (listeners (browser s)) ->
             (fnId (lFn l) < nextHandle (browser s))%nat) ->
  (nextHandle (browser s) <= fnId f)%nat ->
  existsb (sameListener t ty f) (listeners (browser s)) = false.
Proof.
  intros Hfresh Hf. apply not_true_is_false. intros H.
  apply existsb_exists in H. destruct H as (l & Hl & Hsame).
  unfold sameListener in Hsame. apply andb_true_iff in Hsame.
  destruct Hsame as [_ Hid]. apply Nat.eqb_eq in Hid.
  specialize (Hfresh l Hl). lia.
Qed.

Lemma addEventListener_fresh t ty f s :
  Fresh s ->
  (fnId f < nextHandle (browser s))%nat ->
  ~ ItemKeydown (mkListener t ty f) ->
  Fresh (addEventListener t ty f s) /\
  (forall l, In l (listeners (browser s)) ->
             In l (listeners (browser (addEventListener t ty f s)))).
Proof.
  intros [F1 F2] Hf Hk. unfold addEventListener.
  destruct (existsb (sameListener t ty f) (listeners (browser s)));
    [split; [split|]; auto|].
  split; [split|].
  - intros l Hl. simpl in Hl. apply in_app_or in Hl.
    destruct Hl as [Hl|[<-|[]]]; [exact (F1 l Hl)|exact Hf].
  - intros g Hg. destruct (F2 g Hg) as [G1 G2]. split; [exact G1|].
    intros l Hl Hkd. simpl in Hl. apply in_app_or in Hl.
    destruct Hl as [Hl|[<-|[]]]; [exact (G2 l Hl Hkd)|contradiction].
  - intros l Hl. simpl. apply in_or_app. left. exact Hl.
Qed.

Lemma setupNavItem_fresh s i :
  Fresh s ->
  Fresh (setupNavItem s i) /\
  (forall l, In l (listeners (browser s)) ->
             In l (listeners (browser (setupNavItem s i)))) /\
  In (mkListener (TElement i) "keydown"
                 (mkFn (S (nextHandle (browser s))) (NavItemKeydown i)))
     (listeners (browser (setupNavItem s i))).
Proof.
  intros [F1 F2].
  assert (Hl : listeners (browser (setupNavItem s i))
               = (listeners (browser s)
                  ++ [mkListener (TElement i) "click"
                        (mkFn (nextHandle (browser s)) (NavItemHandler i));
                      mkListener (TElement i) "keydown"
                        (mkFn (S (nextHandle (browser s))) (NavItemKeydown i))])%list).
  { unfold setupNavItem, newFn, addEventListener. cbn.
    rewrite (fresh_not_present s) by (simpl; auto). cbn.
    rewrite existsb_app, (fresh_not_present s) by (simpl; auto).
    unfold sameListener. cbn. rewrite Nat.eqb_refl. cbn.
    rewrite <- app_assoc. reflexivity. }
  assert (Hn : nextHandle (browser (setupNavItem s i))
               = S (S (nextHandle (browser s)))).
  { unfold setupNavItem, newFn, addEventListener. cbn.
    repeat match goal with
           | |- context [if ?b then _ else _] => destruct b
           end; reflexivity. }
  assert (Hm : navClickHandler (browser (setupNavItem s i))
               = <[i := mkFn (nextHandle (browser s)) (NavItemHandler i)]>
                   (navClickHandler (browser s)) /\
               langClickHandler (browser (setupNavItem s i))
               = langClickHandler (browser s) /\
               handlers (this (setupNavItem s i)) = handlers (this s)).
  { unfold setupNavItem, newFn, addEventListener. cbn.
    repeat match goal with
           | |- context [if ?b then _ else _] => destruct b
           end; repeat split. }
  destruct Hm as (Hm1 & Hm2 & Hm3).
  split; [split|split].
  - intros l Hin. rewrite Hl in Hin. rewrite Hn. apply in_app_or in Hin.
    destruct Hin as [Hin|[<-|[<-|[]]]]; [specialize (F1 l Hin)|simpl..]; lia.
  - intros f Hf. rewrite Hn, Hl.
    assert (Hold : Stored s f \/
                   f = mkFn (nextHandle (browser s)) (NavItemHandler i)).
    { destruct Hf as [Hf|[[j Hj]|[j Hj]]].
      - left. left. rewrite Hm3 in Hf. exact Hf.
      - rewrite Hm1 in Hj. apply lookup_insert_Some in Hj.
        destruct Hj as [[_ <-]|[_ Hj]]; [right; reflexivity|].
        left. right. left. eauto.
      - left. right. right. exists j. rewrite <- Hm2. exact Hj. }
    destruct Hold as [Hold| ->].
    + destruct (F2 f Hold) as [G1 G2]. split; [lia|].
      intros l Hin Hkd. apply in_app_or in Hin.
      destruct Hin as [Hin|[<-|[<-|[]]]];
        [exact (G2 l Hin Hkd)|contradiction|simpl; lia].
    + split; [simpl; lia|]. intros l Hin Hkd. apply in_app_or in Hin.
      destruct Hin as [Hin|[<-|[<-|[]]]];
        [specialize (F1 l Hin); simpl; lia|contradiction|simpl; lia].
  - intros l Hin. rewrite Hl. apply in_or_app. left. exact Hin.
  - rewrite Hl. apply in_or_app. right. simpl. auto.
Qed.

Lemma setupLangItem_fresh s i :
  Fresh s ->
  Fresh (setupLangItem s i) /\
  (forall l, In l (listeners (browser s)) ->
             In l (listeners (browser (setupLangItem s i)))) /\
  In (mkListener (TElement i) "keydown"
                 (mkFn (S (nextHandle (browser s))) (LangItemKeydown i)))
     (listeners (browser (setupLangItem s i))).
Proof.
  intros [F1 F2].
  assert (Hl : listeners (browser (setupLangItem s i))
               = (listeners (browser s)
                  ++ [mkListener (TElement i) "click"
                        (mkFn (nextHandle (browser s)) (LangItemHandler i));
                      mkListener (TElement i) "keydown"
                        (mkFn (S (nextHandle (browser s))) (LangItemKeydown i))])%list).
  { unfold setupLangItem, newFn, addEventListener. cbn.
    rewrite (fresh_not_present s) by (simpl; auto). cbn.
    rewrite existsb_app, (fresh_not_present s) by (simpl; auto).
    unfold sameListener. cbn. rewrite Nat.eqb_refl. cbn.
    rewrite <- app_assoc. reflexivity. }
  assert (Hn : nextHandle (browser (setupLangItem s i))
               = S (S (nextHandle (browser s)))).
  { unfold setupLangItem, newFn, addEventListener. cbn.
    repeat match goal with
           | |- context [if ?b then _ else _] => destruct b
           end; reflexivity. }
  assert (Hm : langClickHandler (browser (setupLangItem s i))
               = <[i := mkFn (nextHandle (browser s)) (LangItemHandler i)]>
                   (langClickHandler (browser s)) /\
               navClickHandler (browser (setupLangItem s i))
               = navClickHandler (browser s) /\
               handlers (this (setupLangItem s i)) = handlers (this s)).
  { unfold setupLangItem, newFn, addEventListener. cbn.
    repeat match goal with
           | |- context [if ?b then _ else _] => destruct b
           end; repeat split. }
  destruct Hm as (Hm1 & Hm2 & Hm3).
  split; [split|split].
  - intros l Hin. rewrite Hl in Hin. rewrite Hn. apply in_app_or in Hin.
    destruct Hin as [Hin|[<-|[<-|[]]]]; [specialize (F1 l Hin)|simpl..]; lia.
  - intros f Hf. rewrite Hn, Hl.
    assert (Hold : Stored s f \/
                   f = mkFn (nextHandle (browser s)) (LangItemHandler i)).
    { destruct Hf as [Hf|[[j Hj]|[j Hj]]].
      - left. left. rewrite Hm3 in Hf. exact Hf.
      - left. right. left. exists j. rewrite <- Hm2. exact Hj.
      - rewrite Hm1 in Hj. apply lookup_insert_Some in Hj.
        destruct Hj as [[_ <-]|[_ Hj]]; [right; reflexivity|].
        left. right. right. eauto. }
    destruct Hold as [Hold| ->].
    + destruct (F2 f Hold) as [G1 G2]. split; [lia|].
      intros l Hin Hkd. apply in_app_or in Hin.
      destruct Hin as [Hin|[<-|[<-|[]]]];
        [exact (G2 l Hin Hkd)|contradiction|simpl; lia].
    + split; [simpl; lia|]. intros l Hin Hkd. apply in_app_or in Hin.
      destruct Hin as [Hin|[<-|[<-|[]]]];
        [specialize (F1 l Hin); simpl; lia|contradiction|simpl; lia].
  - intros l Hin. rewrite Hl. apply in_or_app. left. exact Hin.
  - rewrite Hl. apply in_or_app. right. simpl. auto.
Qed.

Lemma fold_setupNavItem_fresh items : forall s,
  Fresh s ->
  Fresh (fold_left setupNavItem items s) /\
  (forall l, In l (listeners (browser s)) ->
             In l (listeners (browser (fold_left setupNavItem items s)))) /\
  (forall i, In i items ->
             exists id, In (mkListener (TElement i) "keydown"
                                       (mkFn id (NavItemKeydown i)))
                           (listeners (browser (fold_left setupNavItem items s)))).
Proof.
  induction items as [|a items IH]; intros s Hf.
  - split; [exact Hf|]. split; [auto|]. intros i [].
  - cbn [fold_left].
    destruct (setupNavItem_fresh s a Hf) as (H1 & H2 & H3).
    destruct (IH _ H1) as (G1 & G2 & G3).
    split; [exact G1|]. split; [auto|].
    intros i [<-|Hi]; [eexists; apply G2, H3|apply G3, Hi].
Qed.

Lemma fold_setupLangItem_fresh items : forall s,
  Fresh s ->
  Fresh (fold_left setupLangItem items s) /\
  (forall l, In l (listeners (browser s)) ->
             In l (listeners (browser (fold_left setupLangItem items s)))) /\
  (forall i, In i items ->
             exists id, In (mkListener (TElement i) "keydown"
                                       (mkFn id (LangItemKeydown i)))
                           (listeners (browser (fold_left setupLangItem items s)))).
Proof.
  induction items as [|a items IH]; intros s Hf.
  - split; [exact Hf|]. split; [auto|]. intros i [].
  - cbn [fold_left].
    destruct (setupLangItem_fresh s a Hf) as (H1 & H2 & H3).
    destruct (IH _ H1) as (G1 & G2 & G3).
    split; [exact G1|]. split; [auto|].
    intros i [<-|Hi]; [eexists; apply G2, H3|apply G3, Hi].
Qed.

Lemma addEventListener_nextHandle t ty f s :
  nextHandle (browser (addEventListener t ty f s)) = nextHandle (browser s).
Proof.
  unfold addEventListener.
  destruct (existsb (sameListener t ty f) (listeners (browser s)));
    reflexivity.
Qed.

Lemma setupEventListeners_fresh s bg items litems :
  burger (refs (this s)) = Some bg ->
  navItems (refs (this s)) = Some items ->
  langItems (refs (this s)) = Some litems ->
  Fresh s ->
  exists s',
    setupEventListeners s = Ok s' /\ Fresh s' /\
    (forall i, In i items ->
               exists id, In (mkListener (TElement i) "keydown"
                                         (mkFn id (NavItemKeydown i)))
                             (listeners (browser s'))) /\
    (forall i, In i litems ->
               exists id, In (mkListener (TElement i) "keydown"
                                         (mkFn id (LangItemKeydown i)))
                             (listeners (browser s'))).
Proof.
  intros Hb Hn Hl [F1 F2]. unfold setupEventListeners, newFn.
  cbn -[addEventListener setupNavItem setupLangItem fold_left].
  rewrite Hb, Hn, Hl.
  cbn -[addEventListener setupNavItem setupLangItem fold_left].
  eexists. split; [reflexivity|].
  match goal with
  | |- context [fold_left setupNavItem items ?sd] => set (sd0 := sd)
  end.
  assert (Hsd : Fresh sd0 /\
                nextHandle (browser sd0) = (6 + nextHandle (browser s))%nat).
  { subst sd0.
    match goal with
    | |- context [addEventListener (TElement bg) "click" _ ?s0] =>
        assert (H0 : Fresh s0)
    end.
    { split.
      - intros l Hin. simpl in Hin. specialize (F1 l Hin). simpl. lia.
      - intros f Hf. simpl.
        destruct Hf as [Hf|Hf].
        + simpl in Hf.
          assert (Hid : (nextHandle (browser s) <= fnId f
                         < 6 + nextHandle (browser s))%nat).
          { destruct Hf as [Hf|[Hf|[Hf|[Hf|[Hf|[Hf|[]]]]]]];
              inversion Hf; subst f; simpl; lia. }
          split; [lia|]. intros l Hin _. specialize (F1 l Hin). lia.
        + destruct (F2 f (or_intror Hf)) as [G1 G2]. split; [lia|exact G2]. }
    destruct (langMenu (refs (this s))).
    - split; [|rewrite !addEventListener_nextHandle; reflexivity].
      apply addEventListener_fresh;
        [|rewrite ?addEventListener_nextHandle; simpl; lia|simpl; tauto].
      apply addEventListener_fresh;
        [|rewrite ?addEventListener_nextHandle; simpl; lia|simpl; tauto].
      apply addEventListener_fresh;
        [|rewrite ?addEventListener_nextHandle; simpl; lia|simpl; tauto].
      apply addEventListener_fresh;
        [|rewrite ?addEventListener_nextHandle; simpl; lia|simpl; tauto].
      apply addEventListener_fresh; [exact H0|simpl; lia|simpl; tauto].
    - split; [|rewrite !addEventListener_nextHandle; reflexivity].
      apply addEventListener_fresh;
        [|rewrite ?addEventListener_nextHandle; simpl; lia|simpl; tauto].
      apply addEventListener_fresh;
        [|rewrite ?addEventListener_nextHandle; simpl; lia|simpl; tauto].
      apply addEventListener_fresh; [exact H0|simpl; lia|simpl; tauto]. }
  destruct Hsd as [Hsd Hsd0]. clearbody sd0.
  destruct (fold_setupNavItem_fresh items sd0 Hsd) as (N1 & N2 & N3).
  destruct (fold_setupLangItem_fresh litems _ N1) as (L1 & L2 & L3).
  assert (Hlast : (fnId (mkFn (S (S (S (nextHandle (browser s)))))
                              BoundOnWindowScroll)
                   < nextHandle (browser (fold_left setupLangItem litems
                                 (fold_left setupNavItem items sd0))))%nat).
  { destruct (fold_only setupLangItem litems setupLangItem_only
                (fold_left setupNavItem items sd0))
      as (_ & _ & _ & _ & _ & _ & _ & _ & Hle1).
    destruct (fold_only setupNavItem items setupNavItem_only sd0)
      as (_ & _ & _ & _ & _ & _ & _ & _ & Hle2).
    simpl. lia. }
  destruct (addEventListener_fresh TWindow "scroll" _ _ L1 Hlast)
    as [W1 W2]; [simpl; tauto|].
  split; [exact W1|]. split.
  - intros i Hi. destruct (N3 i Hi) as [id Hid]. exists id. apply W2, L2, Hid.
  - intros i Hi. destruct (L3 i Hi) as [id Hid]. exists id. apply W2, Hid.
Qed.

(** On every page where [init] succeeds, [destroy] leaves a keydown
    listener attached to each nav item and to each language item: the
    anonymous arrows of [setupEventListeners] are stored nowhere, so
    [destroy] has nothing to remove them with. *)
Theorem item_keydown_listeners_outlive_destroy
        (b : Browser) (page : Page) (bg nv hd : node) :
  qBurger page = Some bg ->
  qNav page = Some nv ->
  qHeader page = Some hd ->
  qNavItems page <> [] ->
  listeners b = [] -> navClickHandler b = ∅ -> langClickHandler b = ∅ ->
  exists s s',
    constructor b page true = Ok s /\ destroy s = Ok s' /\
    (forall i, In i (qNavItems page) ->
               exists id, In (mkListener (TElement i) "keydown"
                                         (mkFn id (NavItemKeydown i)))
                             (listeners (browser s'))) /\
    (forall i, In i (qLangItems page) ->
               exists id, In (mkListener (TElement i) "keydown"
                                         (mkFn id (LangItemKeydown i)))
                             (listeners (browser s'))).
Proof.
  intros Hb Hn Hh Hi Hls Hnc Hlc.
  unfold constructor, init. cbn -[setupEventListeners].
  rewrite Hb, Hn, Hh.
  destruct (qNavItems page) as [|i0 items] eqn:Hitems; [congruence|].
  cbn -[setupEventListeners].
  match goal with
  | |- context [setupEventListeners ?s0] =>
      assert (Hfresh : Fresh s0);
        [|destruct (setupEventListeners_fresh s0 bg (i0 :: items)
                      (qLangItems page)) as (s & R & Fs & K1 & K2);
          [destruct (qLangMenu page); reflexivity ..|exact Hfresh|];
          destruct (setupEventListeners_only s0 bg (i0 :: items)
                      (qLangItems page)) as (x & R' & O1 & _);
          [destruct (qLangMenu page); reflexivity ..|];
          assert (Hrefs : navItems (refs (this s0)) = Some (i0 :: items) /\
                          langItems (refs (this s0)) = Some (qLangItems page))
            by (destruct (qLangMenu page); split; reflexivity)]
  end.
  { split.
    - intros l Hl. destruct (qLangMenu page); simpl in Hl;
        rewrite Hls in Hl; destruct Hl.
    - intros f [Hf|[[j Hj]|[j Hj]]].
      + destruct (qLangMenu page); simpl in Hf;
          repeat (destruct Hf as [Hf|Hf]; [discriminate Hf|]); destruct Hf.
      + destruct (qLangMenu page); simpl in Hj; rewrite Hnc in Hj;
          rewrite lookup_empty in Hj; discriminate Hj.
      + destruct (qLangMenu page); simpl in Hj; rewrite Hlc in Hj;
          rewrite lookup_empty in Hj; discriminate Hj. }
  rewrite R' in R. inversion R. subst x. clear R.
  destruct Hrefs as [Hr1 Hr2].
  assert (Hd : destroy s = Ok (finish (unlisten s (i0 :: items)
                                              (qLangItems page)))).
  { apply destroy_eq; rewrite O1; assumption. }
  exists s. eexists. split; [exact R'|]. split; [exact Hd|].
  destruct Fs as [_ Fs2].
  split.
  - intros i Hin. destruct (K1 i Hin) as [id Hid]. exists id.
    apply (destroy_keeps _ s _ Hd Hid).
    intros f Hf. apply (proj2 (Fs2 f Hf) _ Hid). exact I.
  - intros i Hin. destruct (K2 i Hin) as [id Hid]. exists id.
    apply (destroy_keeps _ s _ Hd Hid).
    intros f Hf. apply (proj2 (Fs2 f Hf) _ Hid). exact I.
Qed.

Lemma item_keydown_outlive_witness :
  exists s s',
    constructor Samples.navBrowser Samples.navPage true = Ok s /\
    destroy s = Ok s' /\
    (forall i, In i [20; 21; 22]%nat ->
               exists id, In (mkListener (TElement i) "keydown"
                                         (mkFn id (NavItemKeydown i)))
                             (listeners (browser s'))) /\
    (forall i, In i [32; 33]%nat ->
               exists id, In (mkListener (TElement i) "keydown"
                                         (mkFn id (LangItemKeydown i)))
                             (listeners (browser s'))).
Proof.
  apply (item_keydown_listeners_outlive_destroy
           Samples.navBrowser Samples.navPage 11 12 10); try reflexivity.
  discriminate.
Defined.

End Navigation.

(** ** Fade controller: teardown and edge cases *)

Section FadeMore.
Import Dom Number FadeEffect.

Lemma requestStep_handle s :
  rafId (requestStep s) = Some (nextHandle s) /\
  nextHandle (requestStep s) = S (nextHandle s) /\
  rafQueue (requestStep s) = (rafQueue s ++ [nextHandle s])%list.
Proof. repeat split. Qed.

Lemma step_handles t s s' :
  step t s = Ok s' ->
  (rafQueue s' = (rafQueue s ++ [nextHandle s])%list /\
   rafId s' = Some (nextHandle s) /\ nextHandle s' = S (nextHandle s)) \/
  (rafQueue s' = rafQueue s /\ rafId s' = rafId s /\
   nextHandle s' = nextHandle s).
Proof.
  unfold step.
  destruct s as [d q h rm ld fd rdy dur rid st elm cl]. simpl.
  destruct (noStartTime _); simpl;
    destruct elm as [el|]; try discriminate;
    match goal with
    | |- context [PrimFloat.ltb ?p 1] => destruct (PrimFloat.ltb p 1)
    end;
    intros H; inversion H; subst; clear H;
    first [left; repeat split; reflexivity
          |right; unfold cleanupStyle; simpl; repeat split; reflexivity].
Qed.

Lemma frame_tracked el dur t s s' :
  Consistent el dur s -> Tracked s -> frame t s = Ok s' -> Tracked s'.
Proof.
  intros (Hel & Hdoc & Hdur & [([id Hq] & Hcl)|[Hq Hcl]]) (Hpos & Htr) Hrun.
  - rewrite (frame_one _ _ _ Hq) in Hrun.
    destruct (step_handles _ _ _ Hrun) as [(H1 & H2 & H3)|(H1 & H2 & H3)];
      simpl in *; unfold Tracked; rewrite H1, H2, H3.
    + split; [lia|]. intros x Hx. inversion Hx. subst. split; [reflexivity|].
      exact Hpos.
    + split; [exact Hpos|]. intros x Hx. discriminate Hx.
  - rewrite (frame_idle t s Hq) in Hrun. inversion Hrun. subst.
    split; assumption.
Qed.

Lemma frames_tracked el dur ts : forall s s',
  Consistent el dur s -> Tracked s -> frames ts s = Ok s' ->
  Consistent el dur s' /\ Tracked s'.
Proof.
  induction ts as [|t ts IH]; intros s s' Hc Ht Hrun.
  - inversion Hrun. subst. split; assumption.
  - rewrite frames_cons in Hrun.
    destruct (frame_consistent el dur t s Hc) as (s1 & H1 & H2).
    rewrite H1 in Hrun. simpl in Hrun.
    apply (IH s1 s' H2); [|exact Hrun].
    exact (frame_tracked el dur t s s1 Hc Ht H1).
Qed.

Lemma constructor_tracked b el d :
  ready b el -> Tracked (constructor b d true).
Proof.
  intros (Hrm & Hld & Hfd & [e He]).
  unfold constructor, init, start. simpl. rewrite Hrm, Hld, Hfd.
  unfold Tracked. simpl.
  split; [lia|]. intros id H. inversion H. subst. split; [reflexivity|lia].
Qed.

(** [destroy] at any point of a run cancels the animation: no later
    frame runs a callback or changes anything, whatever its timestamp;
    and a second [destroy] changes nothing. *)
Theorem destroy_cancels_animation
        (b : Browser) (el : node) (d : float) (before after : list float)
        (s : State) :
  ready b el ->
  frames before (constructor b d true) = Ok s ->
  rafQueue (destroy s) = [] /\
  doc (destroy s) = doc s /\
  frames after (destroy s) = Ok (destroy s) /\
  destroy (destroy s) = destroy s.
Proof.
  intros Hb Hrun.
  destruct (frames_tracked el (Math_max 0 d) before _ s
              (constructor_consistent b el d Hb)
              (constructor_tracked b el d Hb) Hrun)
    as ((_ & _ & _ & Hq) & (_ & Htr)).
  assert (Hempty : rafQueue (destroy s) = []).
  { unfold destroy.
    destruct Hq as [([id Hq] & _)|[Hq _]].
    - destruct (Htr id Hq) as [Hid Hpos]. rewrite Hid.
      destruct id as [|k]; [lia|]. simpl. rewrite Hq. simpl.
      rewrite Nat.eqb_refl. reflexivity.
    - destruct (truthy (rafId s)); [|exact Hq].
      destruct (rafId s); simpl; [rewrite Hq|]; try exact Hq. reflexivity. }
  split; [exact Hempty|]. split.
  - unfold destroy. destruct (truthy (rafId s)); [|reflexivity].
    destruct (rafId s); reflexivity.
  - split; [apply frames_idle, Hempty|].
    unfold destroy. destruct (rafId s) as [[|k]|] eqn:Hid; simpl;
      rewrite ?Hid; reflexivity.
Qed.

Lemma destroy_cancels_witness :
  exists s,
    frames [100%float; 116%float] (constructor Samples.fadeBrowser 500 true)
    = Ok s /\
    rafQueue (destroy s) = [] /\
    doc (destroy s) = doc s /\
    frames [132%float; 700%float] (destroy s) = Ok (destroy s) /\
    destroy (destroy s) = destroy s.
Proof.
  pose (s0 := constructor Samples.fadeBrowser 500 true).
  pose (s1 := match frames [100%float; 116%float] s0 with
              | Ok s => s
              | TypeError => s0
              end).
  assert (H : frames [100%float; 116%float] s0 = Ok s1)
    by (vm_compute; reflexivity).
  exists s1. split; [exact H|].
  exact (destroy_cancels_animation Samples.fadeBrowser 7 500
           [100%float; 116%float] [132%float; 700%float] s1
           fadeBrowser_ready H).
Defined.

(** Over two successive frames of a running fade whose timestamps do not
    decrease, the opacity stays within 0 and 1 and does not decrease. *)
Theorem fade_opacity_monotone
        (el : node) (dur t0 t t' : float) (s : State) :
  AnimatingSince el dur t0 s ->
  falsy t0 = false ->
  PrimFloat.leb t0 t = true -> PrimFloat.leb t t' = true ->
  exists s1 s2 p1 p2,
    frame t s = Ok s1 /\ frame t' s1 = Ok s2 /\
    opacityOf s1 = Some p1 /\ opacityOf s2 = Some p2 /\
    PrimFloat.leb 0 p1 = true /\ PrimFloat.leb p1 p2 = true /\
    PrimFloat.leb p2 1 = true.
Proof.
  intros Hs Hnz Ht Htt'.
  set (m := Math_max 1 dur).
  destruct (PrimFloat.ltb (Math_min 1 ((t - t0) / m)) 1) eqn:Hp.
  - destruct (frame_early el dur t0 t s Hs Hnz Hp) as (s1 & R1 & A1 & O1).
    pose proof Hp as Hq. rewrite Math_min_below in Hq.
    fold m in O1. rewrite (Math_min_lt _ Hq) in O1.
    assert (Hm : PrimFloat.leb 1 m = true).
    { apply Math_max_ge_one. fold m.
      destruct (isNaN m) eqn:Hn; [|reflexivity].
      pose proof (div_NaN_r (t - t0) m Hn) as Hd.
      rewrite (ltb_NaN_l _ _ Hd) in Hq. discriminate. }
    destruct (running_finite t0 t m Ht Hm Hq) as [F0 F].
    assert (Hz : PrimFloat.eqb t0 0 = false).
    { unfold falsy in Hnz. apply orb_false_iff in Hnz. apply Hnz. }
    assert (Hrefl : PrimFloat.leb t t = true).
    { apply leb_refl. apply (leb_not_NaN t0 t Ht). }
    destruct (sub_monotone t0 t t F0 F F Hz Ht Hrefl) as [E0 E1].
    destruct (div_monotone _ _ m E0 E1 Hm Hq Hq) as [Q0 _].
    destruct (PrimFloat.ltb (Math_min 1 ((t' - t0) / m)) 1) eqn:Hp'.
    + destruct (frame_early el dur t0 t' s1 A1 Hnz Hp') as (s2 & R2 & _ & O2).
      pose proof Hp' as Hq'. rewrite Math_min_below in Hq'.
      fold m in O2. rewrite (Math_min_lt _ Hq') in O2.
      pose proof (later_finite t0 t t' m F0 F Htt' Hm Hq') as F'.
      destruct (sub_monotone t0 t t' F0 F F' Hz Ht Htt') as [_ E2].
      destruct (div_monotone _ _ m E0 E2 Hm Hq Hq') as [_ Q1].
      exists s1, s2, ((t - t0) / m)%float, ((t' - t0) / m)%float.
      repeat (split; [assumption|]). apply ltb_leb, Hq'.
    + destruct (frame_late el dur t0 t' s1 A1 Hnz Hp') as (s2 & R2 & S2).
      exists s1, s2, ((t - t0) / m)%float, 1%float.
      split; [exact R1|]. split; [exact R2|]. split; [exact O1|].
      split; [apply S2|]. split; [exact Q0|].
      split; [apply ltb_leb, Hq|reflexivity].
  - destruct (frame_late el dur t0 t s Hs Hnz Hp) as (s1 & R1 & S1).
    exists s1, s1, 1%float, 1%float.
    split; [exact R1|]. split; [apply frame_idle, S1|].
    split; [apply S1|]. split; [apply S1|].
    repeat split; reflexivity.
Qed.

Lemma fade_opacity_witness :
  exists s0,
    frames [100%float] (constructor Samples.fadeBrowser 500 true) = Ok s0 /\
    exists s1 s2 p1 p2,
      frame 200 s0 = Ok s1 /\ frame 350 s1 = Ok s2 /\
      opacityOf s1 = Some p1 /\ opacityOf s2 = Some p2 /\
      PrimFloat.leb 0 p1 = true /\ PrimFloat.leb p1 p2 = true /\
      PrimFloat.leb p2 1 = true.
Proof.
  pose (c := constructor Samples.fadeBrowser 500 true).
  pose (s0 := match frames [100%float] c with
              | Ok s => s
              | TypeError => c
              end).
  assert (H : frames [100%float] c = Ok s0) by (vm_compute; reflexivity).
  exists s0. split; [exact H|].
  apply (fade_opacity_monotone 7 500 100 200 350 s0).
  - unfold AnimatingSince, Animating.
    split; [reflexivity|]. split; [vm_compute; eauto|].
    split; [reflexivity|]. split; [reflexivity|].
    split; [exists 2%nat; reflexivity|reflexivity].
  - reflexivity.
  - reflexivity.
  - reflexivity.
Defined.

(** A first frame whose timestamp is 0 does not start the clock: the
    start time it records is falsy, so the next frame records its own
    timestamp instead and again finds nothing elapsed.  The duration is
    any number, the second timestamp any finite one. *)
Theorem zero_timestamp_restarts_clock
        (b : Browser) (el : node) (d t : float) :
  ready b el ->
  isNaN d = false ->
  is_finite t = true ->
  exists s,
    frames [0%float; t] (constructor b d true) = Ok s /\
    startTime s = Some t /\
    opacityOf s = Some 0%float /\
    Animating s.
Proof.
  intros Hb Hn Hfin.
  destruct (constructor_starts b el d Hb) as (H1 & H2 & H3 & H4 & H5 & H6 & H7).
  assert (Hnd : isNaN (Math_max 0 d) = false).
  { rewrite Math_max_NaN, Hn. reflexivity. }
  destruct (frame_first el (Math_max 0 d) 0 _ H1 H2 H3 Hnd) as (s1 & F1 & F2 & _);
    [unfold noStartTime; rewrite H4; reflexivity|reflexivity| |].
  { split; [eauto|exact H6]. }
  destruct F2 as (G1 & G2 & G3 & G4 & G5).
  destruct (frame_first el (Math_max 0 d) t s1 G1 G2 G3 Hnd)
    as (s2 & K1 & K2 & K3);
    [unfold noStartTime; rewrite G4; reflexivity|exact Hfin|exact G5|].
  exists s2. rewrite frames_cons, F1. simpl. rewrite frames_cons, K1. simpl.
  destruct K2 as (_ & _ & _ & K4 & K5).
  split; [reflexivity|]. split; [exact K4|]. split; [exact K3|exact K5].
Qed.

Lemma zero_timestamp_witness :
  isNaN 200 = false /\ is_finite 500 = true /\
  exists s,
    frames [0%float; 500%float] (constructor Samples.fadeBrowser 200 true)
    = Ok s /\
    startTime s = Some 500%float /\
    opacityOf s = Some 0%float /\
    Animating s.
Proof.
  split; [reflexivity|]. split; [reflexivity|].
  exact (zero_timestamp_restarts_clock Samples.fadeBrowser 7 200 500
           fadeBrowser_ready eq_refl eq_refl).
Defined.

(** Under a reduced-motion preference the controller never animates: the
    element found is made fully opaque at once, no frame is ever
    scheduled, and later frames change nothing. *)
Theorem reduced_motion_skips_animation
        (b : Browser) (d : float) (el : node) (e : Element)
        (ts : list float) :
  bReducedMotion b = true ->
  bFound b = Some el ->
  bDoc b !! el = Some e ->
  let s := constructor b d true in
  doc s !! el = Some (set_styleOpacity 1 e) /\
  (forall k, k <> el -> doc s !! k = bDoc b !! k) /\
  rafQueue s = [] /\ cleanups s = 0%nat /\
  frames ts s = Ok s.
Proof.
  intros Hrm Hfd He s. subst s.
  unfold constructor, init. simpl. rewrite Hrm, Hfd. simpl.
  split; [rewrite lookup_alter_eq, He; reflexivity|].
  split; [intros k Hk; apply lookup_alter_ne; congruence|].
  split; [reflexivity|]. split; [reflexivity|].
  apply frames_idle. reflexivity.
Qed.

Lemma reduced_motion_witness :
  let s := constructor (mkBrowser {[ 7%nat := Samples.plain 0 ]} true false
                                  (Some 7%nat)) 500 true in
  doc s !! 7%nat = Some (set_styleOpacity 1 (Samples.plain 0)) /\
  (forall k, k <> 7%nat ->
             doc s !! k = ({[ 7%nat := Samples.plain 0 ]} : document) !! k) /\
  rafQueue s = [] /\ cleanups s = 0%nat /\
  frames [16%float; 32%float] s = Ok s.
Proof.
  exact (reduced_motion_skips_animation
           (mkBrowser {[ 7%nat := Samples.plain 0 ]} true false (Some 7%nat))
           500 7 (Samples.plain 0) [16%float; 32%float]
           eq_refl eq_refl eq_refl).
Defined.

End FadeMore.

(** ** Scroll-reveal controller: coalescing, idempotence, observation *)

Section ScrollMore.
Import Dom Number AnimacionesScroll.

Lemma handleScroll_twice s :
  (0 < nextHandle s)%nat -> handleScroll (handleScroll s) = handleScroll s.
Proof.
  intros Hpos. unfold handleScroll at 1.
  destruct (truthy (rafId (handleScroll s))) eqn:Htr; [reflexivity|].
  exfalso. unfold handleScroll in Htr.
  destruct (truthy (rafId s)) eqn:Hs; [congruence|].
  simpl in Htr. destruct (nextHandle s); [lia|discriminate Htr].
Qed.

Lemma handleScroll_iter s k :
  (0 < nextHandle s)%nat ->
  Nat.iter (S k) handleScroll s = handleScroll s.
Proof.
  intros Hpos. induction k as [|k IH]; [reflexivity|].
  change (Nat.iter (S (S k)) handleScroll s)
    with (handleScroll (Nat.iter (S k) handleScroll s)).
  rewrite IH. apply handleScroll_twice, Hpos.
Qed.

(** However many scroll and resize events arrive before the browser
    renders a frame, they leave the state the first of them produced,
    with one callback scheduled; the frame then runs one evaluation
    pass, and nothing is left scheduled after it. *)
Theorem polling_events_coalesce (s : State) (k : nat) :
  validToken (claseActiva s) = true ->
  (0 < nextHandle s)%nat ->
  rafQueue s = [] ->
  truthy (rafId s) = false ->
  let s1 := Nat.iter (S k) handleScroll s in
  s1 = handleScroll s /\
  rafQueue s1 = [nextHandle s] /\
  passes (frame s1) = S (passes s) /\
  doc (frame s1) = doc (evaluationPass s) /\
  rafQueue (frame s1) = [] /\ rafId (frame s1) = None.
Proof.
  intros _ Hpos Hq Htr. cbv zeta.
  rewrite (handleScroll_iter s k Hpos).
  split; [reflexivity|].
  unfold handleScroll. rewrite Htr.
  unfold frame. simpl. rewrite Hq. simpl. repeat split.
Qed.

Lemma polling_events_witness :
  validToken (claseActiva Samples.pollingState) = true /\
  let s1 := Nat.iter 4 handleScroll Samples.pollingState in
  s1 = handleScroll Samples.pollingState /\
  rafQueue s1 = [nextHandle Samples.pollingState] /\
  passes (frame s1) = S (passes Samples.pollingState) /\
  doc (frame s1) = doc (evaluationPass Samples.pollingState) /\
  rafQueue (frame s1) = [] /\ rafId (frame s1) = None.
Proof.
  split; [reflexivity|].
  apply (polling_events_coalesce Samples.pollingState 3).
  - reflexivity.
  - simpl. lia.
  - reflexivity.
  - reflexivity.
Defined.

Lemma pass_lookup_None s l : forall (d : document) k,
  d !! k = None -> fold_left (evaluate s) l d !! k = None.
Proof.
  induction l as [|a l IH]; intros d k Hk; [exact Hk|].
  cbn [fold_left]. apply IH. rewrite evaluate_lookup, Hk.
  destruct (decide (a = k)); reflexivity.
Qed.

Lemma evaluate_config s s' :
  claseActiva s' = claseActiva s ->
  innerHeight s' = innerHeight s ->
  clientHeight s' = clientHeight s ->
  forall d el, evaluate s' d el = evaluate s d el.
Proof.
  intros H1 H2 H3 d el.
  unfold evaluate, elementInView, elementOutOfView, displayScrollElement,
    hideScrollElement, viewportHeight.
  rewrite H1, H2, H3. reflexivity.
Qed.

Lemma fold_left_pointwise {A B} (f g : A -> B -> A) (l : list B) :
  (forall a b, f a b = g a b) ->
  forall a, fold_left f l a = fold_left g l a.
Proof.
  intros H. induction l as [|x l IH]; intros a; [reflexivity|].
  simpl. rewrite H. apply IH.
Qed.

(** An evaluation pass is idempotent: while the geometry is unchanged, a
    second pass leaves the document as the first one made it. *)
Theorem evaluation_pass_idempotent (s : State) :
  doc (evaluationPass (evaluationPass s)) = doc (evaluationPass s).
Proof.
  unfold evaluationPass. simpl. apply map_eq. intros k.
  set (d := doc s). set (l := elementos s).
  match goal with
  | |- fold_left (evaluate ?s') l _ !! k = _ =>
      rewrite (fold_left_pointwise (evaluate s') (evaluate s) l)
        by (intros x y; apply evaluate_config; reflexivity)
  end.
  destruct (d !! k) as [e|] eqn:He.
  - rewrite (pass_lookup s l _ _ _ (pass_lookup s l d k e He)).
    rewrite (pass_lookup s l d k e He).
    destruct (decide (k ∈ l)); [rewrite evaluated_idem|]; reflexivity.
  - rewrite (pass_lookup_None s l _ _ (pass_lookup_None s l d k He)).
    rewrite (pass_lookup_None s l d k He). reflexivity.
Qed.

Lemma onEntry_observer_kept s entry :
  observarUnaVez s = false -> observer (onEntry s entry) = observer s.
Proof.
  intros H. unfold onEntry. destruct (isIntersecting entry); simpl.
  - rewrite H. reflexivity.
  - rewrite H. reflexivity.
Qed.

Lemma observerCallback_observer_kept entries : forall s,
  observarUnaVez s = false ->
  observer (observerCallback entries s) = observer s.
Proof.
  unfold observerCallback.
  induction entries as [|entry entries IH]; intros s H; [reflexivity|].
  simpl. rewrite IH.
  - apply onEntry_observer_kept, H.
  - destruct (onEntry_config s entry) as [-> _]. exact H.
Qed.

Lemma onEntry_other s entry el :
  target entry <> el -> revealed (onEntry s entry) el = revealed s el.
Proof.
  intros Hne. unfold revealed.
  destruct (onEntry_config s entry) as [_ ->].
  unfold onEntry, unobserve.
  destruct (isIntersecting entry); simpl.
  - assert (H : hasClass (classAdd (target entry) (claseActiva s) (doc s)) el
                         (claseActiva s)
                = hasClass (doc s) el (claseActiva s)).
    { rewrite hasClass_classAdd. apply decide_False, Hne. }
    destruct (observarUnaVez s); simpl; [|exact H].
    destruct (observer s); simpl; exact H.
  - destruct (observarUnaVez s); simpl; [reflexivity|].
    rewrite hasClass_classRemove. apply decide_False, Hne.
Qed.

Lemma observerCallback_other entries el : forall s,
  Forall (fun entry => target entry <> el) entries ->
  revealed (observerCallback entries s) el = revealed s el.
Proof.
  unfold observerCallback.
  induction entries as [|entry entries IH]; intros s Hall; [reflexivity|].
  inversion Hall as [|? ? Hne Hrest]; subst.
  simpl. rewrite (IH _ Hrest). apply onEntry_other, Hne.
Qed.

(** With reveal-once off, an element follows the observer: after a
    notification batch it carries the active class exactly when the last
    entry for it in the batch reports it as intersecting; an element the
    batch has no entry for keeps its class as it was; and what is
    observed does not change.  The active class is taken to be a token
    that a class list accepts. *)
Theorem observer_follows_intersection
        (s : State) (before after : list Entry) (el : node) (v : bool) :
  validToken (claseActiva s) = true ->
  observarUnaVez s = false ->
  is_Some (doc s !! el) ->
  Forall (fun entry => target entry <> el) after ->
  let s' := observerCallback (before ++ mkEntry el v :: after) s in
  revealed s' el = v /\
  observer s' = observer s /\
  (forall other,
      Forall (fun entry => target entry <> other)
             (before ++ mkEntry el v :: after) ->
      revealed s' other = revealed s other).
Proof.
  intros _ Hone Hel Hafter s'. subst s'.
  split; [|split].
  - destruct (observerCallback_config before s) as (C1 & C2 & C3).
    unfold observerCallback in *. rewrite fold_left_app. simpl.
    set (s1 := fold_left onEntry before s) in *.
    assert (Hone1 : observarUnaVez s1 = false) by congruence.
    change (fold_left onEntry after (onEntry s1 (mkEntry el v)))
      with (observerCallback after (onEntry s1 (mkEntry el v))).
    rewrite (observerCallback_other after el _ Hafter).
    unfold revealed.
    destruct (onEntry_config s1 (mkEntry el v)) as [_ ->].
    unfold onEntry. simpl. rewrite Hone1. destruct v; simpl.
    + apply hasClass_classAdd_same, C3, Hel.
    + apply hasClass_classRemove_same.
  - apply (observerCallback_observer_kept _ s Hone).
  - intros other Hall. apply observerCallback_other, Hall.
Qed.

Lemma observer_follows_witness :
  let s0 := mkState Samples.scrollDoc 800 800 [] 1 "scrolled" false
                    [1; 2; 3]%nat (Some [1; 2; 3]%nat) None 0 in
  let s' := observerCallback
              ([mkEntry 2 true; mkEntry 1 true]
               ++ mkEntry 2 false :: [mkEntry 3 false]) s0 in
  validToken (claseActiva s0) = true /\
  revealed s' 2 = false /\
  observer s' = observer s0 /\
  (forall other,
      Forall (fun entry => target entry <> other)
             ([mkEntry 2 true; mkEntry 1 true]
              ++ mkEntry 2 false :: [mkEntry 3 false]) ->
      revealed s' other = revealed s0 other).
Proof.
  cbv zeta. split; [reflexivity|].
  apply (observer_follows_intersection
           (mkState Samples.scrollDoc 800 800 [] 1 "scrolled" false
                    [1; 2; 3]%nat (Some [1; 2; 3]%nat) None 0)
           [mkEntry 2 true; mkEntry 1 true] [mkEntry 3 false] 2 false).
  - reflexivity.
  - reflexivity.
  - vm_compute. eauto.
  - repeat constructor. simpl. lia.
Defined.

(** The body of the [elementos.forEach] of [setupObserver]. *)
Let observeOne (s : State) (el : node) : State :=
  let s := with_doc (alter (set_styleWillChange "opacity, transform") el) s in
  match observer s with
  | Some obs =>
      with_observer
        (Some (if existsb (Nat.eqb el) obs then obs else (obs ++ [el])%list)) s
  | None => s
  end.

Lemma observeOne_spec s el obs :
  observer s = Some obs ->
  exists obs',
    observer (observeOne s el) = Some obs' /\
    (forall x, existsb (Nat.eqb x) obs'
               = existsb (Nat.eqb x) obs || (x =? el)%nat) /\
    doc (observeOne s el)
    = alter (set_styleWillChange "opacity, transform") el (doc s) /\
    claseActiva (observeOne s el) = claseActiva s /\
    elementos (observeOne s el) = elementos s /\
    rafQueue (observeOne s el) = rafQueue s /\
    rafId (observeOne s el) = rafId s.
Proof.
  intros Ho. unfold observeOne. simpl. rewrite Ho.
  destruct (existsb (Nat.eqb el) obs) eqn:Hin; simpl.
  - exists obs. repeat split. intros x.
    destruct (Nat.eqb_spec x el) as [->|_];
      [rewrite Hin; reflexivity|rewrite orb_false_r; reflexivity].
  - exists (obs ++ [el])%list. repeat split. intros x.
    rewrite existsb_app. simpl. rewrite orb_false_r. reflexivity.
Qed.

Lemma observeAll_spec l : forall s obs,
  observer s = Some obs ->
  exists obs',
    observer (fold_left observeOne l s) = Some obs' /\
    (forall x, existsb (Nat.eqb x) obs'
               = existsb (Nat.eqb x) obs || existsb (Nat.eqb x) l) /\
    doc (fold_left observeOne l s)
    = fold_left (fun d el => alter (set_styleWillChange "opacity, transform") el d)
                l (doc s) /\
    claseActiva (fold_left observeOne l s) = claseActiva s /\
    elementos (fold_left observeOne l s) = elementos s /\
    rafQueue (fold_left observeOne l s) = rafQueue s /\
    rafId (fold_left observeOne l s) = rafId s.
Proof.
  induction l as [|a l IH]; intros s obs Ho.
  - exists obs. repeat split; try assumption.
    intros x. simpl. rewrite orb_false_r. reflexivity.
  - cbn [fold_left].
    destruct (observeOne_spec s a obs Ho) as (o1 & A1 & A2 & A3 & A4 & A5 & A6 & A7).
    destruct (IH _ o1 A1) as (o2 & B1 & B2 & B3 & B4 & B5 & B6 & B7).
    exists o2. rewrite B3, B4, B5, B6, B7, A3, A4, A5, A6, A7.
    repeat split; try assumption.
    intros x. rewrite B2, A2. simpl. rewrite orb_assoc. reflexivity.
Qed.

Lemma fold_alter_lookup (f : Element -> Element) l :
  (forall e, f (f e) = f e) ->
  forall (d : document) k,
    fold_left (fun d el => alter f el d) l d !! k
    = if decide (k ∈ l) then f <$> d !! k else d !! k.
Proof.
  intros Hf. induction l as [|a l IH]; intros d k.
  - cbn [fold_left]. destruct (decide (k ∈ [])) as [H|_]; [|reflexivity].
    apply not_elem_of_nil in H. contradiction.
  - cbn [fold_left]. rewrite IH, lookup_alter.
    destruct (decide (a = k)) as [->|Hne].
    + rewrite (decide_True (P := k ∈ k :: l))
        by (apply elem_of_cons; left; reflexivity).
      destruct (decide (k ∈ l)); [|reflexivity].
      destruct (d !! k); simpl; [rewrite Hf|]; reflexivity.
    + destruct (decide (k ∈ l)) as [Hin|Hnin].
      * rewrite decide_True by (apply elem_of_cons; right; exact Hin).
        reflexivity.
      * rewrite decide_False; [reflexivity|].
        intros H. apply elem_of_cons in H. destruct H; congruence.
Qed.

Lemma existsb_elem (x : node) (l : list node) :
  existsb (Nat.eqb x) l = bool_decide (x ∈ l).
Proof.
  induction l as [|a l IH].
  - cbn [existsb]. symmetry. apply bool_decide_eq_false_2, not_elem_of_nil.
  - cbn [existsb]. rewrite IH.
    destruct (Nat.eqb_spec x a) as [->|Hne]; cbn [orb].
    + symmetry. apply bool_decide_eq_true_2, elem_of_cons. left. reflexivity.
    + apply bool_decide_ext. rewrite elem_of_cons. tauto.
Qed.

Lemma setupObserver_spec (s : State) :
  let s' := setupObserver s in
  (forall el, observing s' el = bool_decide (el ∈ elementos s)) /\
  (forall el, el ∈ elementos s -> present (doc s) el = true ->
              ScrollLifecycle.hinted (doc s') el = true) /\
  (forall el c, hasClass (doc s') el c = hasClass (doc s) el c) /\
  elementos s' = elementos s /\
  rafQueue s' = rafQueue s /\ rafId s' = rafId s /\
  claseActiva s' = claseActiva s.
Proof.
  cbv zeta. unfold setupObserver.
  change (fold_left _ (elementos (with_observer (Some []) s))
                    (with_observer (Some []) s))
    with (fold_left observeOne (elementos s) (with_observer (Some []) s)).
  destruct (observeAll_spec (elementos s) (with_observer (Some []) s) [] eq_refl)
    as (obs & H1 & H2 & H3 & H4 & H5 & H6 & H7).
  split; [|split; [|split; [|split; [|split; [|split]]]]].
  - intros el. unfold observing. rewrite H1, H2. simpl. apply existsb_elem.
  - intros el Hin Hp. unfold ScrollLifecycle.hinted. rewrite H3. simpl.
    rewrite fold_alter_lookup by reflexivity.
    rewrite decide_True by exact Hin.
    unfold present in Hp. apply bool_decide_eq_true in Hp.
    destruct Hp as [e He]. rewrite He. reflexivity.
  - intros el c. unfold hasClass. rewrite H3. simpl.
    rewrite fold_alter_lookup by reflexivity.
    destruct (decide (el ∈ elementos s)); [|reflexivity].
    destruct (doc s !! el); reflexivity.
  - exact H5.
  - exact H6.
  - exact H7.
  - exact H4.
Qed.

(** [setupObserver] observes exactly the tracked elements, gives each of
    them the performance hint, and changes no class. *)
Theorem setupObserver_observes_tracked (s : State) :
  let s' := setupObserver s in
  (forall el, observing s' el = bool_decide (el ∈ elementos s)) /\
  (forall el, el ∈ elementos s -> present (doc s) el = true ->
              ScrollLifecycle.hinted (doc s') el = true) /\
  (forall el c, hasClass (doc s') el c = hasClass (doc s) el c) /\
  elementos s' = elementos s.
Proof.
  destruct (setupObserver_spec s) as (H1 & H2 & H3 & H4 & _).
  cbv zeta. auto.
Qed.

(** *** Construction, teardown and refresh *)

Import ScrollLifecycle.

Lemma fold_classAdd_present c l : forall (d : document) m,
  present (fold_left (fun d el => classAdd el c d) l d) m = present d m.
Proof.
  induction l as [|a l IH]; intros d m; [reflexivity|].
  cbn [fold_left]. rewrite IH. apply present_classAdd.
Qed.

Lemma fold_classAdd_mono c l : forall (d : document) m c',
  hasClass d m c' = true ->
  hasClass (fold_left (fun d el => classAdd el c d) l d) m c' = true.
Proof.
  induction l as [|a l IH]; intros d m c' H; [exact H|].
  cbn [fold_left]. apply IH, hasClass_classAdd_mono, H.
Qed.

Lemma fold_classAdd_reveals c l : forall (d : document) m,
  m ∈ l -> present d m = true ->
  hasClass (fold_left (fun d el => classAdd el c d) l d) m c = true.
Proof.
  induction l as [|a l IH]; intros d m Hin Hp.
  - apply not_elem_of_nil in Hin. contradiction.
  - cbn [fold_left]. apply elem_of_cons in Hin. destruct Hin as [->|Hin].
    + apply fold_classAdd_mono, hasClass_classAdd_same.
      unfold present in Hp. apply bool_decide_eq_true in Hp. exact Hp.
    + apply IH; [exact Hin|]. rewrite present_classAdd. exact Hp.
Qed.

(** Under a reduced-motion preference construction marks every matched
    element as revealed and sets up nothing else: no observer, no
    listener, no scheduled frame; window events then do nothing.  The
    active class is taken to be a token that a class list accepts. *)
Theorem reduced_motion_reveals_all
        (d : document) (ih ch : float) (clase : string) (once : bool)
        (page : Page) :
  validToken clase = true ->
  reducedMotion page = true ->
  let c := constructor d ih ch clase once true page in
  (forall el, el ∈ matched page -> present d el = true ->
              revealed (core c) el = true) /\
  observer (core c) = None /\ scrollHandler c = None /\
  windowListeners c = [] /\ rafQueue (core c) = [] /\
  (forall ty, windowEvent ty c = c).
Proof.
  intros _ Hrm. unfold constructor, init. rewrite Hrm. simpl.
  split; [|repeat split].
  intros el Hin Hp. unfold revealed. simpl.
  apply fold_classAdd_reveals; assumption.
Qed.

Lemma reduced_motion_reveals_witness :
  validToken "scrolled" = true /\
  let c := constructor Samples.scrollDoc 800 800 "scrolled" true true
                       (mkPage true true [1; 2; 3]%nat) in
  (forall el, el ∈ [1; 2; 3]%nat -> present Samples.scrollDoc el = true ->
              revealed (core c) el = true) /\
  observer (core c) = None /\ scrollHandler c = None /\
  windowListeners c = [] /\ rafQueue (core c) = [] /\
  (forall ty, windowEvent ty c = c).
Proof.
  split; [reflexivity|].
  exact (reduced_motion_reveals_all Samples.scrollDoc 800 800 "scrolled" true
           (mkPage true true [1; 2; 3]%nat) eq_refl eq_refl).
Defined.

(** [destroy] releases what the controller holds: the observer, the
    bound handler and its two window listeners, the recorded frame and
    the tracked elements, whose performance hint it clears; it changes
    no class, and a second [destroy] changes nothing. *)
Theorem scroll_destroy_releases (c : Controller) :
  let c' := destroy c in
  observer (core c') = None /\ scrollHandler c' = None /\
  elementos (core c') = [] /\
  (forall h ty, scrollHandler c = Some h ->
                ty = "scroll" \/ ty = "resize" ->
                ~ In (ty, h) (windowListeners c')) /\
  (forall id, rafId (core c) = Some (S id) ->
              ~ In (S id) (rafQueue (core c'))) /\
  (forall el e, el ∈ elementos (core c) -> doc (core c) !! el = Some e ->
                doc (core c') !! el = Some (set_styleWillChange "" e)) /\
  (forall el cl, hasClass (doc (core c')) el cl
                 = hasClass (doc (core c)) el cl) /\
  destroy c' = c'.
Proof.
  destruct c as [[d ih ch q nh cls once els obs rid ps] sh wl].
  cbv zeta. unfold destroy. simpl.
  assert (Hdoc : forall o h r,
             doc (core (destroy (mkController
                                   (mkState d ih ch q nh cls once els o r ps) h wl)))
             = fold_left (fun d el => alter (set_styleWillChange "") el d) els d).
  { intros o h r. unfold destroy. simpl.
    destruct o, h, r as [[|k]|]; reflexivity. }
  split; [destruct obs, sh, rid as [[|k]|]; reflexivity|].
  split; [destruct obs, sh, rid as [[|k]|]; reflexivity|].
  split; [destruct obs, sh, rid as [[|k]|]; reflexivity|].
  split.
  { intros h ty -> Hty Hin.
    assert (Hl : In (ty, h)
                   (List.filter (fun l => negb (sameWindowListener "resize" h l))
                      (List.filter (fun l => negb (sameWindowListener "scroll" h l))
                         wl))).
    { destruct obs, rid as [[|k]|]; exact Hin. }
    apply filter_In in Hl. destruct Hl as [Hl H2].
    apply filter_In in Hl. destruct Hl as [_ H1].
    unfold sameWindowListener in H1, H2. simpl in H1, H2.
    rewrite Nat.eqb_refl in H1, H2.
    destruct Hty as [ -> | -> ]; simpl in H1, H2; discriminate. }
  split.
  { intros id -> Hin.
    assert (Hl : In (S id)
                   (List.filter (fun x => negb (x =? S id)%nat) q)).
    { destruct obs, sh; exact Hin. }
    apply filter_In in Hl. destruct Hl as [_ Hl].
    rewrite Nat.eqb_refl in Hl. discriminate Hl. }
  split.
  { intros el e Hin He.
    pose proof (Hdoc obs sh rid) as H. unfold destroy in H. simpl in H.
    rewrite H. rewrite fold_alter_lookup by reflexivity.
    rewrite decide_True by exact Hin. rewrite He. reflexivity. }
  split.
  { intros el cl.
    pose proof (Hdoc obs sh rid) as H. unfold destroy in H. simpl in H.
    unfold hasClass. rewrite H. rewrite fold_alter_lookup by reflexivity.
    destruct (decide (el ∈ els)); [|reflexivity].
    destruct (d !! el); reflexivity. }
  destruct obs, sh, rid as [[|k]|]; reflexivity.
Qed.

Lemma destroy_idle (c : Controller) :
  windowListeners c = [] -> scrollHandler c = None ->
  rafQueue (core c) = [] -> rafId (core c) = None ->
  windowListeners (destroy c) = [] /\ rafQueue (core (destroy c)) = [] /\
  observer (core (destroy c)) = None /\ scrollHandler (destroy c) = None /\
  (forall ty, windowEvent ty (destroy c) = destroy c) /\
  doc (frame (core (destroy c))) = doc (core (destroy c)).
Proof.
  destruct c as [[d ih ch q nh cls once els obs rid ps] sh wl]. simpl.
  intros -> -> -> ->. unfold destroy. simpl.
  destruct obs; simpl; repeat split.
Qed.

(** Construction followed by [destroy] leaves nothing behind, whichever
    strategy construction chose: no window listener, no scheduled frame,
    no observer; window events and frames then do nothing. *)
Theorem scroll_construct_destroy_leaves_nothing
        (d : document) (ih ch : float) (clase : string) (once : bool)
        (page : Page) :
  let c := destroy (constructor d ih ch clase once true page) in
  windowListeners c = [] /\ rafQueue (core c) = [] /\
  observer (core c) = None /\ scrollHandler c = None /\
  (forall ty, windowEvent ty c = c) /\
  doc (frame (core c)) = doc (core c).
Proof.
  cbv zeta. unfold constructor, init.
  destruct (reducedMotion page); [apply destroy_idle; reflexivity|].
  destruct (intersectionObserver page).
  - cbn [negb].
    match goal with
    | |- context [with_core setupObserver ?c0] =>
        destruct (setupObserver_spec (core c0))
          as (_ & _ & _ & _ & Hq & Hid & _)
    end.
    apply destroy_idle; try reflexivity; [exact Hq|exact Hid].
  - simpl. repeat split.
Qed.

(** Under the polling strategy construction attaches one bound handler
    to both scroll and resize and schedules one pass at once, so the
    first frame evaluates the matched elements without waiting for a
    scroll; after that frame each window event schedules one pass
    again.  The active class is taken to be a token that a class list
    accepts. *)
Theorem polling_construction_runs_initial_pass
        (d : document) (ih ch : float) (clase : string) (once : bool)
        (page : Page) (ty : string) :
  validToken clase = true ->
  reducedMotion page = false ->
  intersectionObserver page = false ->
  ty = "scroll" \/ ty = "resize" ->
  let c := constructor d ih ch clase once true page in
  (exists h, scrollHandler c = Some h /\
             windowListeners c = [("scroll", h); ("resize", h)]) /\
  elementos (core c) = matched page /\
  length (rafQueue (core c)) = 1%nat /\
  doc (frame (core c)) = fold_left (evaluate (core c)) (matched page) d /\
  rafQueue (frame (core c)) = [] /\
  length (rafQueue (core (windowEvent ty (with_core frame c)))) = 1%nat.
Proof.
  intros _ Hrm Hio Hty. cbv zeta. unfold constructor, init.
  rewrite Hrm, Hio. simpl.
  split; [eexists; split; reflexivity|].
  repeat split. destruct Hty as [ -> | -> ]; reflexivity.
Qed.

Lemma polling_construction_witness :
  validToken "scrolled" = true /\
  let c := constructor Samples.scrollDoc 800 800 "scrolled" true true
                       (mkPage false false [1; 2; 3]%nat) in
  (exists h, scrollHandler c = Some h /\
             windowListeners c = [("scroll", h); ("resize", h)]) /\
  elementos (core c) = [1; 2; 3]%nat /\
  length (rafQueue (core c)) = 1%nat /\
  doc (frame (core c))
  = fold_left (evaluate (core c)) [1; 2; 3]%nat Samples.scrollDoc /\
  rafQueue (frame (core c)) = [] /\
  length (rafQueue (core (windowEvent "resize" (with_core frame c)))) = 1%nat.
Proof.
  split; [reflexivity|].
  exact (polling_construction_runs_initial_pass
           Samples.scrollDoc 800 800 "scrolled" true
           (mkPage false false [1; 2; 3]%nat) "resize"
           eq_refl eq_refl eq_refl (or_intror eq_refl)).
Defined.

Lemma scroll_destroy_spec (c : Controller) :
  observer (core (destroy c)) = None /\
  scrollHandler (destroy c) = None /\
  elementos (core (destroy c)) = [] /\
  truthy (rafId (core (destroy c))) = false.
Proof.
  destruct c as [[d ih ch q nh cls once els obs rid ps] sh wl].
  unfold destroy. simpl.
  destruct obs, sh, rid as [[|k]|]; repeat split.
Qed.

Lemma addWindowListener_core ty h c :
  core (addWindowListener ty h c) = core c.
Proof.
  unfold addWindowListener.
  destruct (existsb (sameWindowListener ty h) (windowListeners c));
    reflexivity.
Qed.

Lemma setupFallback_core c :
  core (setupFallback c)
  = with_raf (rafQueue (core c)) (S (nextHandle (core c))) (rafId (core c))
             (core c).
Proof.
  unfold setupFallback. rewrite !addWindowListener_core. reflexivity.
Qed.

(** [refresh] re-queries the selector.  With the observation strategy
    the new observer observes exactly the elements matched now, so an
    element added to the page is observed and one that no longer matches
    is not; with the polling strategy the elements matched now are the
    tracked ones and a pass over them is scheduled. *)
Theorem refresh_requeries (c : Controller) (page : Page) :
  reducedMotion page = false ->
  let c' := refresh page c in
  elementos (core c') = matched page /\
  (intersectionObserver page = true ->
   forall el, observing (core c') el = bool_decide (el ∈ matched page)) /\
  (intersectionObserver page = false ->
   rafQueue (core c') <> [] /\
   forall el, observing (core c') el = false).
Proof.
  intros Hrm. cbv zeta. unfold refresh, init. rewrite Hrm.
  destruct (scroll_destroy_spec c) as (Ho & Hs & He & Hr).
  set (c1 := destroy c) in *. clearbody c1.
  destruct c1 as [[d ih ch q nh cls once els obs rid ps] sh wl].
  simpl in Ho, Hs, He, Hr. subst obs sh els.
  destruct (intersectionObserver page) eqn:Hio; cbn [negb].
  - match goal with
    | |- context [with_core setupObserver ?c0] =>
        destruct (setupObserver_spec (core c0)) as (H1 & _ & _ & H4 & _)
    end.
    split; [exact H4|]. split; [intros _; exact H1|].
    intros H. discriminate H.
  - cbn [with_core core]. rewrite setupFallback_core.
    unfold handleScroll. cbn. rewrite Hr. cbn.
    split; [reflexivity|]. split; [intros H; discriminate H|].
    intros _. split; [|reflexivity].
    intros H. destruct q; discriminate H.
Qed.

Lemma refresh_requeries_witness :
  let c := constructor Samples.scrollDoc 800 800 "scrolled" true true
                       (mkPage false true [1; 2]%nat) in
  let c' := refresh (mkPage false true [2; 3]%nat) c in
  elementos (core c') = [2; 3]%nat /\
  (true = true ->
   forall el, observing (core c') el = bool_decide (el ∈ [2; 3]%nat)) /\
  (true = false ->
   rafQueue (core c') <> [] /\
   forall el, observing (core c') el = false).
Proof.
  exact (refresh_requeries
           (constructor Samples.scrollDoc 800 800 "scrolled" true true
                        (mkPage false true [1; 2]%nat))
           (mkPage false true [2; 3]%nat) eq_refl).
Defined.

End ScrollMore.